(** * Verification of the provably-fair dice game (Task3/game.py)

    A shallow embedding of [game.py] and the proofs of its specification.

    Conventions of the embedding.
    - A Python [int] is a [Z]; [bytes] is a [list byte]; [str] is a
      [string], read as a sequence of code points below 256.
    - A raised exception is the [Raise] case of [result]; the state of the
      outside world (entropy consumed, lines typed, text printed) is kept
      when an exception is raised, as it is in Python.
    - [os.urandom] reads an entropy tape: an arbitrary function from
      positions to bytes. Every theorem quantifies over the tape, so it
      holds for whatever bytes the operating system delivers.
    - [input] reads the next line typed on standard input and raises
      [EOFError] when there is none.
    - [int(s)] is modelled without the interpreter's optional cap on the
      number of digits. *)

From Stdlib Require Import ZArith List Strings.String Strings.Ascii Strings.Byte Bool Lia.
From Stdlib Require Import QArith Permutation.
Import ListNotations.

#[local] Open Scope string_scope.
#[local] Open Scope Z_scope.

(* ================================================================== *)
(** * Exceptions, results and the world *)
(* ================================================================== *)

Inductive exn : Type :=
| ValueError (msg : string)
| IndexError
| ZeroDivisionError
| EOFError.

Inductive result (A : Type) : Type :=
| Ok (a : A)
| Raise (e : exn).

Arguments Ok {A} a.
Arguments Raise {A} e.

(** The part of the operating system the program talks to. *)
Record World : Type := mkWorld {
  tape : nat -> byte;       (* the bytes os.urandom will deliver *)
  cursor : nat;             (* how many of them were consumed *)
  stdin : list string;      (* lines still to be typed *)
  stdout : list string      (* chunks written so far, oldest first *)
}.

(** Computations that may raise and that act on the world. *)
Definition M (A : Type) : Type := World -> result A * World.

Definition ret {A} (a : A) : M A := fun w => (Ok a, w).

Definition raise {A} (e : exn) : M A := fun w => (Raise e, w).

Definition bind {A B} (m : M A) (k : A -> M B) : M B :=
  fun w =>
    match m w with
    | (Ok a, w') => k a w'
    | (Raise e, w') => (Raise e, w')
    end.

Definition lift {A} (r : result A) : M A := fun w => (r, w).

Declare Scope py_scope.
Delimit Scope py_scope with py.
Notation "x <- m ;; k" := (bind m (fun x => k))
  (at level 100, m at next level, right associativity) : py_scope.
Notation "' p <- m ;; k" := (bind m (fun x => match x with p => k end))
  (at level 100, p pattern, m at next level, right associativity) : py_scope.
Notation "m ;;; k" := (bind m (fun _ => k))
  (at level 100, right associativity) : py_scope.
#[local] Open Scope py_scope.

(** [os.urandom(n)] *)
Definition urandom (n : nat) : M (list byte) :=
  fun w =>
    (Ok (map (tape w) (seq (cursor w) n)),
     mkWorld (tape w) (cursor w + n) (stdin w) (stdout w)).

(** [sys.stdout.write(s)] *)
Definition write (s : string) : M unit :=
  fun w => (Ok tt, mkWorld (tape w) (cursor w) (stdin w) (stdout w ++ [s])).

(** [print(s)]: the text and a newline. *)
Definition newline : string := String (ascii_of_nat 10) EmptyString.
Definition tab : string := String (ascii_of_nat 9) EmptyString.

Definition print (s : string) : M unit := write (s ++ newline).

(* ================================================================== *)
(** * Python built-ins used by the program *)
(* ================================================================== *)

Module Py.

(** ** Integers and their decimal text *)

Definition digit_char (d : Z) : ascii := ascii_of_nat (48 + Z.to_nat d).

(** The decimal digits of a natural number, most significant first.
    [fuel] bounds the number of digits; one more than the binary
    logarithm of [n] is always enough. *)
Fixpoint digits_aux (fuel : nat) (n : Z) (acc : string) : string :=
  match fuel with
  | O => acc
  | S fuel' =>
      let acc' := String (digit_char (n mod 10)) acc in
      if n <? 10 then acc' else digits_aux fuel' (n / 10) acc'
  end.

Definition str_nonneg (n : Z) : string :=
  digits_aux (S (Z.to_nat (Z.log2 n))) n EmptyString.

(** [str(n)] for an int. *)
Definition str (n : Z) : string :=
  if n <? 0 then String "-" (str_nonneg (- n)) else str_nonneg n.

(** [s.encode()]: the text is ASCII wherever the program encodes. *)
Definition encode (s : string) : list byte := list_byte_of_string s.

Definition is_ascii_digit (c : ascii) : bool :=
  let n := nat_of_ascii c in (48 <=? n)%nat && (n <=? 57)%nat.

(** [c.isdigit()] on code points below 256: the ASCII digits and the
    superscripts two, three and one (U+00B2, U+00B3, U+00B9). *)
Definition char_isdigit (c : ascii) : bool :=
  let n := nat_of_ascii c in
  is_ascii_digit c || (n =? 178)%nat || (n =? 179)%nat || (n =? 185)%nat.

Fixpoint all_chars (p : ascii -> bool) (s : string) : bool :=
  match s with
  | EmptyString => true
  | String c s' => p c && all_chars p s'
  end.

(** [s.isdigit()]: non-empty and every character a digit. *)
Definition isdigit (s : string) : bool :=
  match s with
  | EmptyString => false
  | _ => all_chars char_isdigit s
  end.

(** [c.isspace()] on code points below 256. *)
Definition char_isspace (c : ascii) : bool :=
  let n := nat_of_ascii c in
  ((9 <=? n) && (n <=? 13) || (28 <=? n) && (n <=? 32)
   || (n =? 133) || (n =? 160))%nat.

Fixpoint lstrip (s : string) : string :=
  match s with
  | EmptyString => EmptyString
  | String c s' => if char_isspace c then lstrip s' else s
  end.

(** Drops the trailing white space: a character is kept when it is not
    white space or when something is kept after it. *)
Fixpoint rstrip (s : string) : string :=
  match s with
  | EmptyString => EmptyString
  | String c s' =>
      match rstrip s' with
      | EmptyString => if char_isspace c then EmptyString
                       else String c EmptyString
      | r => String c r
      end
  end.

(** [s.strip()] *)
Definition strip (s : string) : string := rstrip (lstrip s).

Fixpoint int_digits (s : string) (acc : Z) : Z :=
  match s with
  | EmptyString => acc
  | String c s' => int_digits s' (10 * acc + Z.of_nat (nat_of_ascii c - 48))
  end.

Definition invalid_literal (s : string) : exn :=
  ValueError ("invalid literal for int() with base 10: '" ++ s ++ "'").

(** [int(s)] on the strings the program passes to it: those for which
    [isdigit] holds, or one of the literals 0 and 1. A superscript digit
    passes [isdigit] and is refused by [int]. *)
Definition int (s : string) : result Z :=
  match s with
  | EmptyString => Raise (invalid_literal s)
  | _ => if all_chars is_ascii_digit s then Ok (int_digits s 0)
         else Raise (invalid_literal s)
  end.

(** ** Bytes *)

Definition Z_of_byte (b : byte) : Z := Z.of_N (Byte.to_N b).

Definition byte_of_Z (z : Z) : byte :=
  match Byte.of_N (Z.to_N (z mod 256)) with
  | Some b => b
  | None => x00
  end.

(** [int.from_bytes(bs, 'big')] *)
Definition from_bytes_big (bs : list byte) : Z :=
  fold_left (fun acc b => 256 * acc + Z_of_byte b) bs 0.

Definition hex_digit (lower : bool) (d : Z) : ascii :=
  if d <? 10 then digit_char d
  else ascii_of_nat ((if lower then 87 else 55) + Z.to_nat d).

Definition hex_of_byte (b : byte) : string :=
  let z := Z_of_byte b in
  String (hex_digit true (z / 16)) (String (hex_digit true (z mod 16)) EmptyString).

(** [bs.hex()]: two lower-case digits per byte. *)
Fixpoint hex (bs : list byte) : string :=
  match bs with
  | [] => EmptyString
  | b :: bs' => hex_of_byte b ++ hex bs'
  end.

Definition char_upper (c : ascii) : ascii :=
  let n := nat_of_ascii c in
  if ((97 <=? n) && (n <=? 122))%nat then ascii_of_nat (n - 32) else c.

(** [s.upper()] on ASCII text; the program applies it to the output of
    [hex] only. *)
Fixpoint upper (s : string) : string :=
  match s with
  | EmptyString => EmptyString
  | String c s' => String (char_upper c) (upper s')
  end.

(** ** Lists *)

(** [sep.join(parts)] *)
Fixpoint join (sep : string) (parts : list string) : string :=
  match parts with
  | [] => EmptyString
  | [p] => p
  | p :: ps => p ++ sep ++ join sep ps
  end.

(** [xs[i]]: a negative index counts from the end. *)
Definition getitem {A} (xs : list A) (i : Z) : result A :=
  let n := Z.of_nat (List.length xs) in
  let j := if i <? 0 then i + n else i in
  if (0 <=? j) && (j <? n) then
    match nth_error xs (Z.to_nat j) with
    | Some x => Ok x
    | None => Raise IndexError
    end
  else Raise IndexError.

(** [a % b]: the sign of the result follows the divisor. *)
Definition pymod (a b : Z) : result Z :=
  if b =? 0 then Raise ZeroDivisionError else Ok (a mod b).

End Py.

(* ================================================================== *)
(** * hashlib.sha256 and hmac *)
(* ================================================================== *)

Module SHA256.

(** 32-bit words are integers kept below 2^32. *)
Definition wrap (x : Z) : Z := Z.land x 0xffffffff.
Definition add32 (x y : Z) : Z := wrap (x + y).
Definition rotr (n x : Z) : Z :=
  Z.lor (Z.shiftr x n) (wrap (Z.shiftl x (32 - n))).
Definition shr (n x : Z) : Z := Z.shiftr x n.
Definition not32 (x : Z) : Z := Z.lxor x 0xffffffff.

Definition Ch (x y z : Z) : Z := Z.lxor (Z.land x y) (Z.land (not32 x) z).
Definition Maj (x y z : Z) : Z :=
  Z.lxor (Z.lxor (Z.land x y) (Z.land x z)) (Z.land y z).
Definition Sigma0 (x : Z) : Z := Z.lxor (Z.lxor (rotr 2 x) (rotr 13 x)) (rotr 22 x).
Definition Sigma1 (x : Z) : Z := Z.lxor (Z.lxor (rotr 6 x) (rotr 11 x)) (rotr 25 x).
Definition sigma0 (x : Z) : Z := Z.lxor (Z.lxor (rotr 7 x) (rotr 18 x)) (shr 3 x).
Definition sigma1 (x : Z) : Z := Z.lxor (Z.lxor (rotr 17 x) (rotr 19 x)) (shr 10 x).

(** The constants are the ones the standard defines: the first 32 bits of
    the fractional parts of the cube roots (for [K]) and of the square
    roots (for [H0]) of the first primes. *)
Definition is_prime (n : nat) : bool :=
  (1 <? n)%nat
  && forallb (fun d => negb (n mod d =? 0)%nat) (seq 2 (n - 2)).

Definition primes : list Z := map Z.of_nat (filter is_prime (seq 2 310)).

(** The largest [r] below [2 ^ bits] whose cube is at most [n]. *)
Fixpoint cube_root (bits : nat) (n r : Z) : Z :=
  match bits with
  | O => r
  | S bits' =>
      let r' := r + 2 ^ Z.of_nat bits' in
      cube_root bits' n (if r' * r' * r' <=? n then r' else r)
  end.

Definition K : list Z :=
  Eval vm_compute in
    map (fun p => wrap (cube_root 36 (p * 2 ^ 96) 0)) primes.

Definition H0 : list Z :=
  Eval vm_compute in
    map (fun p => wrap (Z.sqrt (p * 2 ^ 64))) (firstn 8 primes).

(** [x] on [n] bytes, the most significant first. *)
Definition be_bytes (n : nat) (x : Z) : list Z :=
  map (fun i => Z.land (Z.shiftr x (8 * Z.of_nat (n - 1 - i))) 0xff) (seq 0 n).

(** The message, a 1 bit, zeros up to 56 modulo 64, and the bit length on
    8 bytes. *)
Definition pad (msg : list Z) : list Z :=
  let len := Z.of_nat (List.length msg) in
  let zeros := Z.to_nat ((55 - len) mod 64) in
  (msg ++ [0x80] ++ repeat 0 zeros ++ be_bytes 8 (8 * len))%list.

Definition word_of (b0 b1 b2 b3 : Z) : Z :=
  Z.lor (Z.lor (Z.shiftl b0 24) (Z.shiftl b1 16)) (Z.lor (Z.shiftl b2 8) b3).

Fixpoint words (n : nat) (bs : list Z) : list Z :=
  match n, bs with
  | S n', b0 :: b1 :: b2 :: b3 :: rest => word_of b0 b1 b2 b3 :: words n' rest
  | _, _ => []
  end.

(** The message schedule, newest word first: [ws] holds W[t-1] .. W[0]. *)
Fixpoint schedule (n : nat) (ws : list Z) : list Z :=
  match n with
  | O => ws
  | S n' =>
      let w := add32 (add32 (sigma1 (nth 1 ws 0)) (nth 6 ws 0))
                     (add32 (sigma0 (nth 14 ws 0)) (nth 15 ws 0)) in
      schedule n' (w :: ws)
  end.

Record regs : Type := mkRegs { ra : Z; rb : Z; rc : Z; rd : Z;
                               re : Z; rf : Z; rg : Z; rh : Z }.

Definition round (s : regs) (kw : Z * Z) : regs :=
  let t1 := add32 (add32 (add32 (rh s) (Sigma1 (re s)))
                         (add32 (Ch (re s) (rf s) (rg s)) (fst kw))) (snd kw) in
  let t2 := add32 (Sigma0 (ra s)) (Maj (ra s) (rb s) (rc s)) in
  mkRegs (add32 t1 t2) (ra s) (rb s) (rc s) (add32 (rd s) t1) (re s) (rf s) (rg s).

Definition regs_of (h : list Z) : regs :=
  mkRegs (nth 0 h 0) (nth 1 h 0) (nth 2 h 0) (nth 3 h 0)
         (nth 4 h 0) (nth 5 h 0) (nth 6 h 0) (nth 7 h 0).

Definition list_of (s : regs) : list Z :=
  [ra s; rb s; rc s; rd s; re s; rf s; rg s; rh s].

Definition compress (h : list Z) (block : list Z) : list Z :=
  let ws := rev (schedule 48 (rev (words 16 block))) in
  let s := fold_left round (combine K ws) (regs_of h) in
  map (fun p => add32 (fst p) (snd p)) (combine h (list_of s)).

(** One 64-byte block per step; [n] is the number of blocks. *)
Fixpoint blocks (n : nat) (h : list Z) (bs : list Z) : list Z :=
  match n with
  | O => h
  | S n' => blocks n' (compress h (firstn 64 bs)) (skipn 64 bs)
  end.

(** [hashlib.sha256(msg).digest()] *)
Definition digest (msg : list byte) : list byte :=
  let padded := pad (map Py.Z_of_byte msg) in
  let h := blocks (List.length padded / 64) H0 padded in
  map Py.byte_of_Z (flat_map (be_bytes 4) h).

End SHA256.

Module HMAC.

Definition block_size : nat := 64.

Definition xor_with (c : Z) (bs : list byte) : list byte :=
  map (fun b => Py.byte_of_Z (Z.lxor (Py.Z_of_byte b) c)) bs.

(** A key longer than a block is hashed first; then it is filled with
    zero bytes up to the block size. *)
Definition block_key (key : list byte) : list byte :=
  let k := if (block_size <? List.length key)%nat then SHA256.digest key else key in
  (k ++ repeat x00 (block_size - List.length k))%list.

(** [hmac.new(key, msg, hashlib.sha256).digest()] *)
Definition digest (key msg : list byte) : list byte :=
  let k := block_key key in
  SHA256.digest (xor_with 0x5c k ++ SHA256.digest (xor_with 0x36 k ++ msg)).

(** [hmac.new(key, msg, hashlib.sha256).hexdigest()] *)
Definition hexdigest (key msg : list byte) : string :=
  Py.hex (digest key msg).

End HMAC.

(* ================================================================== *)
(** * True division and fixed-point formatting of floats *)
(* ================================================================== *)

Module Float.

(** A finite non-negative double: the value is [mant * 2 ^ expo]. *)
Record binary64 : Type := mkFloat { mant : Z; expo : Z }.

(** [n / d] rounded to the nearest integer, ties to even ([0 <= n], [0 < d]). *)
Definition round_half_even (n d : Z) : Z :=
  let q := n / d in
  let r := n mod d in
  if 2 * r <? d then q
  else if d <? 2 * r then q + 1
  else if Z.even q then q else q + 1.

(** [p / q] on ints, for [0 <= p]: the double nearest to the exact
    quotient, which is what the interpreter computes. The quotients of the
    program lie in [1/q, 1], far from the subnormal and overflow ranges,
    which are left out. *)
Definition true_div (p q : Z) : result binary64 :=
  if q =? 0 then Raise ZeroDivisionError
  else if p =? 0 then Ok (mkFloat 0 0)
  else
    let e0 := Z.log2 p - Z.log2 q in
    (* e is the exponent of the quotient: 2^e <= p/q < 2^(e+1) *)
    let e := if (if 0 <=? e0 then q * 2 ^ e0 <=? p else q <=? p * 2 ^ (- e0))
             then e0 else e0 - 1 in
    let shift := 52 - e in
    let m := if 0 <=? shift then round_half_even (p * 2 ^ shift) q
             else round_half_even p (q * 2 ^ (- shift)) in
    Ok (mkFloat m (- shift)).

(** [f"{x:.2f}"]: the exact value of the double, rounded to the nearest
    hundredth, ties to even. *)
Definition hundredths (x : binary64) : Z :=
  if 0 <=? expo x then 100 * mant x * 2 ^ expo x
  else round_half_even (100 * mant x) (2 ^ (- expo x)).

Definition format_2f (x : binary64) : string :=
  let k := hundredths x in
  (Py.str (k / 100) ++ "."
   ++ String (Py.digit_char (k mod 100 / 10))
        (String (Py.digit_char (k mod 10)) EmptyString))%string.

End Float.

(* ================================================================== *)
(** * Control structures *)
(* ================================================================== *)

(** [for x in xs: body(x)] *)
Fixpoint for_each {A} (xs : list A) (body : A -> M unit) : M unit :=
  match xs with
  | [] => ret tt
  | x :: xs' => body x ;;; for_each xs' body
  end.

(** A list comprehension whose element expression may raise. *)
Fixpoint map_result {A B} (f : A -> result B) (xs : list A) : result (list B) :=
  match xs with
  | [] => Ok []
  | x :: xs' =>
      match f x with
      | Raise e => Raise e
      | Ok y =>
          match map_result f xs' with
          | Raise e => Raise e
          | Ok ys => Ok (y :: ys)
          end
      end
  end.

(** [enumerate(xs)] and [range(n)] *)
Definition enumerate {A} (xs : list A) : list (Z * A) :=
  combine (map Z.of_nat (seq 0 (List.length xs))) xs.

Definition range (n : Z) : list Z := map Z.of_nat (seq 0 (Z.to_nat n)).

(** The loops of the program all have the shape
    [while True: line = input(prompt); ...; continue | return v].
    [body] answers [None] for [continue] and [Some v] for [return v]; the
    recursion is on the lines still to be typed, and [input] raises
    [EOFError] when there is none. *)
Fixpoint input_loop {A} (prompt : string) (body : string -> M (option A))
    (lines : list string) : M A :=
  match lines with
  | [] => write prompt ;;; raise EOFError
  | line :: rest =>
      write prompt ;;;
      (fun w => (Ok tt, mkWorld (tape w) (cursor w) rest (stdout w))) ;;;
      r <- body line ;;
      match r with
      | Some v => ret v
      | None => input_loop prompt body rest
      end
  end.

Definition while_true_input {A} (prompt : string)
    (body : string -> M (option A)) : M A :=
  fun w => input_loop prompt body (stdin w) w.

(* ================================================================== *)
(** * The program *)
(* ================================================================== *)

(** ** class CryptoProvider *)

Module CryptoProvider.

Definition generate_uniform_random (max_value : Z) : M Z :=
  if max_value <? 0 then raise (ValueError "max_value must be non-negative")
  else
    bs <- urandom 4 ;;
    lift (Py.pymod (Py.from_bytes_big bs) (max_value + 1)).

End CryptoProvider.

(** ** class FairNumberGenerator

    The generator holds a [CryptoProvider], a class without fields whose
    only method is static: the call goes to that method. *)

Module FairNumberGenerator.

Definition generate_fair_number (max_value : Z) : M (Z * list byte * string) :=
  key <- urandom 16 ;;
  number <- CryptoProvider.generate_uniform_random max_value ;;
  let hmac_value := HMAC.hexdigest key (Py.encode (Py.str number)) in
  ret (number, key, hmac_value).

End FairNumberGenerator.

(** ** class Die *)

Record Die : Type := mkDie { values : list Z }.

(** The values a variable of the program may hold, as far as equality
    with a die can tell them apart. *)
Inductive object : Type :=
| ODie (d : Die)
| ONone
| OInt (n : Z)
| OStr (s : string)
| OBytes (bs : list byte)
| OList (vs : list Z).

Module DieM.

(** [Die(values)]; the copy of the list is the list itself, lists being
    values here. *)
Definition init (vs : list Z) : result Die :=
  match vs with
  | [] => Raise (ValueError "Die must have at least one face")
  | _ => Ok (mkDie vs)
  end.

Definition len (d : Die) : Z := Z.of_nat (List.length (values d)).

Definition getitem (d : Die) (index : Z) : result Z :=
  Py.getitem (values d) index.

(** [repr] of a list of ints *)
Definition repr_list (vs : list Z) : string :=
  ("[" ++ Py.join ", " (map Py.str vs) ++ "]")%string.

Definition repr (d : Die) : string := ("Die(" ++ repr_list (values d) ++ ")")%string.

(** [==] on two lists of ints *)
Fixpoint list_eq (xs ys : list Z) : bool :=
  match xs, ys with
  | [], [] => true
  | x :: xs', y :: ys' => (x =? y) && list_eq xs' ys'
  | _, _ => false
  end.

Definition isinstance_Die (o : object) : bool :=
  match o with ODie _ => true | _ => false end.

Definition eq (self : Die) (other : object) : bool :=
  match other with
  | ODie d => list_eq (values self) (values d)
  | _ => false
  end.

(** [for x in die]: a die has no [__iter__], so iteration indexes it from 0
    until [IndexError], which yields its faces in order. *)
Definition iter (d : Die) : list Z := values d.

End DieM.

(** ** class TableGenerator *)

Module TableGenerator.

(** [sum(1 for x in die1 for y in die2 if x > y)] *)
Definition wins (die1 die2 : Die) : Z :=
  fold_left Z.add
    (flat_map (fun x => flat_map (fun y => if x >? y then [1] else [])
                          (DieM.iter die2)) (DieM.iter die1)) 0.

Definition total (die1 die2 : Die) : Z := DieM.len die1 * DieM.len die2.

Definition _calculate_probability (die1 die2 : Die) : result string :=
  match Float.true_div (wins die1 die2) (total die1 die2) with
  | Raise e => Raise e
  | Ok x => Ok (Float.format_2f x)
  end.

(** The cells of row [i], the label first. *)
Definition row (dice : list Die) (i : Z) (die1 : Die) : result (list string) :=
  match map_result
          (fun jd : Z * Die =>
             if i =? fst jd then Ok "0.50"
             else _calculate_probability die1 (snd jd))
          (enumerate dice) with
  | Raise e => Raise e
  | Ok cells => Ok (("Die " ++ Py.str i)%string :: cells)
  end.

Definition generate_table (dice : list Die) : M unit :=
  print (newline ++ "Probability Table:") ;;;
  print (tab ++ Py.join tab
           (map (fun i => ("Die " ++ Py.str i)%string)
                (range (Z.of_nat (List.length dice))))) ;;;
  for_each (enumerate dice) (fun id =>
    r <- lift (row dice (fst id) (snd id)) ;;
    print (Py.join tab r)).

End TableGenerator.

(** ** class GameState *)

Record GameState : Type := mkGameState {
  original_dice : list Die;
  available_dice : list Die;
  player_die : option Die;
  computer_die : option Die
}.

Module GameStateM.

Definition init (dice : list Die) : GameState :=
  mkGameState dice dice None None.

(** [die in dice] *)
Definition contains (die : Die) (dice : list Die) : bool :=
  existsb (fun d => DieM.eq d (ODie die)) dice.

(** [dice.remove(die)]: the first element equal to [die] goes. *)
Fixpoint list_remove (die : Die) (dice : list Die) : result (list Die) :=
  match dice with
  | [] => Raise (ValueError "list.remove(x): x not in list")
  | d :: rest =>
      if DieM.eq d (ODie die) then Ok rest
      else match list_remove die rest with
           | Raise e => Raise e
           | Ok rest' => Ok (d :: rest')
           end
  end.

Definition select_die (self : GameState) (die : Die) : result GameState :=
  if contains die (available_dice self) then
    match list_remove die (available_dice self) with
    | Raise e => Raise e
    | Ok dice => Ok (mkGameState (original_dice self) dice
                       (player_die self) (computer_die self))
    end
  else Ok self.

Definition reset (self : GameState) : GameState :=
  mkGameState (original_dice self) (original_dice self) None None.

End GameStateM.

(** ** class GameController

    The controller's provider and generator have no state; its one
    mutable field is the game state. A method that changes the state
    returns the controller after the call next to its result. *)

Record GameController : Type := mkGameController { state : GameState }.

Module GameControllerM.

Definition init (dice_values : list (list Z)) : result GameController :=
  if (List.length dice_values <? 3)%nat then
    Raise (ValueError "At least three dice must be provided")
  else
    match map_result DieM.init dice_values with
    | Raise e => Raise e
    | Ok dice => Ok (mkGameController (GameStateM.init dice))
    end.

Definition set_player_die (self : GameController) (d : Die) : GameController :=
  let st := state self in
  mkGameController (mkGameState (original_dice st) (available_dice st)
                      (Some d) (computer_die st)).

Definition set_computer_die (self : GameController) (d : Die) : GameController :=
  let st := state self in
  mkGameController (mkGameState (original_dice st) (available_dice st)
                      (player_die st) (Some d)).

(** The line that reveals the committed number and its key. *)
Definition reveal (computer_num : Z) (key : list byte) : string :=
  ("My number is " ++ Py.str computer_num
   ++ " (KEY=" ++ Py.upper (Py.hex key) ++ ").")%string.

Definition _determine_first_player : M bool :=
  '(computer_num, key, hmac_value) <- FairNumberGenerator.generate_fair_number 1 ;;
  print ("I selected a random number (HMAC=" ++ hmac_value ++ ").") ;;;
  print "Guess the number: 0 or 1" ;;;
  while_true_input "Your guess: " (fun line =>
    let choice := Py.strip line in
    if negb ((choice =? "0")%string || (choice =? "1")%string) then
      print "Invalid choice. Please enter 0 or 1." ;;; ret None
    else
      player_guess <- lift (Py.int choice) ;;
      print (reveal computer_num key) ;;;
      ret (Some (player_guess =? computer_num))).

Definition _computer_select_die (self : GameController)
  : M (Die * GameController) :=
  let available := available_dice (state self) in
  match available with
  | [] => raise (ValueError "No dice available for selection")
  | _ =>
      computer_choice <-
        CryptoProvider.generate_uniform_random (Z.of_nat (List.length available) - 1) ;;
      selected_die <- lift (Py.getitem available computer_choice) ;;
      st <- lift (GameStateM.select_die (state self) selected_die) ;;
      ret (selected_die, mkGameController st)
  end.

Definition _player_select_die (self : GameController)
  : M (Die * GameController) :=
  let available := available_dice (state self) in
  print "Choose your dice:" ;;;
  for_each (enumerate available) (fun id =>
    print (Py.str (fst id) ++ " - " ++ DieM.repr (snd id))) ;;;
  while_true_input "Your selection: " (fun line =>
    let choice := Py.strip line in
    if negb (Py.isdigit choice) then
      print "Invalid selection. Please try again." ;;; ret None
    else
      n <- lift (Py.int choice) ;;
      if n >=? Z.of_nat (List.length available) then
        print "Invalid selection. Please try again." ;;; ret None
      else
        selected_die <- lift (Py.getitem available n) ;;
        st <- lift (GameStateM.select_die (state self) selected_die) ;;
        ret (Some (selected_die, mkGameController st))).

(** The body of the loop of [_make_throw], with the committed number and
    key it closes over. *)
Definition throw_body (die : Die) (computer_num : Z) (key : list byte)
    (line : string) : M (option Z) :=
  let choice := Py.strip line in
  if negb (Py.isdigit choice) then
    print "Invalid selection. Please try again." ;;; ret None
  else
    n <- lift (Py.int choice) ;;
    if n >=? DieM.len die then
      print "Invalid selection. Please try again." ;;; ret None
    else
      let player_num := n in
      result <- lift (Py.pymod (player_num + computer_num) (DieM.len die)) ;;
      print (reveal computer_num key) ;;;
      print ("The result is " ++ Py.str player_num ++ " + " ++ Py.str computer_num
             ++ " = " ++ Py.str result ++ " (mod " ++ Py.str (DieM.len die) ++ ").") ;;;
      face <- lift (DieM.getitem die result) ;;
      ret (Some face).

Definition _make_throw (context : string) (die : Die) : M Z :=
  '(computer_num, key, hmac_value) <-
     FairNumberGenerator.generate_fair_number (DieM.len die - 1) ;;
  print (context ++ ": I selected a random value in the range 0.."
         ++ Py.str (DieM.len die - 1) ++ " (HMAC=" ++ hmac_value ++ ").") ;;;
  print "Add your number modulo the die size." ;;;
  for_each (range (DieM.len die)) (fun i =>
    face <- lift (DieM.getitem die i) ;;
    print (Py.str i ++ " - " ++ Py.str face)) ;;;
  while_true_input "Your selection: " (throw_body die computer_num key).

Definition start_game (self : GameController) : M GameController :=
  print "Welcome to the Dice Game!" ;;;
  TableGenerator.generate_table (original_dice (state self)) ;;;
  print (newline ++ "Let's determine who will select their die first.") ;;;
  player_first <- _determine_first_player ;;
  '(pd, cd, self) <-
    (if player_first : bool then
       print "You will select your die first." ;;;
       '(pd, self) <- _player_select_die self ;;
       let self := set_player_die self pd in
       '(cd, self) <- _computer_select_die self ;;
       ret (pd, cd, set_computer_die self cd)
     else
       print "Computer will select its die first." ;;;
       '(cd, self) <- _computer_select_die self ;;
       let self := set_computer_die self cd in
       '(pd, self) <- _player_select_die self ;;
       ret (pd, cd, set_player_die self pd)) ;;
  print (newline ++ "You selected: " ++ DieM.repr pd) ;;;
  print ("Computer selected: " ++ DieM.repr cd) ;;;
  print (newline ++ "Time to roll the dice!") ;;;
  player_score <- _make_throw "Your throw" pd ;;
  computer_score <- _make_throw "Computer's throw" cd ;;
  print (newline ++ "Your score: " ++ Py.str player_score) ;;;
  print ("Computer's score: " ++ Py.str computer_score) ;;;
  (if player_score >? computer_score then
     print "Congratulations, you win!"
   else if player_score <? computer_score then
     print "Sorry, the computer wins."
   else print "It's a tie!") ;;;
  ret self.

End GameControllerM.

(* ================================================================== *)
(** * Reading the command line *)
(* ================================================================== *)

(** More built-ins, for [parse_dice_input]: [str.split], [int] on any
    text, and [repr] of a text, which [int] quotes in its message. *)
Module Text.

(** [s.split(sep)] for a separator of one character: there is always a
    first piece. *)
Fixpoint split (sep : ascii) (s : string) : list string :=
  match s with
  | EmptyString => [EmptyString]
  | String c s' =>
      if Ascii.eqb c sep then EmptyString :: split sep s'
      else match split sep s' with
           | piece :: pieces => String c piece :: pieces
           | [] => [String c EmptyString]
           end
  end.

(** White space for the parser of integer literals: tab to carriage
    return, and the space. *)
Definition is_blank (c : ascii) : bool :=
  let n := nat_of_ascii c in ((9 <=? n) && (n <=? 13) || (n =? 32))%nat.

(** Before parsing, [int] turns the white space beyond ASCII (U+0085 and
    U+00A0 below 256) into spaces; a character beyond ASCII that is
    neither white space nor a decimal digit makes the literal invalid. *)
Fixpoint to_ascii (s : string) : option string :=
  match s with
  | EmptyString => Some EmptyString
  | String c s' =>
      let n := nat_of_ascii c in
      if (n <=? 127)%nat then option_map (String c) (to_ascii s')
      else if ((n =? 133) || (n =? 160))%nat then
        option_map (String " "%char) (to_ascii s')
      else None
  end.

Fixpoint skip_blanks (s : string) : string :=
  match s with
  | EmptyString => EmptyString
  | String c s' => if is_blank c then skip_blanks s' else s
  end.

(** The run of digits, where single underscores may stand between two
    digits: the value, the number of digits and what follows the run;
    [None] for two underscores in a row or one at the end. *)
Fixpoint scan (s : string) (after_underscore : bool) (acc : Z) (count : nat)
  : option (Z * nat * string) :=
  match s with
  | String c s' =>
      if Py.is_ascii_digit c then
        scan s' false (10 * acc + Z.of_nat (nat_of_ascii c - 48)) (S count)
      else if Ascii.eqb c "_"%char then
        if after_underscore then None else scan s' true acc count
      else if after_underscore then None else Some (acc, count, s)
  | EmptyString =>
      if after_underscore then None else Some (acc, count, EmptyString)
  end.

(** The value of a literal in base 10: blanks, a sign, the digits,
    blanks. *)
Definition literal (s : string) : option Z :=
  match to_ascii s with
  | None => None
  | Some t =>
      let t := skip_blanks t in
      let (sign, t) :=
        match t with
        | String "+"%char r => (1, r)
        | String "-"%char r => (-1, r)
        | _ => (1, t)
        end in
      match t with
      | String "_"%char _ => None
      | _ =>
          match scan t false 0 0 with
          | None => None
          | Some (v, count, rest) =>
              match count, skip_blanks rest with
              | S _, EmptyString => Some (sign * v)
              | _, _ => None
              end
          end
      end
  end.

Definition backslash : ascii := ascii_of_nat 92.
Definition double_quote : ascii := ascii_of_nat 34.

Definition hex_escape (c : ascii) : string :=
  let n := Z.of_nat (nat_of_ascii c) in
  String backslash (String "x"%char
    (String (Py.hex_digit true (n / 16))
       (String (Py.hex_digit true (n mod 16)) EmptyString))).

(** Below 256 the characters that [repr] prints as they are: the ASCII
    ones from the space to the tilde, and those from U+00A1 on but the
    soft hyphen. *)
Definition is_printable (c : ascii) : bool :=
  let n := nat_of_ascii c in
  ((32 <=? n) && (n <=? 126) || (161 <=? n) && negb (n =? 173))%nat.

Fixpoint contains (c : ascii) (s : string) : bool :=
  match s with
  | EmptyString => false
  | String c' s' => Ascii.eqb c c' || contains c s'
  end.

Fixpoint escape (quote : ascii) (s : string) : string :=
  match s with
  | EmptyString => EmptyString
  | String c s' =>
      let n := nat_of_ascii c in
      ((if Ascii.eqb c quote || Ascii.eqb c backslash then
          String backslash (String c EmptyString)
        else if (n =? 9)%nat then String backslash "t"
        else if (n =? 10)%nat then String backslash "n"
        else if (n =? 13)%nat then String backslash "r"
        else if is_printable c then String c EmptyString
        else hex_escape c)
       ++ escape quote s')%string
  end.

(** [repr(s)]: in single quotes, unless the text has a single quote and
    no double quote. *)
Definition repr (s : string) : string :=
  let quote :=
    if contains "'"%char s && negb (contains double_quote s) then double_quote
    else "'"%char in
  String quote (escape quote s ++ String quote EmptyString).

Fixpoint truncate (n : nat) (s : string) : string :=
  match n, s with
  | S n', String c s' => String c (truncate n' s')
  | _, _ => EmptyString
  end.

(** [int(s)]: the message quotes at most 200 characters of [repr(s)]. *)
Definition int (s : string) : result Z :=
  match literal s with
  | Some v => Ok v
  | None =>
      Raise (ValueError ("invalid literal for int() with base 10: "
                         ++ truncate 200 (repr s)))
  end.

End Text.

(** How a call ends when it may leave through [sys.exit]: it returns,
    raises [SystemExit] with a code, or raises another exception. *)
Inductive ending (A : Type) : Type :=
| Returned (a : A)
| Exited (code : Z)
| Uncaught (e : exn).

Arguments Returned {A} a.
Arguments Exited {A} code.
Arguments Uncaught {A} e.

(** [str(e)] for the exceptions of the program: the message of a
    [ValueError]; the others carry none. *)
Definition exn_str (e : exn) : string :=
  match e with
  | ValueError msg => msg
  | _ => EmptyString
  end.

(** [[int(x) for x in arg.split(',')]] *)
Definition parse_values (arg : string) : result (list Z) :=
  map_result Text.int (Text.split ","%char arg).

Fixpoint parse_dice_loop (args : list string) (dice_values : list (list Z))
  : World -> ending (list (list Z)) * World :=
  fun w =>
    match args with
    | [] => (Returned dice_values, w)
    | arg :: args' =>
        let attempt :=
          match parse_values arg with
          | Raise e => Raise e
          | Ok [] => Raise (ValueError "Empty dice values")
          | Ok values => Ok values
          end in
        match attempt with
        | Ok values => parse_dice_loop args' (dice_values ++ [values]) w
        | Raise (ValueError msg) =>
            match print ("Error parsing dice values '" ++ arg ++ "': "
                         ++ exn_str (ValueError msg)) w with
            | (_, w') => (Exited 1, w')
            end
        | Raise e => (Uncaught e, w)
        end
    end.

Definition parse_dice_input (args : list string)
  : World -> ending (list (list Z)) * World :=
  parse_dice_loop args [].

(** [main], for the command line [argv], the name of the program first.
    An interrupt from the keyboard is no part of the world modelled, so
    the branch that handles it is not taken. *)
Definition main (argv : list string) : World -> ending unit * World :=
  fun w =>
    if (List.length argv <? 4)%nat then
      match (print "Usage: python game.py dice1 dice2 dice3 [dice4 ...]" ;;;
             print "Example: python game.py 1,2,3,4,5,6 1,1,1,6,6,6 2,2,2,5,5,5") w with
      | (_, w') => (Exited 1, w')
      end
    else
      let attempt : ending unit * World :=
        match parse_dice_input (tl argv) w with
        | (Exited code, w1) => (Exited code, w1)
        | (Uncaught e, w1) => (Uncaught e, w1)
        | (Returned dice_values, w1) =>
            match GameControllerM.init dice_values with
            | Raise e => (Uncaught e, w1)
            | Ok game =>
                match GameControllerM.start_game game w1 with
                | (Ok _, w2) => (Returned tt, w2)
                | (Raise e, w2) => (Uncaught e, w2)
                end
            end
        end in
      match attempt with
      | (Uncaught (ValueError msg), w1) =>
          match print ("Error: " ++ exn_str (ValueError msg)) w1 with
          | (_, w2) => (Exited 1, w2)
          end
      | other => other
      end.

(* ================================================================== *)
(** * Notions of the specification *)
(* ================================================================== *)

(** The characters of upper-case and of lower-case hexadecimal text. *)
Definition is_upper_hex_char (c : ascii) : bool :=
  let n := nat_of_ascii c in
  ((48 <=? n) && (n <=? 57) || (65 <=? n) && (n <=? 70))%nat.

Definition is_lower_hex_char (c : ascii) : bool :=
  let n := nat_of_ascii c in
  ((48 <=? n) && (n <=? 57) || (97 <=? n) && (n <=? 102))%nat.

Definition is_upper_hex (s : string) : bool := Py.all_chars is_upper_hex_char s.
Definition is_lower_hex (s : string) : bool := Py.all_chars is_lower_hex_char s.

(** A line typed by the player contributes the value [c] when, stripped,
    it passes [isdigit] and [int] reads it as [c]. *)
Definition contributes (line : string) (c : Z) : Prop :=
  Py.isdigit (Py.strip line) = true /\ Py.int (Py.strip line) = Ok c.

(** The number of dice of a pool equal to [d]. *)
Definition occurrences (d : Die) (dice : list Die) : nat :=
  List.length (filter (fun x => DieM.eq x (ODie d)) dice).

(** The number of pairs [(x, y)], [x] from the first list and [y] from the
    second, that satisfy [p]; the shape of the count in
    [TableGenerator.wins]. *)
Definition pairs_where (p : Z -> Z -> bool) (xs ys : list Z) : Z :=
  fold_left Z.add
    (flat_map (fun x => flat_map (fun y => if p x y then [1] else []) ys) xs) 0.

Definition indicator (b : bool) : Z := if b then 1 else 0.

(** The pairs of equal faces, counted the way [TableGenerator.wins] counts
    the pairs won. The program has no such count; the specification names
    it to state that no pair is lost. *)
Definition ties (die1 die2 : Die) : Z :=
  fold_left Z.add
    (flat_map (fun x => flat_map (fun y => if x =? y then [1] else [])
                          (DieM.iter die2)) (DieM.iter die1)) 0.

(** A row of the table as it is printed. *)
Definition table_line (cells : list string) : string :=
  (Py.join tab cells ++ newline)%string.

(** The exact quotients the specification speaks of; the program rounds
    the first to a double and prints it with two decimals. *)
Definition win_probability (die1 die2 : Die) : Q :=
  (inject_Z (TableGenerator.wins die1 die2)
   / inject_Z (TableGenerator.total die1 die2))%Q.

Definition tie_mass (die1 die2 : Die) : Q :=
  (inject_Z (ties die1 die2) / inject_Z (TableGenerator.total die1 die2))%Q.

(** [v] on four bytes, the most significant first, and a tape that
    delivers the bytes [bs] from position [start] on. *)
Definition four_bytes (v : Z) : list byte :=
  map Py.byte_of_Z [v / 2 ^ 24; v / 2 ^ 16; v / 2 ^ 8; v].

Definition tape_with (bs : list byte) (start : nat) (i : nat) : byte :=
  nth (i - start) bs x00.

(** The world after some text was written and nothing else happened. *)
Definition wrote (w : World) (out : list string) : World :=
  mkWorld (tape w) (cursor w) (stdin w) (stdout w ++ out).

(** The world after [n] bytes of entropy and the lines before [rest] were
    consumed and [out] was written. *)
Definition advanced (w : World) (n : nat) (rest : list string)
    (out : list string) : World :=
  mkWorld (tape w) (cursor w + n) rest (stdout w ++ out).

(** A line that [_make_throw] and [_player_select_die] answer with the
    request to try again, for a bound [n]: it is no digit string, or it
    reads as a number that is not below [n]. *)
Definition rejected (n : Z) (line : string) : Prop :=
  Py.isdigit (Py.strip line) = false
  \/ exists k, Py.int (Py.strip line) = Ok k /\ n <= k.

(** A line that [_determine_first_player] answers with the request to try
    again. *)
Definition not_a_guess (line : string) : Prop :=
  Py.strip line <> "0" /\ Py.strip line <> "1".

Definition try_again : string := "Invalid selection. Please try again." ++ newline.
Definition guess_again : string := "Invalid choice. Please enter 0 or 1." ++ newline.

(** What is printed for the lines turned down: the prompt and the request,
    once per line. *)
Definition reprompts (prompt request : string) (bad : list string) : list string :=
  flat_map (fun _ => [prompt; request]) bad.

(** [xs] is [ys] with some elements taken out, the others in their order. *)
Inductive subsequence {A : Type} : list A -> list A -> Prop :=
| subsequence_nil : subsequence [] []
| subsequence_skip (y : A) (xs ys : list A) :
    subsequence xs ys -> subsequence xs (y :: ys)
| subsequence_keep (x : A) (xs ys : list A) :
    subsequence xs ys -> subsequence (x :: xs) (x :: ys).

(** The state after selecting the dice of [ds] one after the other. *)
Fixpoint select_all (st : GameState) (ds : list Die) : result GameState :=
  match ds with
  | [] => Ok st
  | d :: ds' =>
      match GameStateM.select_die st d with
      | Raise e => Raise e
      | Ok st' => select_all st' ds'
      end
  end.

(** The bodies of the loops of [_determine_first_player] and of
    [_player_select_die], with what they close over. *)
Definition guess_body (computer_num : Z) (key : list byte) (line : string)
  : M (option bool) :=
  let choice := Py.strip line in
  if negb ((choice =? "0")%string || (choice =? "1")%string) then
    print "Invalid choice. Please enter 0 or 1." ;;; ret None
  else
    player_guess <- lift (Py.int choice) ;;
    print (GameControllerM.reveal computer_num key) ;;;
    ret (Some (player_guess =? computer_num)).

Definition select_body (self : GameController) (line : string)
  : M (option (Die * GameController)) :=
  let available := available_dice (state self) in
  let choice := Py.strip line in
  if negb (Py.isdigit choice) then
    print "Invalid selection. Please try again." ;;; ret None
  else
    n <- lift (Py.int choice) ;;
    if n >=? Z.of_nat (List.length available) then
      print "Invalid selection. Please try again." ;;; ret None
    else
      selected_die <- lift (Py.getitem available n) ;;
      st <- lift (GameStateM.select_die (state self) selected_die) ;;
      ret (Some (selected_die, mkGameController st)).

(** The dice offered to the player, as they are listed. *)
Definition offer (available : list Die) : list string :=
  map (fun id => ((Py.str (fst id) ++ " - " ++ DieM.repr (snd id)) ++ newline)%string)
      (enumerate available).

(** The state of a game with the pool [pool]. *)
Definition with_pool (st : GameState) (pool : list Die) : GameState :=
  mkGameState (original_dice st) pool (player_die st) (computer_die st).

(** From [w] to [w'], [n] bytes of entropy were read. *)
Definition consumed (n : nat) (w w' : World) : Prop :=
  tape w' = tape w /\ cursor w' = (cursor w + n)%nat.

(** The last line of a game, for the two scores. *)
Definition verdict (player_score computer_score : Z) : string :=
  if player_score >? computer_score then "Congratulations, you win!"
  else if player_score <? computer_score then "Sorry, the computer wins."
  else "It's a tie!".

(** The command-line argument that spells a die. *)
Definition spell (vs : list Z) : string := Py.join "," (map Py.str vs).

(** The line [parse_dice_input] prints for an argument it cannot read. *)
Definition parse_error (arg msg : string) : string :=
  (("Error parsing dice values '" ++ arg ++ "': " ++ msg) ++ newline)%string.

Definition usage : list string :=
  [("Usage: python game.py dice1 dice2 dice3 [dice4 ...]" ++ newline)%string;
   ("Example: python game.py 1,2,3,4,5,6 1,1,1,6,6,6 2,2,2,5,5,5" ++ newline)%string].

(** The message of [int] for a piece it cannot read. *)
Definition invalid_piece (piece : string) : string :=
  "invalid literal for int() with base 10: " ++ Text.truncate 200 (Text.repr piece).

(** The exceptions a game can end with: the end of the input, and what
    [int] raises for a line that passed [isdigit]. *)
Definition input_failure (e : exn) : Prop :=
  e = EOFError
  \/ exists s, Py.isdigit s = true /\ Py.int s = Raise e.

(* ================================================================== *)
(** * A sample session, used to exercise the theorems *)
(* ================================================================== *)

Definition sample_tape (i : nat) : byte := Py.byte_of_Z (Z.of_nat (i * 37 + 11)).

Definition sample_world : World :=
  mkWorld sample_tape 0 ["x"; " 1 "; "7"; "0"; "3"; "5"] [].

Definition die_a : Die := mkDie [2; 2; 4; 4; 9; 9].
Definition die_b : Die := mkDie [1; 1; 6; 6; 8; 8].
Definition die_c : Die := mkDie [3; 3; 5; 5; 7; 7].

(* ================================================================== *)
(** * Known answers *)
(* ================================================================== *)

Section KnownAnswers.

Example sha256_constants :
  hd 0 SHA256.K = 0x428a2f98 /\ last SHA256.K 0 = 0xc67178f2
  /\ hd 0 SHA256.H0 = 0x6a09e667 /\ last SHA256.H0 0 = 0x5be0cd19.
Proof. repeat split. Qed.

Example sha256_abc :
  Py.hex (SHA256.digest (Py.encode "abc"))
  = "ba7816bf8f01cfea414140de5dae2223b00361a396177a9cb410ff61f20015ad".
Proof. vm_compute. reflexivity. Qed.

Example hmac_sha256_jefe :
  HMAC.hexdigest (Py.encode "Jefe") (Py.encode "what do ya want for nothing?")
  = "5bdcc146bf60754e6a042426089575c75a003f089d2739839dec58b964ec3843".
Proof. vm_compute. reflexivity. Qed.

(** Five ninths print as 0.56; an eighth is a tie between 0.12 and 0.13
    and goes to the even one; the double nearest to a two-hundredth lies
    above it and prints as 0.01. *)
Example division_and_format :
  TableGenerator._calculate_probability die_a die_b = Ok "0.56"
  /\ TableGenerator._calculate_probability (mkDie [2]) (mkDie [1; 3; 3; 3; 3; 3; 3; 3])
     = Ok "0.12"
  /\ match Float.true_div 1 200 with
     | Ok x => Float.format_2f x = "0.01"
     | Raise _ => False
     end.
Proof. vm_compute. repeat split. Qed.

Example str_examples :
  Py.str 0 = "0" /\ Py.str 1024 = "1024" /\ Py.str (-45) = "-45"
  /\ DieM.repr die_a = "Die([2, 2, 4, 4, 9, 9])".
Proof. vm_compute. repeat split. Qed.

(** A superscript two passes [isdigit] and is refused by [int]. *)
Example isdigit_is_wider_than_int :
  let s := String (ascii_of_nat 178) EmptyString in
  Py.isdigit s = true /\ Py.int s = Raise (Py.invalid_literal s).
Proof. vm_compute. repeat split. Qed.

End KnownAnswers.

(* ================================================================== *)
(** * The uniform draw *)
(* ================================================================== *)

Section UniformDraw.

Import CryptoProvider.

Lemma generate_uniform_random_ok (max_value : Z) (w : World) :
  0 <= max_value ->
  generate_uniform_random max_value w =
    (Ok (Py.from_bytes_big (map (tape w) (seq (cursor w) 4)) mod (max_value + 1)),
     mkWorld (tape w) (cursor w + 4) (stdin w) (stdout w)).
Proof.
  intros Hmax. unfold generate_uniform_random.
  destruct (Z.ltb_spec max_value 0) as [Hneg | _]; [lia |].
  unfold bind, urandom, lift, Py.pymod.
  destruct (Z.eqb_spec (max_value + 1) 0) as [Hz | _]; [lia | reflexivity].
Qed.

Lemma generate_uniform_random_negative (max_value : Z) (w : World) :
  max_value < 0 ->
  generate_uniform_random max_value w =
    (Raise (ValueError "max_value must be non-negative"), w).
Proof.
  intros Hneg. unfold generate_uniform_random.
  destruct (Z.ltb_spec max_value 0) as [_ | Hge]; [reflexivity | lia].
Qed.

(** C3. For every [max_value >= 0] the draw returns an integer of the
    closed range [0, max_value]; for every negative [max_value] it raises
    the [ValueError] on the range (the InvalidRange condition) without
    touching the world; and it raises in the negative case only. *)
Theorem uniform_draw_contract (max_value : Z) (w : World) :
  (0 <= max_value ->
     exists n w', generate_uniform_random max_value w = (Ok n, w')
                  /\ 0 <= n <= max_value)
  /\ (max_value < 0 ->
        generate_uniform_random max_value w =
          (Raise (ValueError "max_value must be non-negative"), w))
  /\ (forall e w', generate_uniform_random max_value w = (Raise e, w') ->
        max_value < 0).
Proof.
  split; [| split].
  - intros Hmax. eexists; eexists. split.
    + apply generate_uniform_random_ok; assumption.
    + pose proof (Z.mod_pos_bound
                    (Py.from_bytes_big (map (tape w) (seq (cursor w) 4)))
                    (max_value + 1)) as Hb.
      lia.
  - apply generate_uniform_random_negative.
  - intros e w' Hraise.
    destruct (Z.lt_ge_cases max_value 0) as [Hneg | Hge]; [assumption |].
    rewrite generate_uniform_random_ok in Hraise by assumption.
    discriminate Hraise.
Qed.

Lemma uniform_draw_contract_witness :
  (exists n w', generate_uniform_random 5 sample_world = (Ok n, w')
                /\ 0 <= n <= 5)
  /\ generate_uniform_random (-1) sample_world =
       (Raise (ValueError "max_value must be non-negative"), sample_world).
Proof.
  split.
  - apply (proj1 (uniform_draw_contract 5 sample_world)). lia.
  - apply (proj1 (proj2 (uniform_draw_contract (-1) sample_world))). lia.
Defined.

End UniformDraw.

(* ================================================================== *)
(** * The commitment *)
(* ================================================================== *)

Section Commitment.

Import FairNumberGenerator.

(** The key is read first, the number second. *)
Lemma generate_fair_number_ok (max_value : Z) (w : World) :
  0 <= max_value ->
  let key := map (tape w) (seq (cursor w) 16) in
  let number :=
    Py.from_bytes_big (map (tape w) (seq (cursor w + 16) 4)) mod (max_value + 1) in
  generate_fair_number max_value w =
    (Ok (number, key, HMAC.hexdigest key (Py.encode (Py.str number))),
     mkWorld (tape w) (cursor w + 16 + 4) (stdin w) (stdout w)).
Proof.
  intros Hmax key number. unfold generate_fair_number, bind at 1.
  cbn [urandom]. unfold bind.
  rewrite generate_uniform_random_ok by assumption.
  reflexivity.
Qed.

(** C1. For every non-negative [max_value] the generator returns a triple
    [(number, key, digest)], and HMAC-SHA256 recomputed over the decimal
    text of [number] under [key] gives exactly [digest]. *)
Theorem commitment_soundness (max_value : Z) (w : World) :
  0 <= max_value ->
  exists number key digest w',
    generate_fair_number max_value w = (Ok (number, key, digest), w')
    /\ HMAC.hexdigest key (Py.encode (Py.str number)) = digest.
Proof.
  intros Hmax. do 4 eexists. split.
  - apply generate_fair_number_ok; assumption.
  - reflexivity.
Qed.

Lemma commitment_soundness_witness :
  exists number key digest w',
    generate_fair_number 1 sample_world = (Ok (number, key, digest), w')
    /\ HMAC.hexdigest key (Py.encode (Py.str number)) = digest.
Proof. apply (commitment_soundness 1 sample_world). lia. Defined.

End Commitment.

(* ================================================================== *)
(** * The text of digests and keys *)
(* ================================================================== *)

Section WireFormat.

Import FairNumberGenerator.

Lemma all_chars_app (p : ascii -> bool) (s t : string) :
  Py.all_chars p (s ++ t) = Py.all_chars p s && Py.all_chars p t.
Proof.
  induction s as [| c s IH]; cbn [String.append Py.all_chars].
  - reflexivity.
  - rewrite IH. apply andb_assoc.
Qed.

Lemma upper_app (s t : string) :
  Py.upper (s ++ t) = (Py.upper s ++ Py.upper t)%string.
Proof.
  induction s as [| c s IH]; cbn [String.append Py.upper].
  - reflexivity.
  - rewrite IH. reflexivity.
Qed.

Lemma string_length_app (s t : string) :
  String.length (s ++ t) = (String.length s + String.length t)%nat.
Proof.
  induction s as [| c s IH]; cbn [String.append String.length].
  - reflexivity.
  - rewrite IH. reflexivity.
Qed.

Lemma hex_of_byte_lower (b : byte) : is_lower_hex (Py.hex_of_byte b) = true.
Proof. destruct b; reflexivity. Qed.

Lemma hex_of_byte_upper (b : byte) :
  is_upper_hex (Py.upper (Py.hex_of_byte b)) = true.
Proof. destruct b; reflexivity. Qed.

Lemma hex_lower (bs : list byte) : is_lower_hex (Py.hex bs) = true.
Proof.
  unfold is_lower_hex.
  induction bs as [| b bs IH]; cbn [Py.hex Py.all_chars].
  - reflexivity.
  - rewrite all_chars_app, IH. rewrite andb_true_r. apply hex_of_byte_lower.
Qed.

Lemma hex_upper (bs : list byte) : is_upper_hex (Py.upper (Py.hex bs)) = true.
Proof.
  unfold is_upper_hex.
  induction bs as [| b bs IH]; cbn [Py.hex Py.upper Py.all_chars].
  - reflexivity.
  - rewrite upper_app, all_chars_app, IH. rewrite andb_true_r.
    apply hex_of_byte_upper.
Qed.

Lemma hex_length (bs : list byte) :
  String.length (Py.hex bs) = (2 * List.length bs)%nat.
Proof.
  induction bs as [| b bs IH]; cbn [Py.hex List.length].
  - reflexivity.
  - rewrite string_length_app, IH. cbn [Py.hex_of_byte String.length]. lia.
Qed.

Lemma upper_length (s : string) : String.length (Py.upper s) = String.length s.
Proof.
  induction s as [| c s IH]; cbn [Py.upper String.length]; congruence.
Qed.

Lemma compress_length (h block : list Z) :
  List.length h = 8%nat -> List.length (SHA256.compress h block) = 8%nat.
Proof.
  intros Hh. unfold SHA256.compress.
  rewrite length_map, length_combine, Hh. reflexivity.
Qed.

Lemma blocks_length (n : nat) :
  forall h bs, List.length h = 8%nat ->
               List.length (SHA256.blocks n h bs) = 8%nat.
Proof.
  induction n as [| n IH]; intros h bs Hh; cbn [SHA256.blocks].
  - assumption.
  - apply IH, compress_length, Hh.
Qed.

Lemma flat_map_be_bytes_length (h : list Z) :
  List.length (flat_map (SHA256.be_bytes 4) h) = (4 * List.length h)%nat.
Proof.
  induction h as [| x h IH]; cbn [flat_map List.length].
  - reflexivity.
  - rewrite List.length_app, IH. unfold SHA256.be_bytes.
    rewrite length_map, length_seq. lia.
Qed.

(** A SHA-256 digest has 256 bits. *)
Lemma sha256_digest_length (msg : list byte) :
  List.length (SHA256.digest msg) = 32%nat.
Proof.
  unfold SHA256.digest.
  rewrite length_map, flat_map_be_bytes_length, blocks_length; reflexivity.
Qed.

Lemma hmac_digest_length (key msg : list byte) :
  List.length (HMAC.digest key msg) = 32%nat.
Proof. unfold HMAC.digest. apply sha256_digest_length. Qed.

(** What the first-chooser protocol prints when the first line typed is a
    valid guess: the digest, then the prompts, then the number and the key;
    the guess is right when it equals the number committed to. *)
Lemma first_player_disclosure (w : World) (guess : string) (rest : list string) :
  stdin w = guess :: rest ->
  Py.strip guess = "0" \/ Py.strip guess = "1" ->
  exists number key digest w1 g,
    generate_fair_number 1 w = (Ok (number, key, digest), w1)
    /\ Py.int (Py.strip guess) = Ok g
    /\ GameControllerM._determine_first_player w
       = (Ok (g =? number),
          mkWorld (tape w) (cursor w + 16 + 4) rest
            (stdout w
             ++ [(("I selected a random number (HMAC=" ++ digest ++ ").")
                  ++ newline)%string;
                 ("Guess the number: 0 or 1" ++ newline)%string;
                 "Your guess: ";
                 (GameControllerM.reveal number key ++ newline)%string])).
Proof.
  intros Hin Hguess.
  pose proof (generate_fair_number_ok 1 w ltac:(lia)) as Hgen.
  cbv zeta in Hgen.
  set (number := _ mod _) in Hgen. set (key := map _ (seq (cursor w) 16)) in Hgen.
  exists number, key. do 2 eexists.
  exists (if (Py.strip guess =? "0")%string then 0 else 1).
  split; [exact Hgen |]. split.
  { destruct Hguess as [-> | ->]; reflexivity. }
  unfold GameControllerM._determine_first_player.
  unfold bind at 1. rewrite Hgen.
  unfold bind at 1. unfold print at 1, write at 1.
  unfold bind at 1. unfold print at 1, write at 1.
  unfold while_true_input. cbn [tape cursor stdin stdout]. rewrite Hin.
  cbn [input_loop]. unfold bind at 1. unfold write at 1.
  unfold bind at 1. cbn [tape cursor stdin stdout].
  clearbody number key.
  generalize (HMAC.hexdigest key (Py.encode (Py.str number))). intros digest.
  generalize (GameControllerM.reveal number key). intros revealed.
  destruct Hguess as [-> | ->];
    [change (Py.int "0") with (@Ok Z 0) | change (Py.int "1") with (@Ok Z 1)];
    unfold bind, lift, print, write, ret;
    cbn [negb orb String.eqb Ascii.eqb Bool.eqb tape cursor stdin stdout];
    rewrite <- !app_assoc; reflexivity.
Qed.

(** C7, as the program has it. The digest disclosed at commit time is the
    text returned by [hexdigest]: 64 hexadecimal digits in lower case,
    encoding the 256 bits of the keyed hash. The key disclosed at reveal
    time is printed through [upper]: 32 hexadecimal digits in upper case,
    encoding its 16 bytes. *)
Theorem wire_format (max_value : Z) (w : World) :
  0 <= max_value ->
  exists number key digest w',
    generate_fair_number max_value w = (Ok (number, key, digest), w')
    /\ digest = Py.hex (HMAC.digest key (Py.encode (Py.str number)))
    /\ String.length digest = 64%nat
    /\ is_lower_hex digest = true
    /\ List.length key = 16%nat
    /\ String.length (Py.upper (Py.hex key)) = 32%nat
    /\ is_upper_hex (Py.upper (Py.hex key)) = true
    /\ GameControllerM.reveal number key =
         ("My number is " ++ Py.str number
          ++ " (KEY=" ++ Py.upper (Py.hex key) ++ ").")%string.
Proof.
  intros Hmax. do 4 eexists. split.
  - apply generate_fair_number_ok; assumption.
  - split; [reflexivity |].
    split; [unfold HMAC.hexdigest;
            rewrite hex_length, hmac_digest_length; reflexivity |].
    split; [apply hex_lower |].
    split; [rewrite length_map, length_seq; reflexivity |].
    split; [rewrite upper_length, hex_length, length_map, length_seq;
            reflexivity |].
    split; [apply hex_upper | reflexivity].
Qed.

Lemma wire_format_witness :
  exists number key digest w',
    generate_fair_number 1 sample_world = (Ok (number, key, digest), w')
    /\ digest = Py.hex (HMAC.digest key (Py.encode (Py.str number)))
    /\ String.length digest = 64%nat
    /\ is_lower_hex digest = true
    /\ List.length key = 16%nat
    /\ String.length (Py.upper (Py.hex key)) = 32%nat
    /\ is_upper_hex (Py.upper (Py.hex key)) = true
    /\ GameControllerM.reveal number key =
         ("My number is " ++ Py.str number
          ++ " (KEY=" ++ Py.upper (Py.hex key) ++ ").")%string.
Proof. apply (wire_format 1 sample_world). lia. Defined.

(** C7 as stated fails: the digest of the sample session, committed by
    [_determine_first_player], has letters in lower case. *)
Lemma wire_format_digest_is_not_upper_case :
  exists key w',
    generate_fair_number 1 sample_world =
      (Ok (0, key,
           "571be9aed366b122d2687a2ab6d31619ee8316ddd19faef75dc406d1f60a35cf"),
       w')
    /\ is_upper_hex
         "571be9aed366b122d2687a2ab6d31619ee8316ddd19faef75dc406d1f60a35cf"
       = false.
Proof.
  do 2 eexists. split.
  - vm_compute. reflexivity.
  - vm_compute. reflexivity.
Qed.

End WireFormat.

(* ================================================================== *)
(** * Dice and their equality *)
(* ================================================================== *)

Section DieEquality.

Lemma list_eq_spec (xs : list Z) :
  forall ys, DieM.list_eq xs ys = true <-> xs = ys.
Proof.
  induction xs as [| x xs IH]; intros [| y ys]; cbn [DieM.list_eq];
    try (split; [discriminate | discriminate]).
  - split; reflexivity.
  - rewrite andb_true_iff, Z.eqb_eq, IH. split.
    + intros [-> ->]. reflexivity.
    + intros [= -> ->]. split; reflexivity.
Qed.

Lemma die_eq_spec (a b : Die) : DieM.eq a (ODie b) = true <-> a = b.
Proof.
  destruct a as [va], b as [vb]. cbn [DieM.eq values].
  rewrite list_eq_spec. split; [intros -> | intros [= ->]]; reflexivity.
Qed.

Lemma die_eq_refl (a : Die) : DieM.eq a (ODie a) = true.
Proof. apply die_eq_spec. reflexivity. Qed.

(** C8. Comparing a die with a value that is not a die answers [false]
    ([eq] returns a boolean on every value, it cannot raise); comparing two
    dice answers [true] exactly when their face sequences are the same
    sequence: the same length and the same face at every position. *)
Theorem die_equality_total (d : Die) :
  (forall other, DieM.isinstance_Die other = false -> DieM.eq d other = false)
  /\ (forall d',
        DieM.eq d (ODie d') = true <->
        List.length (values d) = List.length (values d')
        /\ forall i, nth_error (values d) i = nth_error (values d') i).
Proof.
  split.
  - intros other Hother. destruct other; cbn in Hother |- *;
      [discriminate | reflexivity ..].
  - intros d'. cbn [DieM.eq]. rewrite list_eq_spec. split.
    + intros ->. split; reflexivity.
    + intros [_ Hnth]. apply nth_error_ext. exact Hnth.
Qed.

Lemma die_equality_total_witness :
  DieM.eq die_a (OList [2; 2; 4; 4; 9; 9]) = false
  /\ DieM.eq die_a (ODie (mkDie [2; 2; 4; 4; 9; 9])) = true.
Proof.
  split.
  - apply (proj1 (die_equality_total die_a)). reflexivity.
  - apply (proj2 (die_equality_total die_a)). split; [reflexivity |].
    intros i. reflexivity.
Defined.

End DieEquality.

(* ================================================================== *)
(** * The pool of dice *)
(* ================================================================== *)

Section Pool.

Import GameStateM.

Lemma contains_spec (d : Die) (dice : list Die) :
  contains d dice = true <-> In d dice.
Proof.
  unfold contains. rewrite existsb_exists. split.
  - intros [x [Hin Heq]]. apply die_eq_spec in Heq. subst x. exact Hin.
  - intros Hin. exists d. split; [exact Hin | apply die_eq_refl].
Qed.

Lemma contains_false (d : Die) (dice : list Die) :
  contains d dice = false <-> ~ In d dice.
Proof.
  rewrite <- contains_spec. destruct (contains d dice); split;
    congruence.
Qed.

(** [remove] takes out the first element equal to [d], and nothing else. *)
Lemma list_remove_spec (d : Die) (dice : list Die) :
  In d dice ->
  exists before after,
    dice = (before ++ d :: after)%list
    /\ ~ In d before
    /\ list_remove d dice = Ok (before ++ after)%list.
Proof.
  induction dice as [| x dice IH]; intros Hin; [destruct Hin |].
  cbn [list_remove]. destruct (DieM.eq x (ODie d)) eqn:Heq.
  - apply die_eq_spec in Heq. subst x.
    exists [], dice. repeat split. intros [].
  - assert (Hneq : x <> d).
    { intros ->. rewrite die_eq_refl in Heq. discriminate. }
    destruct Hin as [-> | Hin]; [congruence |].
    destruct (IH Hin) as (before & after & -> & Hnot & ->).
    exists (x :: before), after. repeat split.
    intros [-> | Hb]; [congruence | exact (Hnot Hb)].
Qed.

Lemma occurrences_app (d : Die) (xs ys : list Die) :
  occurrences d (xs ++ ys) = (occurrences d xs + occurrences d ys)%nat.
Proof. unfold occurrences. rewrite filter_app. apply List.length_app. Qed.

Lemma occurrences_cons_same (d : Die) (xs : list Die) :
  occurrences d (d :: xs) = S (occurrences d xs).
Proof. unfold occurrences. cbn [filter]. rewrite die_eq_refl. reflexivity. Qed.

Lemma occurrences_zero (d : Die) (xs : list Die) :
  occurrences d xs = 0%nat <-> ~ In d xs.
Proof.
  unfold occurrences. induction xs as [| x xs IH]; cbn [filter In].
  - split; [intros _ [] | reflexivity].
  - destruct (DieM.eq x (ODie d)) eqn:Heq.
    + apply die_eq_spec in Heq. subst x. cbn [List.length].
      split; [discriminate | intros H; exfalso; apply H; left; reflexivity].
    + assert (Hneq : x <> d).
      { intros ->. rewrite die_eq_refl in Heq. discriminate. }
      rewrite IH. tauto.
Qed.

(** What [select_die] does to the state, in one statement. *)
Lemma select_die_cases (st : GameState) (d : Die) :
  (~ In d (available_dice st) /\ select_die st d = Ok st)
  \/ (exists before after,
        available_dice st = (before ++ d :: after)%list
        /\ ~ In d before
        /\ select_die st d =
             Ok (mkGameState (original_dice st) (before ++ after)
                   (player_die st) (computer_die st))).
Proof.
  unfold select_die. destruct (contains d (available_dice st)) eqn:Hc.
  - right. apply contains_spec in Hc.
    destruct (list_remove_spec d _ Hc) as (before & after & Hsplit & Hnot & Hrm).
    exists before, after. rewrite Hrm. repeat split; assumption.
  - left. apply contains_false in Hc. split; [exact Hc | reflexivity].
Qed.

(** C4, as the program has it. [select_die] never raises; it leaves the
    state alone when the die is not in the pool, and otherwise takes one
    occurrence of it out, so that the die is absent afterwards exactly when
    the pool held it at most once. [reset] makes the pool the original
    sequence of dice again, the same dice in the same order, and clears
    both selections. *)
Theorem select_die_and_reset (st : GameState) (d : Die) :
  (exists st',
     select_die st d = Ok st'
     /\ (contains d (available_dice st) = false -> st' = st)
     /\ occurrences d (available_dice st')
        = Nat.pred (occurrences d (available_dice st))
     /\ (contains d (available_dice st') = false
         <-> (occurrences d (available_dice st) <= 1)%nat)
     /\ original_dice st' = original_dice st
     /\ player_die st' = player_die st
     /\ computer_die st' = computer_die st)
  /\ available_dice (reset st) = original_dice st
  /\ original_dice (reset st) = original_dice st
  /\ player_die (reset st) = None
  /\ computer_die (reset st) = None.
Proof.
  split; [| repeat split].
  destruct (select_die_cases st d)
    as [[Hnot Hsel] | (before & after & Hsplit & Hnot & Hsel)].
  - exists st. pose proof (proj2 (occurrences_zero d _) Hnot) as Hz.
    split; [exact Hsel |]. split; [reflexivity |].
    split; [rewrite Hz; reflexivity |].
    split; [| repeat split].
    rewrite contains_false, Hz. split; [lia | intros _; exact Hnot].
  - eexists. split; [exact Hsel |]. cbn [available_dice original_dice
                                          player_die computer_die].
    pose proof (proj2 (occurrences_zero d _) Hnot) as Hz.
    split.
    { intros Hc. apply contains_false in Hc. exfalso. apply Hc.
      rewrite Hsplit. apply in_or_app. right. left. reflexivity. }
    rewrite Hsplit, !occurrences_app, occurrences_cons_same, Hz.
    split; [reflexivity |].
    split; [| repeat split].
    rewrite contains_false, <- occurrences_zero, occurrences_app, Hz.
    cbn [Nat.add]. lia.
Qed.

Lemma select_die_and_reset_witness :
  (exists st',
     select_die (init [die_a; die_b; die_c]) die_b = Ok st'
     /\ occurrences die_b (available_dice st') = 0%nat
     /\ contains die_b (available_dice st') = false)
  /\ available_dice (reset (init [die_a; die_b; die_c])) = [die_a; die_b; die_c].
Proof.
  destruct (select_die_and_reset (init [die_a; die_b; die_c]) die_b)
    as [(st' & Hsel & _ & Hocc & Habsent & _) (Hreset & _)].
  split; [| exact Hreset].
  exists st'. split; [exact Hsel |]. split; [exact Hocc |].
  apply (proj2 Habsent). vm_compute. lia.
Defined.

(** C4 as stated fails: a pool may hold two equal dice, and selecting one
    leaves the other in the pool. *)
Lemma select_die_leaves_the_duplicate :
  select_die (init [die_a; die_a; die_b]) die_a =
    Ok (mkGameState [die_a; die_a; die_b] [die_a; die_b] None None)
  /\ contains die_a [die_a; die_b] = true.
Proof. split; reflexivity. Qed.

(** C10. When the pool holds dice equal to [d], [select_die] takes out the
    first of them and nothing else: the pool is one die shorter, and the
    dice before and after the removed one, later duplicates of [d]
    included, keep their places relative to each other. *)
Theorem select_die_single_occurrence (st : GameState) (d : Die) :
  contains d (available_dice st) = true ->
  exists before after st',
    select_die st d = Ok st'
    /\ available_dice st = (before ++ d :: after)%list
    /\ ~ In d before
    /\ available_dice st' = (before ++ after)%list
    /\ S (List.length (available_dice st')) = List.length (available_dice st)
    /\ occurrences d (available_dice st') = occurrences d after.
Proof.
  intros Hc. apply contains_spec in Hc.
  destruct (select_die_cases st d)
    as [[Hnot _] | (before & after & Hsplit & Hnot & Hsel)]; [contradiction |].
  exists before, after. eexists. split; [exact Hsel |].
  cbn [available_dice]. rewrite Hsplit.
  split; [reflexivity |]. split; [exact Hnot |]. split; [reflexivity |].
  split.
  - rewrite !List.length_app. cbn [List.length]. lia.
  - rewrite occurrences_app, (proj2 (occurrences_zero d _) Hnot). reflexivity.
Qed.

Lemma select_die_single_occurrence_witness :
  exists before after st',
    select_die (init [die_b; die_a; die_c; die_a]) die_a = Ok st'
    /\ [die_b; die_a; die_c; die_a] = (before ++ die_a :: after)%list
    /\ ~ In die_a before
    /\ available_dice st' = (before ++ after)%list
    /\ S (List.length (available_dice st')) = 4%nat
    /\ occurrences die_a (available_dice st') = occurrences die_a after.
Proof.
  apply (select_die_single_occurrence
           (init [die_b; die_a; die_c; die_a]) die_a).
  reflexivity.
Defined.

End Pool.

(* ================================================================== *)
(** * The computer's selection *)
(* ================================================================== *)

Section ComputerSelection.

Import GameStateM GameControllerM.

Lemma getitem_in_range {A} (xs : list A) (i : Z) :
  0 <= i < Z.of_nat (List.length xs) ->
  exists x, Py.getitem xs i = Ok x /\ nth_error xs (Z.to_nat i) = Some x.
Proof.
  intros Hi. unfold Py.getitem.
  destruct (Z.ltb_spec i 0) as [Hneg | _]; [lia |].
  destruct (Z.leb_spec 0 i) as [_ | Hneg]; [| lia].
  destruct (Z.ltb_spec i (Z.of_nat (List.length xs))) as [_ | Hbig]; [| lia].
  cbn [andb].
  destruct (nth_error xs (Z.to_nat i)) as [x |] eqn:Hnth.
  - exists x. split; reflexivity.
  - apply nth_error_None in Hnth. lia.
Qed.

(** C9. Asked to select from an empty pool, the computer raises
    [ValueError] and leaves the world as it was: no entropy is read and no
    die is returned. From a non-empty pool it reads four bytes of entropy,
    returns a die of the pool and takes that die out of the pool, whose
    other dice keep their order. *)
Theorem computer_select_die_contract (self : GameController) (w : World) :
  (available_dice (state self) = [] ->
     _computer_select_die self w =
       (Raise (ValueError "No dice available for selection"), w))
  /\ (available_dice (state self) <> [] ->
        exists d self' before after,
          _computer_select_die self w =
            (Ok (d, self'),
             mkWorld (tape w) (cursor w + 4) (stdin w) (stdout w))
          /\ In d (available_dice (state self))
          /\ available_dice (state self) = (before ++ d :: after)%list
          /\ available_dice (state self') = (before ++ after)%list
          /\ original_dice (state self') = original_dice (state self)).
Proof.
  split.
  - intros Hempty. unfold _computer_select_die. rewrite Hempty. reflexivity.
  - intros Hne. unfold _computer_select_die.
    destruct (available_dice (state self)) as [| d0 rest] eqn:Hav;
      [congruence |].
    set (pool := d0 :: rest) in *.
    assert (Hlen : 0 <= Z.of_nat (List.length pool) - 1)
      by (subst pool; cbn [List.length]; lia).
    unfold bind at 1. rewrite generate_uniform_random_ok by exact Hlen.
    set (choice := _ mod _).
    assert (Hchoice : 0 <= choice < Z.of_nat (List.length pool)).
    { subst choice.
      pose proof (Z.mod_pos_bound
                    (Py.from_bytes_big (map (tape w) (seq (cursor w) 4)))
                    (Z.of_nat (List.length pool) - 1 + 1)) as Hb.
      lia. }
    destruct (getitem_in_range pool choice Hchoice) as (d & Hget & Hnth).
    pose proof (nth_error_In _ _ Hnth) as Hin.
    unfold bind, lift. rewrite Hget.
    destruct (select_die_cases (state self) d)
      as [[Hnot _] | (before & after & Hsplit & _ & Hsel)].
    + exfalso. apply Hnot. rewrite Hav. exact Hin.
    + rewrite Hsel. rewrite Hav in Hsplit.
      exists d. eexists. exists before, after.
      split; [reflexivity |]. cbn [state available_dice original_dice].
      repeat split; assumption.
Qed.

Lemma computer_select_die_contract_witness :
  _computer_select_die (mkGameController (GameStateM.init [])) sample_world =
    (Raise (ValueError "No dice available for selection"), sample_world)
  /\ exists d self' before after,
       _computer_select_die
         (mkGameController (GameStateM.init [die_a; die_b; die_c])) sample_world =
         (Ok (d, self'),
          mkWorld (tape sample_world) (cursor sample_world + 4)
            (stdin sample_world) (stdout sample_world))
       /\ In d [die_a; die_b; die_c]
       /\ [die_a; die_b; die_c] = (before ++ d :: after)%list
       /\ available_dice (state self') = (before ++ after)%list
       /\ original_dice (state self') = [die_a; die_b; die_c].
Proof.
  split.
  - apply (proj1 (computer_select_die_contract
                    (mkGameController (GameStateM.init [])) sample_world)).
    reflexivity.
  - apply (proj2 (computer_select_die_contract
                    (mkGameController (GameStateM.init [die_a; die_b; die_c]))
                    sample_world)).
    discriminate.
Defined.

End ComputerSelection.

(* ================================================================== *)
(** * Decimal text *)
(* ================================================================== *)

Section DecimalText.

Lemma digit_char_code (d : Z) :
  0 <= d < 10 -> nat_of_ascii (Py.digit_char d) = (48 + Z.to_nat d)%nat.
Proof.
  intros Hd. unfold Py.digit_char. apply nat_ascii_embedding. lia.
Qed.

Lemma digit_char_is_digit (d : Z) :
  0 <= d < 10 -> Py.is_ascii_digit (Py.digit_char d) = true.
Proof.
  intros Hd. unfold Py.is_ascii_digit. rewrite digit_char_code by exact Hd.
  apply andb_true_iff. split; apply Nat.leb_le; lia.
Qed.

Lemma digits_aux_all_digits (fuel : nat) :
  forall n acc,
    0 <= n ->
    Py.all_chars Py.is_ascii_digit acc = true ->
    Py.all_chars Py.is_ascii_digit (Py.digits_aux fuel n acc) = true.
Proof.
  induction fuel as [| fuel IH]; intros n acc Hn Hacc; cbn [Py.digits_aux].
  - exact Hacc.
  - assert (Hacc' : Py.all_chars Py.is_ascii_digit
                      (String (Py.digit_char (n mod 10)) acc) = true).
    { cbn [Py.all_chars]. rewrite Hacc, andb_true_r.
      apply digit_char_is_digit. apply Z.mod_pos_bound. lia. }
    destruct (n <? 10); [exact Hacc' |].
    apply IH; [apply Z.div_pos; lia | exact Hacc'].
Qed.

Lemma digits_aux_not_empty (fuel : nat) :
  forall n acc, Py.digits_aux (S fuel) n acc <> EmptyString.
Proof.
  induction fuel as [| fuel IH]; intros n acc.
  - cbn [Py.digits_aux]. destruct (n <? 10); discriminate.
  - change (Py.digits_aux (S (S fuel)) n acc)
      with (let acc' := String (Py.digit_char (n mod 10)) acc in
            if n <? 10 then acc' else Py.digits_aux (S fuel) (n / 10) acc').
    cbv zeta. destruct (n <? 10); [discriminate | apply IH].
Qed.

(** Reading back the digits written in front of [acc] resumes the reading
    of [acc] from the number written. *)
Lemma int_digits_digits_aux (fuel : nat) :
  forall n acc,
    0 <= n < 2 ^ Z.of_nat fuel ->
    Py.int_digits (Py.digits_aux fuel n acc) 0 = Py.int_digits acc n.
Proof.
  induction fuel as [| fuel IH]; intros n acc Hn.
  - cbn [Py.digits_aux]. f_equal. cbn in Hn. lia.
  - cbn [Py.digits_aux].
    assert (Hstep : forall a,
               Py.int_digits (String (Py.digit_char (n mod 10)) acc) a
               = Py.int_digits acc (10 * a + n mod 10)).
    { intros a. cbn [Py.int_digits].
      rewrite digit_char_code by (apply Z.mod_pos_bound; lia).
      f_equal. pose proof (Z.mod_pos_bound n 10). lia. }
    destruct (Z.ltb_spec n 10) as [Hsmall | Hbig].
    + rewrite Hstep. f_equal. rewrite Z.mod_small; lia.
    + rewrite IH.
      * rewrite Hstep. f_equal. pose proof (Z.div_mod n 10). lia.
      * rewrite Nat2Z.inj_succ, Z.pow_succ_r in Hn by lia.
        split; [apply Z.div_pos; lia |].
        apply Z.div_lt_upper_bound; lia.
Qed.

Lemma lstrip_digits (s : string) :
  Py.all_chars Py.is_ascii_digit s = true -> Py.lstrip s = s.
Proof.
  destruct s as [| c s]; [reflexivity |]. cbn [Py.all_chars Py.lstrip].
  intros H. apply andb_true_iff in H. destruct H as [Hc _].
  replace (Py.char_isspace c) with false; [reflexivity |].
  revert Hc. unfold Py.is_ascii_digit, Py.char_isspace.
  generalize (nat_of_ascii c). intros k Hk.
  apply andb_true_iff in Hk. destruct Hk as [H1 H2].
  apply Nat.leb_le in H1. apply Nat.leb_le in H2.
  symmetry. repeat (apply orb_false_iff; split);
    try (apply andb_false_iff);
    try (apply Nat.eqb_neq; lia).
  - right. apply Nat.leb_gt. lia.
  - right. apply Nat.leb_gt. lia.
Qed.

Lemma rstrip_digits (s : string) :
  Py.all_chars Py.is_ascii_digit s = true -> Py.rstrip s = s.
Proof.
  induction s as [| c s IH]; [reflexivity |]. cbn [Py.all_chars Py.rstrip].
  intros H. apply andb_true_iff in H. destruct H as [Hc Hs].
  rewrite (IH Hs). destruct s as [| c' s']; [| reflexivity].
  pose proof (lstrip_digits (String c EmptyString)) as Hl.
  cbn [Py.all_chars Py.lstrip] in Hl. rewrite Hc in Hl.
  specialize (Hl eq_refl). destruct (Py.char_isspace c);
    [discriminate | reflexivity].
Qed.

Lemma ascii_digits_isdigit (s : string) :
  Py.all_chars Py.is_ascii_digit s = true ->
  Py.all_chars Py.char_isdigit s = true.
Proof.
  induction s as [| c s IH]; [reflexivity |]. cbn [Py.all_chars].
  intros H. apply andb_true_iff in H. destruct H as [Hc Hs].
  rewrite (IH Hs), andb_true_r. unfold Py.char_isdigit. rewrite Hc.
  reflexivity.
Qed.

(** The decimal text of a non-negative number is a line that contributes
    that number: every value below the number of faces can be typed. *)
Lemma str_contributes (c : Z) : 0 <= c -> contributes (Py.str c) c.
Proof.
  intros Hc. unfold Py.str.
  destruct (Z.ltb_spec c 0) as [Hneg | _]; [lia |].
  unfold Py.str_nonneg.
  set (fuel := Z.to_nat (Z.log2 c)).
  pose proof (digits_aux_all_digits (S fuel) c EmptyString Hc eq_refl) as Hall.
  pose proof (digits_aux_not_empty fuel c EmptyString) as Hne.
  assert (Hval : Py.int_digits (Py.digits_aux (S fuel) c EmptyString) 0 = c).
  { rewrite int_digits_digits_aux; [reflexivity |].
    split; [exact Hc |]. subst fuel.
    rewrite Nat2Z.inj_succ, Z2Nat.id by apply Z.log2_nonneg.
    destruct (Z.eq_dec c 0) as [-> | Hnz]; [reflexivity |].
    apply Z.log2_spec. lia. }
  set (s := Py.digits_aux (S fuel) c EmptyString) in *.
  unfold contributes, Py.strip.
  rewrite (lstrip_digits s Hall), (rstrip_digits s Hall).
  unfold Py.isdigit, Py.int.
  destruct s as [| ch s']; [congruence |].
  rewrite (ascii_digits_isdigit _ Hall), Hall, Hval.
  split; reflexivity.
Qed.

End DecimalText.

(* ================================================================== *)
(** * Resolving a throw *)
(* ================================================================== *)

Section ThrowResolution.

Import GameControllerM.

(** The player's line is valid: the loop body resolves the throw. *)
Lemma throw_body_resolves (die : Die) (e : Z) (key : list byte)
    (c : Z) (line : string) (w : World) :
  1 <= DieM.len die ->
  contributes line c ->
  c < DieM.len die ->
  exists face out,
    nth_error (values die) (Z.to_nat ((c + e) mod DieM.len die)) = Some face
    /\ throw_body die e key line w
       = (Ok (Some face), mkWorld (tape w) (cursor w) (stdin w) out).
Proof.
  intros Hlen [Hdigit Hint] Hc.
  assert (Hidx : 0 <= (c + e) mod DieM.len die
                 < Z.of_nat (List.length (values die))).
  { unfold DieM.len in *. apply Z.mod_pos_bound. lia. }
  destruct (getitem_in_range (values die) _ Hidx) as (face & Hget & Hnth).
  exists face. eexists. split; [exact Hnth |].
  unfold throw_body, bind, lift, print, write, ret, Py.pymod, DieM.getitem.
  rewrite Hdigit, Hint. cbn [negb].
  destruct (Z.geb_spec c (DieM.len die)) as [Hge | _]; [lia |].
  destruct (Z.eqb_spec (DieM.len die) 0) as [Hz | _]; [lia |].
  rewrite Hget. cbn [tape cursor stdin stdout]. reflexivity.
Qed.

Lemma throw_loop_resolves (die : Die) (e : Z) (key : list byte)
    (c : Z) (line : string) (rest : list string) (w : World) :
  1 <= DieM.len die ->
  stdin w = line :: rest ->
  contributes line c ->
  c < DieM.len die ->
  exists face out,
    nth_error (values die) (Z.to_nat ((c + e) mod DieM.len die)) = Some face
    /\ while_true_input "Your selection: " (throw_body die e key) w
       = (Ok face, mkWorld (tape w) (cursor w) rest out).
Proof.
  intros Hlen Hin Hline Hc.
  unfold while_true_input. rewrite Hin. cbn [input_loop].
  unfold bind at 1. unfold write at 1.
  unfold bind at 1.
  set (w1 := mkWorld _ _ rest _).
  destruct (throw_body_resolves die e key c line w1 Hlen Hline Hc)
    as (face & out & Hnth & Hbody).
  exists face, out. split; [exact Hnth |].
  unfold bind. rewrite Hbody. reflexivity.
Qed.

(** Printing the faces of a die before the throw cannot fail and reads
    nothing. *)
Lemma print_faces_ok (die : Die) (xs : list Z) :
  (forall i, In i xs -> 0 <= i < DieM.len die) ->
  forall w, exists out,
    for_each xs (fun i =>
      face <- lift (DieM.getitem die i) ;;
      print (Py.str i ++ " - " ++ Py.str face)) w
    = (Ok tt, mkWorld (tape w) (cursor w) (stdin w) out).
Proof.
  induction xs as [| i xs IH]; intros Hxs w; cbn [for_each].
  - exists (stdout w). destruct w; reflexivity.
  - destruct (getitem_in_range (values die) i) as (face & Hget & _).
    { apply Hxs. left. reflexivity. }
    unfold bind at 1. unfold bind at 1. unfold lift at 1.
    unfold DieM.getitem at 1. rewrite Hget. unfold print at 1, write at 1.
    match goal with |- context [for_each xs ?f ?w1] =>
      destruct (IH (fun j Hj => Hxs j (or_intror Hj)) w1) as (out & ->)
    end.
    exists out. reflexivity.
Qed.

Lemma range_bounds (n i : Z) : In i (range n) -> 0 <= i < n.
Proof.
  unfold range. rewrite in_map_iff. intros (k & <- & Hk).
  apply in_seq in Hk. lia.
Qed.

(** C2. A throw with a die of [n >= 1] faces, for an engine value [e] and
    a contributed value [c < n], scores the face at index [(c + e) mod n]:
    this holds of the loop that resolves the throw for every [e], and of
    the whole throw, where [e] is the number committed to, drawn from
    [0 .. n-1]. With six faces, [e = 4] and [c = 3] the score is the face
    at position 1; a die with a single face scores that face. *)
Theorem throw_resolution :
  (forall (die : Die) (e : Z) (key : list byte) (c : Z) (line : string)
          (rest : list string) (w : World),
      1 <= DieM.len die ->
      stdin w = line :: rest ->
      contributes line c ->
      c < DieM.len die ->
      exists face,
        nth_error (values die) (Z.to_nat ((c + e) mod DieM.len die)) = Some face
        /\ fst (while_true_input "Your selection: " (throw_body die e key) w)
           = Ok face)
  /\ (forall (context : string) (die : Die) (c : Z) (line : string)
             (rest : list string) (w : World),
        1 <= DieM.len die ->
        stdin w = line :: rest ->
        contributes line c ->
        c < DieM.len die ->
        exists e key digest w1 face,
          FairNumberGenerator.generate_fair_number (DieM.len die - 1) w
            = (Ok (e, key, digest), w1)
          /\ 0 <= e <= DieM.len die - 1
          /\ nth_error (values die) (Z.to_nat ((c + e) mod DieM.len die))
             = Some face
          /\ fst (_make_throw context die w) = Ok face)
  /\ (forall (die : Die) (key : list byte) (rest : list string) (w : World),
        DieM.len die = 6 ->
        stdin w = "3" :: rest ->
        (3 + 4) mod DieM.len die = 1
        /\ exists face,
             nth_error (values die) 1 = Some face
             /\ fst (while_true_input "Your selection: " (throw_body die 4 key) w)
                = Ok face)
  /\ (forall (f e : Z) (key : list byte) (c : Z) (line : string)
             (rest : list string) (w : World),
        stdin w = line :: rest ->
        contributes line c ->
        c < 1 ->
        fst (while_true_input "Your selection: "
               (throw_body (mkDie [f]) e key) w) = Ok f).
Proof.
  split; [| split; [| split]].
  - intros die e key c line rest w Hlen Hin Hline Hc.
    destruct (throw_loop_resolves die e key c line rest w Hlen Hin Hline Hc)
      as (face & out & Hnth & ->).
    exists face. split; [exact Hnth | reflexivity].
  - intros context die c line rest w Hlen Hin Hline Hc.
    assert (Hmax : 0 <= DieM.len die - 1) by lia.
    pose proof (generate_fair_number_ok (DieM.len die - 1) w Hmax) as Hgen.
    cbv zeta in Hgen.
    set (e := _ mod _) in Hgen. set (key := map _ (seq (cursor w) 16)) in Hgen.
    set (w1 := mkWorld _ _ _ _) in Hgen.
    unfold _make_throw. unfold bind at 1. rewrite Hgen.
    unfold bind at 1. unfold print at 1, write at 1.
    unfold bind at 1. unfold print at 1, write at 1.
    unfold bind at 1.
    match goal with |- context [for_each _ _ ?w2] =>
      destruct (print_faces_ok die (range (DieM.len die))
                  (range_bounds (DieM.len die)) w2) as (out & ->)
    end.
    cbn [tape cursor stdin stdout w1].
    set (w3 := mkWorld _ _ _ out).
    destruct (throw_loop_resolves die e key c line rest w3 Hlen Hin Hline Hc)
      as (face & out' & Hnth & ->).
    exists e, key. do 2 eexists. exists face.
    split; [reflexivity |].
    split.
    { subst e.
      pose proof (Z.mod_pos_bound
                    (Py.from_bytes_big (map (tape w) (seq (cursor w + 16) 4)))
                    (DieM.len die - 1 + 1)) as Hb.
      lia. }
    split; [exact Hnth | reflexivity].
  - intros die key rest w Hlen Hin.
    split; [rewrite Hlen; reflexivity |].
    assert (Hline : contributes "3" 3) by (split; reflexivity).
    destruct (throw_loop_resolves die 4 key 3 "3" rest w
                ltac:(lia) Hin Hline ltac:(lia)) as (face & out & Hnth & ->).
    rewrite Hlen in Hnth. exists face. split; [exact Hnth | reflexivity].
  - intros f e key c line rest w Hin Hline Hc.
    destruct (throw_loop_resolves (mkDie [f]) e key c line rest w
                ltac:(cbn; lia) Hin Hline Hc) as (face & out & Hnth & ->).
    replace (DieM.len (mkDie [f])) with 1 in Hnth by reflexivity.
    rewrite Z.mod_1_r in Hnth. cbn in Hnth. injection Hnth as <-.
    reflexivity.
Qed.

Lemma throw_resolution_witness :
  exists face,
    nth_error (values die_a) (Z.to_nat ((3 + 4) mod DieM.len die_a)) = Some face
    /\ fst (while_true_input "Your selection: " (throw_body die_a 4 [])
              (mkWorld sample_tape 0 [" 3"] []))
       = Ok face.
Proof.
  apply (proj1 throw_resolution die_a 4 [] 3 " 3" []
           (mkWorld sample_tape 0 [" 3"] [])).
  - vm_compute. discriminate.
  - reflexivity.
  - split; reflexivity.
  - reflexivity.
Defined.

End ThrowResolution.

(* ================================================================== *)
(** * Counting the pairs of faces *)
(* ================================================================== *)

Section Probability.

Import TableGenerator.

Lemma sum_from (l : list Z) (a : Z) :
  fold_left Z.add l a = a + fold_left Z.add l 0.
Proof.
  revert a. induction l as [| x l IH]; intros a; cbn [fold_left].
  - lia.
  - rewrite (IH (a + x)), (IH (0 + x)). lia.
Qed.

Lemma sum_app (l1 l2 : list Z) :
  fold_left Z.add (l1 ++ l2) 0
  = fold_left Z.add l1 0 + fold_left Z.add l2 0.
Proof. rewrite fold_left_app. apply sum_from. Qed.

Lemma pairs_where_nil_l (p : Z -> Z -> bool) (ys : list Z) :
  pairs_where p [] ys = 0.
Proof. reflexivity. Qed.

Lemma pairs_where_nil_r (p : Z -> Z -> bool) (xs : list Z) :
  pairs_where p xs [] = 0.
Proof.
  unfold pairs_where. induction xs as [| x xs IH]; [reflexivity |].
  cbn [flat_map app]. exact IH.
Qed.

Lemma pairs_where_cons_l (p : Z -> Z -> bool) (x : Z) (xs ys : list Z) :
  pairs_where p (x :: xs) ys = pairs_where p [x] ys + pairs_where p xs ys.
Proof.
  unfold pairs_where. cbn [flat_map]. rewrite app_nil_r. apply sum_app.
Qed.

Lemma pairs_where_single (p : Z -> Z -> bool) (x y : Z) (ys : list Z) :
  pairs_where p [x] (y :: ys) = indicator (p x y) + pairs_where p [x] ys.
Proof.
  unfold pairs_where. cbn [flat_map]. rewrite !app_nil_r, sum_app.
  destruct (p x y); reflexivity.
Qed.

Lemma pairs_where_cons_r (p : Z -> Z -> bool) (y : Z) (xs ys : list Z) :
  pairs_where p xs (y :: ys) = pairs_where p xs [y] + pairs_where p xs ys.
Proof.
  induction xs as [| x xs IH]; [reflexivity |].
  rewrite pairs_where_cons_l, IH, pairs_where_single.
  rewrite (pairs_where_cons_l p x xs [y]), (pairs_where_cons_l p x xs ys).
  rewrite (pairs_where_single p x y []), (pairs_where_nil_r p [x]). lia.
Qed.

(** Counting by rows or by columns gives the same number. *)
Lemma pairs_where_swap (p : Z -> Z -> bool) (xs ys : list Z) :
  pairs_where p xs ys = pairs_where (fun y x => p x y) ys xs.
Proof.
  revert ys. induction xs as [| x xs IHx]; intros ys.
  - rewrite pairs_where_nil_r. reflexivity.
  - rewrite pairs_where_cons_l, pairs_where_cons_r, IHx. f_equal.
    induction ys as [| y ys IHy]; [reflexivity |].
    rewrite (pairs_where_single p x y ys), IHy.
    rewrite (pairs_where_cons_l (fun y x => p x y) y ys [x]).
    rewrite (pairs_where_single (fun y x => p x y) y x []).
    rewrite (pairs_where_nil_r (fun y x => p x y) [y]). lia.
Qed.

(** Every pair is won, lost or tied, and only one of the three. *)
Lemma pairs_partition (xs ys : list Z) :
  pairs_where Z.gtb xs ys + pairs_where (fun x y => y >? x) xs ys
  + pairs_where Z.eqb xs ys
  = Z.of_nat (List.length xs) * Z.of_nat (List.length ys).
Proof.
  induction xs as [| x xs IHx].
  - reflexivity.
  - rewrite (pairs_where_cons_l Z.gtb), (pairs_where_cons_l Z.eqb),
      (pairs_where_cons_l (fun x y => y >? x)).
    assert (Hrow : pairs_where Z.gtb [x] ys
                   + pairs_where (fun x y => y >? x) [x] ys
                   + pairs_where Z.eqb [x] ys = Z.of_nat (List.length ys)).
    { clear IHx. induction ys as [| y ys IHy]; [reflexivity |].
      rewrite !pairs_where_single. cbn [List.length].
      unfold indicator.
      destruct (Z.gtb_spec x y), (Z.gtb_spec y x), (Z.eqb_spec x y); lia. }
    cbn [List.length]. lia.
Qed.

Lemma wins_pairs (die1 die2 : Die) :
  wins die1 die2 = pairs_where Z.gtb (values die1) (values die2).
Proof. reflexivity. Qed.

Lemma ties_pairs (die1 die2 : Die) :
  ties die1 die2 = pairs_where Z.eqb (values die1) (values die2).
Proof. reflexivity. Qed.

Lemma pairs_conservation (A B : Die) :
  wins A B + wins B A + ties A B = total A B.
Proof.
  rewrite !wins_pairs, ties_pairs.
  rewrite (pairs_where_swap Z.gtb (values B) (values A)).
  apply pairs_partition.
Qed.

Lemma total_sym (A B : Die) : total A B = total B A.
Proof. unfold total. apply Z.mul_comm. Qed.

Lemma total_pos (A B : Die) :
  values A <> [] -> values B <> [] -> 0 < total A B.
Proof.
  intros HA HB. unfold total, DieM.len.
  destruct (values A); [congruence |]. destruct (values B); [congruence |].
  cbn [List.length]. lia.
Qed.

(** C5. For two dice [A] and [B], the pairs of faces won by [A], won by
    [B] and tied add up to all [|A| * |B|] pairs; hence the probability
    that [A] wins, the probability that [B] wins and the mass of the ties,
    each the count divided by [|A| * |B|], add up to exactly 1. *)
Theorem probability_mass_conservation (A B : Die) :
  values A <> [] ->
  values B <> [] ->
  wins A B + wins B A + ties A B = DieM.len A * DieM.len B
  /\ (win_probability A B + win_probability B A + tie_mass A B == 1)%Q.
Proof.
  intros HA HB. split; [apply pairs_conservation |].
  unfold win_probability, tie_mass. rewrite <- (total_sym A B).
  pose proof (total_pos A B HA HB) as Hpos.
  pose proof (pairs_conservation A B) as Hsum.
  set (t := total A B) in *.
  assert (Ht : ~ (inject_Z t == 0)%Q).
  { unfold Qeq. cbn. lia. }
  setoid_replace (inject_Z (wins A B) / inject_Z t + inject_Z (wins B A) / inject_Z t
                  + inject_Z (ties A B) / inject_Z t)%Q
    with (inject_Z (wins A B + wins B A + ties A B) / inject_Z t)%Q.
  - rewrite Hsum. field. exact Ht.
  - rewrite !inject_Z_plus. field. exact Ht.
Qed.

Lemma probability_mass_conservation_witness :
  wins die_a die_b + wins die_b die_a + ties die_a die_b
  = DieM.len die_a * DieM.len die_b
  /\ (win_probability die_a die_b + win_probability die_b die_a
      + tie_mass die_a die_b == 1)%Q.
Proof.
  apply (probability_mass_conservation die_a die_b); discriminate.
Defined.

End Probability.

(* ================================================================== *)
(** * The probability table *)
(* ================================================================== *)

Section Table.

Import TableGenerator.

Lemma true_div_ok (p q : Z) :
  q <> 0 -> exists x, Float.true_div p q = Ok x.
Proof.
  intros Hq. unfold Float.true_div.
  destruct (Z.eqb_spec q 0) as [Hz | _]; [contradiction |].
  destruct (p =? 0); eexists; reflexivity.
Qed.

Lemma calculate_probability_ok (die1 die2 : Die) :
  values die1 <> [] -> values die2 <> [] ->
  exists s, _calculate_probability die1 die2 = Ok s.
Proof.
  intros H1 H2. unfold _calculate_probability.
  pose proof (total_pos die1 die2 H1 H2) as Hpos.
  destruct (true_div_ok (wins die1 die2) (total die1 die2)) as (x & ->);
    [lia |].
  eexists. reflexivity.
Qed.

Lemma map_result_ok {A B} (f : A -> result B) (xs : list A) :
  (forall x, In x xs -> exists y, f x = Ok y) ->
  exists ys, map_result f xs = Ok ys /\ Forall2 (fun x y => f x = Ok y) xs ys.
Proof.
  induction xs as [| x xs IH]; intros Hall; cbn [map_result].
  - exists []. split; [reflexivity | constructor].
  - destruct (Hall x (or_introl eq_refl)) as (y & Hy).
    destruct (IH (fun z Hz => Hall z (or_intror Hz))) as (ys & Hys & Hrel).
    rewrite Hy, Hys. exists (y :: ys). split; [reflexivity |].
    constructor; assumption.
Qed.

Lemma Forall2_nth_error_l {A B} (R : A -> B -> Prop) (xs : list A) (ys : list B) :
  Forall2 R xs ys ->
  forall k x, nth_error xs k = Some x ->
              exists y, nth_error ys k = Some y /\ R x y.
Proof.
  induction 1 as [| x0 y0 xs ys Hxy _ IH]; intros k x Hk.
  - destruct k; discriminate.
  - destruct k as [| k]; cbn [nth_error] in *.
    + injection Hk as <-. exists y0. split; [reflexivity | exact Hxy].
    + apply IH. exact Hk.
Qed.

Lemma nth_error_numbered {A} (xs : list A) :
  forall (start k : nat) (x : A),
    nth_error xs k = Some x ->
    nth_error (combine (map Z.of_nat (seq start (List.length xs))) xs) k
    = Some (Z.of_nat (start + k), x).
Proof.
  induction xs as [| x0 xs IH]; intros start k x Hk.
  - destruct k; discriminate.
  - cbn [List.length seq map combine].
    destruct k as [| k]; cbn [nth_error] in *.
    + injection Hk as ->. rewrite Nat.add_0_r. reflexivity.
    + rewrite (IH (S start) k x Hk). do 2 f_equal. lia.
Qed.

Lemma nth_error_enumerate {A} (xs : list A) (k : nat) (x : A) :
  nth_error xs k = Some x ->
  nth_error (enumerate xs) k = Some (Z.of_nat k, x).
Proof. intros Hk. unfold enumerate. apply (nth_error_numbered xs 0 k x Hk). Qed.

Lemma in_enumerate {A} (xs : list A) (i : Z) (x : A) :
  In (i, x) (enumerate xs) -> In x xs.
Proof. unfold enumerate. apply in_combine_r. Qed.

(** A row of the table has its label, then a cell for each die; the cell
    in the column of the row's own die is the literal text. *)
Lemma row_ok (dice : list Die) (i : nat) (die1 : Die) :
  Forall (fun d => values d <> []) dice ->
  values die1 <> [] ->
  exists cells,
    row dice (Z.of_nat i) die1 = Ok (("Die " ++ Py.str (Z.of_nat i))%string :: cells)
    /\ List.length cells = List.length dice
    /\ (forall d, nth_error dice i = Some d -> nth_error cells i = Some "0.50").
Proof.
  intros Hdice H1. unfold row.
  match goal with |- context [map_result ?f _] =>
    destruct (map_result_ok f (enumerate dice)) as (cells & -> & Hrel)
  end.
  - intros [j d2] Hin. cbn [fst snd].
    destruct (Z.of_nat i =? j); [eexists; reflexivity |].
    apply calculate_probability_ok; [exact H1 |].
    rewrite Forall_forall in Hdice. apply Hdice.
    apply (in_enumerate dice j d2 Hin).
  - exists cells. split; [reflexivity |]. split.
    + apply Forall2_length in Hrel. rewrite <- Hrel. unfold enumerate.
      rewrite length_combine, length_map, length_seq. apply Nat.min_id.
    + intros d Hd.
      destruct (Forall2_nth_error_l _ _ _ Hrel i _ (nth_error_enumerate dice i d Hd))
        as (cell & Hcell & Hval).
      cbn [fst snd] in Hval. rewrite Z.eqb_refl in Hval.
      injection Hval as <-. exact Hcell.
Qed.

Lemma print_rows_ok (dice : list Die) (items : list (Z * Die)) :
  (forall id, In id items -> exists r, row dice (fst id) (snd id) = Ok r) ->
  forall w, exists rows,
    for_each items (fun id =>
      r <- lift (row dice (fst id) (snd id)) ;;
      print (Py.join tab r)) w
    = (Ok tt, mkWorld (tape w) (cursor w) (stdin w)
                (stdout w ++ map table_line rows))
    /\ Forall2 (fun id r => row dice (fst id) (snd id) = Ok r) items rows.
Proof.
  induction items as [| id items IH]; intros Hall w; cbn [for_each].
  - exists []. cbn [map]. rewrite app_nil_r. destruct w.
    split; [reflexivity | constructor].
  - destruct (Hall id (or_introl eq_refl)) as (r & Hr).
    unfold bind at 1. unfold bind at 1. unfold lift at 1. rewrite Hr.
    unfold print at 1, write at 1.
    match goal with |- context [for_each items ?f ?w1] =>
      destruct (IH (fun z Hz => Hall z (or_intror Hz)) w1) as (rows & -> & Hrel)
    end.
    exists (r :: rows). cbn [tape cursor stdin stdout map].
    rewrite <- app_assoc. split; [reflexivity |].
    constructor; assumption.
Qed.

(** C6. For every list of dice, the table prints one row per die, and in
    the row of the die at position [i] the entry of column [i], where the
    die meets itself, is the text 0.50 whatever the faces of the die. The
    entry is the literal of the special case: the counting formula applied
    to a die and itself gives another text, 0.33 for the die 1, 2, 3. *)
Theorem table_diagonal (dice : list Die) (w : World) :
  Forall (fun d => values d <> []) dice ->
  (exists rows,
     generate_table dice w
     = (Ok tt,
        mkWorld (tape w) (cursor w) (stdin w)
          (stdout w
           ++ [(newline ++ "Probability Table:" ++ newline)%string;
               (tab ++ Py.join tab
                         (map (fun i => ("Die " ++ Py.str i)%string)
                              (range (Z.of_nat (List.length dice))))
                ++ newline)%string]
           ++ map table_line rows))
     /\ List.length rows = List.length dice
     /\ forall i d,
          nth_error dice i = Some d ->
          exists cells,
            nth_error rows i
            = Some (("Die " ++ Py.str (Z.of_nat i))%string :: cells)
            /\ row dice (Z.of_nat i) d
               = Ok (("Die " ++ Py.str (Z.of_nat i))%string :: cells)
            /\ List.length cells = List.length dice
            /\ nth_error cells i = Some "0.50")
  /\ _calculate_probability (mkDie [1; 2; 3]) (mkDie [1; 2; 3]) = Ok "0.33".
Proof.
  intros Hdice. split; [| vm_compute; reflexivity].
  assert (Hrows : forall id, In id (enumerate dice) ->
                             exists r, row dice (fst id) (snd id) = Ok r).
  { intros [j d] Hin. cbn [fst snd].
    assert (Hj : exists k, j = Z.of_nat k).
    { unfold enumerate in Hin. apply in_combine_l in Hin.
      apply in_map_iff in Hin. destruct Hin as (k & <- & _). exists k.
      reflexivity. }
    destruct Hj as (k & ->).
    destruct (row_ok dice k d Hdice) as (cells & Hrow & _).
    - rewrite Forall_forall in Hdice. apply Hdice.
      apply (in_enumerate dice _ d Hin).
    - eexists. exact Hrow. }
  unfold generate_table.
  unfold bind at 1. unfold print at 1, write at 1.
  unfold bind at 1. unfold print at 1, write at 1.
  match goal with |- context [for_each _ _ ?w1] =>
    destruct (print_rows_ok dice (enumerate dice) Hrows w1) as (rows & -> & Hrel)
  end.
  exists rows. cbn [tape cursor stdin stdout].
  split; [rewrite <- !app_assoc; reflexivity |].
  split.
  - apply Forall2_length in Hrel. rewrite <- Hrel. unfold enumerate.
    rewrite length_combine, length_map, length_seq. apply Nat.min_id.
  - intros i d Hd.
    destruct (Forall2_nth_error_l _ _ _ Hrel i _ (nth_error_enumerate dice i d Hd))
      as (r & Hr & Hrow).
    cbn [fst snd] in Hrow.
    destruct (row_ok dice i d Hdice) as (cells & Hrow' & Hlen & Hdiag).
    + rewrite Forall_forall in Hdice. apply Hdice.
      apply (nth_error_In _ _ Hd).
    + exists cells. rewrite Hrow' in Hrow. injection Hrow as <-.
      split; [exact Hr |]. split; [exact Hrow' |]. split; [exact Hlen |].
      apply (Hdiag d Hd).
Qed.

Lemma table_diagonal_witness :
  exists rows,
    snd (generate_table [die_a; die_b; die_c] sample_world)
    = mkWorld sample_tape 0 (stdin sample_world)
        ([(newline ++ "Probability Table:" ++ newline)%string;
          (tab ++ "Die 0" ++ tab ++ "Die 1" ++ tab ++ "Die 2" ++ newline)%string]
         ++ map table_line rows)
    /\ forall i d,
         nth_error [die_a; die_b; die_c] i = Some d ->
         exists cells,
           nth_error rows i
           = Some (("Die " ++ Py.str (Z.of_nat i))%string :: cells)
           /\ nth_error cells i = Some "0.50".
Proof.
  destruct (proj1 (table_diagonal [die_a; die_b; die_c] sample_world
                     ltac:(repeat constructor; discriminate)))
    as (rows & Hout & _ & Hdiag).
  exists rows. split.
  - rewrite Hout. reflexivity.
  - intros i d Hd. destruct (Hdiag i d Hd) as (cells & Hr & _ & _ & Hc).
    exists cells. split; assumption.
Defined.

End Table.

(* ================================================================== *)
(** * Dice: construction and indexing *)
(* ================================================================== *)

Section DiceMore.

Lemma map_result_init (dice_values : list (list Z)) :
  Forall (fun vs => vs <> []) dice_values ->
  map_result DieM.init dice_values = Ok (map mkDie dice_values).
Proof.
  induction 1 as [| vs rest Hvs _ IH]; cbn [map_result map].
  - reflexivity.
  - rewrite IH. destruct vs; [congruence | reflexivity].
Qed.

Lemma map_result_init_empty (dice_values : list (list Z)) :
  ~ Forall (fun vs => vs <> []) dice_values ->
  map_result DieM.init dice_values
  = Raise (ValueError "Die must have at least one face").
Proof.
  induction dice_values as [| vs rest IH]; intros Hnot.
  - exfalso. apply Hnot. constructor.
  - cbn [map_result]. destruct vs as [| v vs]; [reflexivity |].
    cbn [DieM.init]. rewrite IH; [reflexivity |].
    intros Hrest. apply Hnot. constructor; [discriminate | exact Hrest].
Qed.

Lemma all_non_empty_dec (dice_values : list (list Z)) :
  Forall (fun vs => vs <> []) dice_values
  \/ ~ Forall (fun vs => vs <> []) dice_values.
Proof.
  induction dice_values as [| vs rest [IH | IH]].
  - left. constructor.
  - destruct vs as [| v vs].
    + right. intros H. inversion H; congruence.
    + left. constructor; [discriminate | exact IH].
  - right. intros H. inversion H; contradiction.
Qed.

(** X1. A controller is built exactly from three or more face lists that
    are all non-empty; the game then starts with every die in the pool, in
    the order given, and no die selected. With fewer than three lists the
    count is what is reported, even if a list is empty as well; with three
    or more, an empty list is reported as a die without faces. *)
Theorem controller_construction (dice_values : list (list Z)) :
  ((List.length dice_values < 3)%nat ->
     GameControllerM.init dice_values
     = Raise (ValueError "At least three dice must be provided"))
  /\ ((3 <= List.length dice_values)%nat ->
        ~ Forall (fun vs => vs <> []) dice_values ->
        GameControllerM.init dice_values
        = Raise (ValueError "Die must have at least one face"))
  /\ ((3 <= List.length dice_values)%nat ->
        Forall (fun vs => vs <> []) dice_values ->
        exists self,
          GameControllerM.init dice_values = Ok self
          /\ map values (original_dice (state self)) = dice_values
          /\ available_dice (state self) = original_dice (state self)
          /\ player_die (state self) = None
          /\ computer_die (state self) = None).
Proof.
  unfold GameControllerM.init. split; [| split].
  - intros Hlen. destruct (Nat.ltb_spec (List.length dice_values) 3);
      [reflexivity | lia].
  - intros Hlen Hbad. destruct (Nat.ltb_spec (List.length dice_values) 3);
      [lia |].
    rewrite map_result_init_empty by exact Hbad. reflexivity.
  - intros Hlen Hgood. destruct (Nat.ltb_spec (List.length dice_values) 3);
      [lia |].
    rewrite map_result_init by exact Hgood. eexists. split; [reflexivity |].
    cbn [state GameStateM.init original_dice available_dice player_die
         computer_die].
    split; [| repeat split].
    rewrite map_map. cbn [values]. apply map_id.
Qed.

Lemma controller_construction_witness :
  GameControllerM.init [[1; 2]; []]
  = Raise (ValueError "At least three dice must be provided")
  /\ GameControllerM.init [[1; 2]; []; [3]]
     = Raise (ValueError "Die must have at least one face")
  /\ exists self,
       GameControllerM.init [[1; 2]; [4]; [3]] = Ok self
       /\ map values (original_dice (state self)) = [[1; 2]; [4]; [3]]
       /\ available_dice (state self) = original_dice (state self)
       /\ player_die (state self) = None
       /\ computer_die (state self) = None.
Proof.
  split; [| split].
  - apply (proj1 (controller_construction [[1; 2]; []])). cbn. lia.
  - apply (proj1 (proj2 (controller_construction [[1; 2]; []; [3]]))).
    + cbn. lia.
    + intros H. inversion H as [| ? ? _ H2]. inversion H2. congruence.
  - apply (proj2 (proj2 (controller_construction [[1; 2]; [4]; [3]]))).
    + cbn. lia.
    + repeat constructor; discriminate.
Defined.

Lemma getitem_ok_in {A} (xs : list A) (i : Z) (x : A) :
  Py.getitem xs i = Ok x -> In x xs.
Proof.
  unfold Py.getitem.
  destruct (_ && _); [| discriminate].
  destruct (nth_error xs _) as [y |] eqn:Hnth; [| discriminate].
  intros [= <-]. apply (nth_error_In _ _ Hnth).
Qed.

(** X2. Indexing a die with [n] faces succeeds exactly for the indices
    from [-n] to [n - 1], and raises [IndexError] otherwise; the index
    [i - n] names the same face as [i], so [-1] is the last face. *)
Theorem die_indexing (d : Die) (i : Z) :
  ((exists face, DieM.getitem d i = Ok face)
   <-> - DieM.len d <= i < DieM.len d)
  /\ (~ (- DieM.len d <= i < DieM.len d) -> DieM.getitem d i = Raise IndexError)
  /\ (0 <= i < DieM.len d ->
      DieM.getitem d (i - DieM.len d) = DieM.getitem d i
      /\ exists face, DieM.getitem d i = Ok face
                      /\ nth_error (values d) (Z.to_nat i) = Some face).
Proof.
  unfold DieM.getitem, DieM.len.
  set (n := Z.of_nat (List.length (values d))).
  assert (Hin : forall j, 0 <= j < n ->
                  exists face, Py.getitem (values d) j = Ok face
                               /\ nth_error (values d) (Z.to_nat j) = Some face).
  { intros j Hj. apply getitem_in_range. exact Hj. }
  assert (Hneg : forall j, 0 <= j < n ->
                   Py.getitem (values d) (j - n) = Py.getitem (values d) j).
  { intros j Hj. unfold Py.getitem. fold n.
    destruct (Z.ltb_spec (j - n) 0); [| lia].
    destruct (Z.ltb_spec j 0); [lia |].
    replace (j - n + n) with j by lia. reflexivity. }
  assert (Hout : ~ (- n <= i < n) -> Py.getitem (values d) i = Raise IndexError).
  { intros Hi. unfold Py.getitem. fold n.
    destruct (Z.ltb_spec i 0).
    - destruct (Z.leb_spec 0 (i + n)); [lia | reflexivity].
    - destruct (Z.leb_spec 0 i); [| lia].
      destruct (Z.ltb_spec i n); [lia | reflexivity]. }
  split; [| split].
  - split.
    + intros [face Hface].
      destruct (Z_le_dec (- n) i) as [Hlo |]; [| rewrite Hout in Hface by lia;
                                                   discriminate].
      destruct (Z_lt_dec i n) as [Hhi |]; [lia |].
      rewrite Hout in Hface by lia. discriminate.
    + intros Hi. destruct (Z_lt_dec i 0) as [Hn | Hp].
      * destruct (Hin (i + n) ltac:(lia)) as (face & Hget & _).
        exists face. rewrite <- Hget, <- (Hneg (i + n)) by lia.
        f_equal. lia.
      * destruct (Hin i ltac:(lia)) as (face & Hget & _). exists face.
        exact Hget.
  - exact Hout.
  - intros Hi. split; [apply Hneg; exact Hi | apply Hin; exact Hi].
Qed.

Lemma die_indexing_witness :
  DieM.getitem die_a (-7) = Raise IndexError
  /\ DieM.getitem die_a (5 - DieM.len die_a) = DieM.getitem die_a 5.
Proof.
  split.
  - apply (proj1 (proj2 (die_indexing die_a (-7)))). cbn. lia.
  - apply (proj1 (proj2 (proj2 (die_indexing die_a 5)) ltac:(cbn; lia))).
Defined.

End DiceMore.

(* ================================================================== *)
(** * Entropy *)
(* ================================================================== *)

Section Entropy.

Import CryptoProvider FairNumberGenerator.

Lemma Z_of_byte_range (b : byte) : 0 <= Py.Z_of_byte b < 256.
Proof.
  unfold Py.Z_of_byte. pose proof (Byte.to_N_bounded b) as Hb. lia.
Qed.

Lemma Z_of_byte_of_Z (z : Z) : Py.Z_of_byte (Py.byte_of_Z z) = z mod 256.
Proof.
  unfold Py.byte_of_Z, Py.Z_of_byte.
  pose proof (Z.mod_pos_bound z 256 ltac:(lia)) as Hz.
  destruct (Byte.of_N (Z.to_N (z mod 256))) as [b |] eqn:Hb.
  - apply Byte.to_of_N in Hb. rewrite Hb. lia.
  - apply Byte.of_N_None_iff in Hb. lia.
Qed.

Lemma from_bytes_big_four (a b c d : byte) :
  Py.from_bytes_big [a; b; c; d]
  = ((Py.Z_of_byte a * 256 + Py.Z_of_byte b) * 256 + Py.Z_of_byte c) * 256
    + Py.Z_of_byte d.
Proof. unfold Py.from_bytes_big. cbn [fold_left]. lia. Qed.

Lemma four_from_tape (t : nat -> byte) (c : nat) :
  map t (seq c 4) = [t c; t (S c); t (S (S c)); t (S (S (S c)))].
Proof. reflexivity. Qed.

Lemma from_bytes_big_four_bound (t : nat -> byte) (c : nat) :
  0 <= Py.from_bytes_big (map t (seq c 4)) < 2 ^ 32.
Proof.
  rewrite four_from_tape, from_bytes_big_four.
  pose proof (Z_of_byte_range (t c)).
  pose proof (Z_of_byte_range (t (S c))).
  pose proof (Z_of_byte_range (t (S (S c)))).
  pose proof (Z_of_byte_range (t (S (S (S c))))).
  change (2 ^ 32) with 4294967296. lia.
Qed.

Lemma from_bytes_big_four_bytes (v : Z) :
  0 <= v < 2 ^ 32 -> Py.from_bytes_big (four_bytes v) = v.
Proof.
  intros Hv. unfold four_bytes. cbn [map].
  rewrite from_bytes_big_four, !Z_of_byte_of_Z.
  change (2 ^ 32) with 4294967296 in Hv.
  change (2 ^ 24) with 16777216. change (2 ^ 16) with 65536.
  change (2 ^ 8) with 256.
  Z.to_euclidean_division_equations. lia.
Qed.

Lemma tape_with_four (bs : list byte) (c : nat) :
  List.length bs = 4%nat -> map (tape_with bs c) (seq c 4) = bs.
Proof.
  intros Hlen. rewrite four_from_tape. unfold tape_with.
  replace (c - c)%nat with 0%nat by lia.
  replace (S c - c)%nat with 1%nat by lia.
  replace (S (S c) - c)%nat with 2%nat by lia.
  replace (S (S (S c)) - c)%nat with 3%nat by lia.
  destruct bs as [| a [| b [| c0 [| d [| ? ?]]]]]; try discriminate.
  reflexivity.
Qed.

(** X3. A draw reads exactly four bytes, so what it returns is below
    [2 ^ 32] however large [max_value] is; and every value of
    [0 .. max_value] below [2 ^ 32] is what the draw returns when the four
    bytes read are that value. *)
Theorem uniform_draw_reach (max_value : Z) (w : World) :
  0 <= max_value ->
  (exists n,
     generate_uniform_random max_value w = (Ok n, advanced w 4 (stdin w) [])
     /\ 0 <= n < 2 ^ 32)
  /\ (forall v,
        0 <= v <= max_value -> v < 2 ^ 32 ->
        fst (generate_uniform_random max_value
               (mkWorld (tape_with (four_bytes v) (cursor w)) (cursor w)
                  (stdin w) (stdout w)))
        = Ok v).
Proof.
  intros Hmax. split.
  - eexists. split.
    + rewrite generate_uniform_random_ok by exact Hmax.
      unfold advanced. rewrite app_nil_r. reflexivity.
    + pose proof (from_bytes_big_four_bound (tape w) (cursor w)) as Hb.
      pose proof (Z.mod_pos_bound
                    (Py.from_bytes_big (map (tape w) (seq (cursor w) 4)))
                    (max_value + 1) ltac:(lia)) as Hm.
      split; [lia |].
      apply Z.le_lt_trans with (Py.from_bytes_big (map (tape w) (seq (cursor w) 4)));
        [| lia].
      apply Z.mod_le; lia.
  - intros v Hv Hsmall.
    rewrite generate_uniform_random_ok by exact Hmax.
    cbn [fst tape cursor].
    rewrite tape_with_four by reflexivity.
    rewrite from_bytes_big_four_bytes by lia.
    rewrite Z.mod_small by lia. reflexivity.
Qed.

Lemma uniform_draw_reach_witness :
  (exists n,
     generate_uniform_random (2 ^ 40) sample_world
     = (Ok n, advanced sample_world 4 (stdin sample_world) [])
     /\ 0 <= n < 2 ^ 32)
  /\ fst (generate_uniform_random 5
            (mkWorld (tape_with (four_bytes 3) 0) 0 [] []))
     = Ok 3.
Proof.
  split.
  - apply (proj1 (uniform_draw_reach (2 ^ 40) sample_world ltac:(lia))).
  - apply (proj2 (uniform_draw_reach 5 (mkWorld sample_tape 0 [] [])
                    ltac:(lia)) 3); lia.
Defined.

(** X4. Two commitments in a row read disjoint parts of the tape: each
    takes 16 bytes for its key and the next 4 for its number, so the
    second key starts 20 bytes after the first and no byte serves twice. *)
Theorem commitments_use_fresh_entropy (m1 m2 : Z) (w : World) :
  0 <= m1 -> 0 <= m2 ->
  exists n1 d1 n2 d2,
    let c := cursor w in
    let k1 := map (tape w) (seq c 16) in
    let k2 := map (tape w) (seq (c + 20) 16) in
    (commitment <- generate_fair_number m1 ;;
     commitment' <- generate_fair_number m2 ;;
     ret (commitment, commitment')) w
    = (Ok ((n1, k1, d1), (n2, k2, d2)), advanced w 40 (stdin w) [])
    /\ n1 = Py.from_bytes_big (map (tape w) (seq (c + 16) 4)) mod (m1 + 1)
    /\ n2 = Py.from_bytes_big (map (tape w) (seq (c + 36) 4)) mod (m2 + 1).
Proof.
  intros H1 H2. do 4 eexists. cbv zeta. split; [| split; reflexivity].
  unfold bind at 1. rewrite generate_fair_number_ok by exact H1.
  unfold bind at 1. rewrite generate_fair_number_ok by exact H2.
  cbn [tape cursor stdin stdout]. unfold ret, advanced.
  rewrite app_nil_r.
  replace (cursor w + 16 + 4)%nat with (cursor w + 20)%nat by lia.
  replace (cursor w + 20 + 16)%nat with (cursor w + 36)%nat by lia.
  replace (cursor w + 36 + 4)%nat with (cursor w + 40)%nat by lia.
  reflexivity.
Qed.

Lemma commitments_use_fresh_entropy_witness :
  exists n1 d1 n2 d2,
    (commitment <- generate_fair_number 1 ;;
     commitment' <- generate_fair_number 5 ;;
     ret (commitment, commitment')) sample_world
    = (Ok ((n1, map sample_tape (seq 0 16), d1),
           (n2, map sample_tape (seq 20 16), d2)),
       advanced sample_world 40 (stdin sample_world) [])
    /\ n1 = Py.from_bytes_big (map sample_tape (seq 16 4)) mod 2
    /\ n2 = Py.from_bytes_big (map sample_tape (seq 36 4)) mod 6.
Proof.
  apply (commitments_use_fresh_entropy 1 5 sample_world); lia.
Defined.

End Entropy.

(* ================================================================== *)
(** * Loops that ask again *)
(* ================================================================== *)

Section AskingAgain.

Lemma bind_ok_inv {A B} (m : M A) (k : A -> M B) (w w' : World) (b : B) :
  bind m k w = (Ok b, w') ->
  exists a w1, m w = (Ok a, w1) /\ k a w1 = (Ok b, w').
Proof.
  unfold bind. destruct (m w) as [[a | e] w1]; [| discriminate].
  intros H. exists a, w1. split; [reflexivity | exact H].
Qed.

Lemma world_eta (w : World) (lines : list string) :
  stdin w = lines ->
  w = mkWorld (tape w) (cursor w) lines (stdout w ++ []).
Proof. intros <-. rewrite app_nil_r. destruct w; reflexivity. Qed.

(** Lines that the body turns down with a request cost one prompt and one
    request each, and leave the loop where it was. *)
Lemma input_loop_skip {A} (prompt request : string)
    (body : string -> M (option A)) (bad lines : list string) :
  (forall l, In l bad -> forall w0, body l w0 = (Ok None, wrote w0 [request])) ->
  forall w,
    stdin w = (bad ++ lines)%list ->
    input_loop prompt body (bad ++ lines) w
    = input_loop prompt body lines
        (mkWorld (tape w) (cursor w) lines
           (stdout w ++ reprompts prompt request bad)).
Proof.
  induction bad as [| l bad IH]; intros Hbad w Hin.
  - cbn [app reprompts flat_map]. rewrite <- (world_eta w lines Hin).
    reflexivity.
  - cbn [app input_loop]. unfold bind at 1. unfold write at 1.
    unfold bind at 1. unfold bind at 1.
    rewrite (Hbad l (or_introl eq_refl)).
    unfold wrote. cbn [tape cursor stdin stdout].
    rewrite IH.
    + cbn [tape cursor stdin stdout reprompts flat_map app].
      rewrite <- !app_assoc. reflexivity.
    + intros l' Hl'. apply Hbad. right. exact Hl'.
    + reflexivity.
Qed.

Lemma input_loop_step {A} (prompt : string) (body : string -> M (option A))
    (line : string) (rest : list string) (w : World) :
  input_loop prompt body (line :: rest) w
  = match body line (mkWorld (tape w) (cursor w) rest (stdout w ++ [prompt])) with
    | (Ok (Some v), w') => (Ok v, w')
    | (Ok None, w') => input_loop prompt body rest w'
    | (Raise e, w') => (Raise e, w')
    end.
Proof.
  cbn [input_loop]. unfold bind, write.
  destruct (body line _) as [[[v |] | e] w']; reflexivity.
Qed.

(** A value returned by the loop was returned by its body for a line that
    was typed. *)
Lemma input_loop_ok_inv {A} (prompt : string) (body : string -> M (option A))
    (lines : list string) :
  forall w w' v,
    input_loop prompt body lines w = (Ok v, w') ->
    exists line w1, In line lines /\ body line w1 = (Ok (Some v), w').
Proof.
  induction lines as [| line rest IH]; intros w w' v Hloop.
  - cbn [input_loop] in Hloop. unfold bind, write, raise in Hloop.
    discriminate.
  - rewrite input_loop_step in Hloop.
    destruct (body line _) as [[[v0 |] | e] w1] eqn:Hbody.
    + injection Hloop as <- <-. exists line. eexists.
      split; [left; reflexivity | exact Hbody].
    + destruct (IH _ _ _ Hloop) as (l & w2 & Hl & Hb).
      exists l, w2. split; [right; exact Hl | exact Hb].
    + discriminate.
Qed.

(** An exception that leaves the loop is the end of the input or was
    raised by the body for a line that was typed. *)
Lemma input_loop_raise_inv {A} (prompt : string) (body : string -> M (option A))
    (lines : list string) :
  forall w w' e,
    input_loop prompt body lines w = (Raise e, w') ->
    e = EOFError
    \/ exists line w1, In line lines /\ body line w1 = (Raise e, w').
Proof.
  induction lines as [| line rest IH]; intros w w' e Hloop.
  - cbn [input_loop] in Hloop. unfold bind, write, raise in Hloop.
    injection Hloop as <- _. left. reflexivity.
  - rewrite input_loop_step in Hloop.
    destruct (body line _) as [[[v0 |] | e0] w1] eqn:Hbody.
    + discriminate.
    + destruct (IH _ _ _ Hloop) as [-> | (l & w2 & Hl & Hb)].
      * left. reflexivity.
      * right. exists l, w2. split; [right; exact Hl | exact Hb].
    + injection Hloop as <- <-. right. exists line. eexists.
      split; [left; reflexivity | exact Hbody].
Qed.

End AskingAgain.

(* ================================================================== *)
(** * The throw, line by line *)
(* ================================================================== *)

Section ThrowTranscript.

Import GameControllerM.

Lemma isdigit_not_ascii (s : string) :
  Py.isdigit s = true ->
  Py.all_chars Py.is_ascii_digit s = false ->
  Py.int s = Raise (Py.invalid_literal s).
Proof.
  intros Hd Ha. unfold Py.int. destruct s as [| c s]; [discriminate |].
  rewrite Ha. reflexivity.
Qed.

Lemma throw_body_rejects (die : Die) (e : Z) (key : list byte)
    (line : string) (w : World) :
  rejected (DieM.len die) line ->
  throw_body die e key line w = (Ok None, wrote w [try_again]).
Proof.
  intros Hrej. unfold throw_body.
  destruct (Py.isdigit (Py.strip line)) eqn:Hd; cbn [negb].
  - destruct Hrej as [Hno | (k & Hint & Hk)]; [congruence |].
    unfold bind at 1. unfold lift at 1. rewrite Hint.
    destruct (Z.geb_spec k (DieM.len die)); [reflexivity | lia].
  - reflexivity.
Qed.

Lemma throw_body_accepts (die : Die) (e : Z) (key : list byte)
    (c : Z) (line : string) (w : World) :
  1 <= DieM.len die ->
  contributes line c ->
  c < DieM.len die ->
  exists face,
    nth_error (values die) (Z.to_nat ((c + e) mod DieM.len die)) = Some face
    /\ throw_body die e key line w
       = (Ok (Some face),
          wrote w
            [(reveal e key ++ newline)%string;
             (("The result is " ++ Py.str c ++ " + " ++ Py.str e ++ " = "
               ++ Py.str ((c + e) mod DieM.len die)
               ++ " (mod " ++ Py.str (DieM.len die) ++ ").") ++ newline)%string]).
Proof.
  intros Hlen [Hdigit Hint] Hc.
  assert (Hidx : 0 <= (c + e) mod DieM.len die
                 < Z.of_nat (List.length (values die))).
  { unfold DieM.len in *. apply Z.mod_pos_bound. lia. }
  destruct (getitem_in_range (values die) _ Hidx) as (face & Hget & Hnth).
  exists face. split; [exact Hnth |].
  unfold throw_body, bind, lift, print, write, ret, Py.pymod, DieM.getitem.
  rewrite Hdigit, Hint. cbn [negb].
  destruct (Z.geb_spec c (DieM.len die)) as [Hge | _]; [lia |].
  destruct (Z.eqb_spec (DieM.len die) 0) as [Hz | _]; [lia |].
  rewrite Hget. unfold wrote. cbn [tape cursor stdin stdout].
  rewrite <- app_assoc. reflexivity.
Qed.

Lemma throw_body_face (die : Die) (e : Z) (key : list byte)
    (line : string) (w w' : World) (face : Z) :
  throw_body die e key line w = (Ok (Some face), w') -> In face (values die).
Proof.
  unfold throw_body.
  destruct (negb _).
  { unfold bind, print, write, ret. discriminate. }
  intros H. apply bind_ok_inv in H. destruct H as (n & w1 & _ & H).
  destruct (n >=? DieM.len die).
  { unfold bind, print, write, ret in H. discriminate. }
  apply bind_ok_inv in H. destruct H as (r & w2 & _ & H).
  apply bind_ok_inv in H. destruct H as (u1 & w3 & _ & H).
  apply bind_ok_inv in H. destruct H as (u2 & w4 & _ & H).
  apply bind_ok_inv in H. destruct H as (f & w5 & Hget & H).
  unfold ret in H. injection H as <- _.
  unfold lift in Hget. injection Hget as Hget _.
  apply (getitem_ok_in _ _ _ Hget).
Qed.

Lemma print_faces_listing (die : Die) (xs : list Z) :
  (forall i, In i xs -> 0 <= i < DieM.len die) ->
  forall w, exists listing,
    List.length listing = List.length xs
    /\ for_each xs (fun i =>
         face <- lift (DieM.getitem die i) ;;
         print (Py.str i ++ " - " ++ Py.str face)) w
       = (Ok tt, wrote w listing).
Proof.
  induction xs as [| i xs IH]; intros Hxs w; cbn [for_each].
  - exists []. split; [reflexivity |]. unfold wrote, ret.
    rewrite app_nil_r. destruct w; reflexivity.
  - destruct (getitem_in_range (values die) i) as (face & Hget & _).
    { apply Hxs. left. reflexivity. }
    unfold bind at 1. unfold bind at 1. unfold lift at 1.
    unfold DieM.getitem at 1. rewrite Hget. unfold print at 1, write at 1.
    match goal with |- context [for_each xs ?f ?w1] =>
      destruct (IH (fun j Hj => Hxs j (or_intror Hj)) w1)
        as (listing & Hlen & ->)
    end.
    eexists (_ :: listing). split; [cbn [List.length]; rewrite Hlen; reflexivity |].
    unfold wrote. cbn [tape cursor stdin stdout].
    rewrite <- app_assoc. reflexivity.
Qed.

(** The throw up to its loop: the commitment, then what is printed before
    the first prompt. *)
Lemma make_throw_prefix (context : string) (die : Die) (w : World) :
  1 <= DieM.len die ->
  exists e key digest listing,
    FairNumberGenerator.generate_fair_number (DieM.len die - 1) w
    = (Ok (e, key, digest), advanced w 20 (stdin w) [])
    /\ 0 <= e < DieM.len die
    /\ List.length listing = Z.to_nat (DieM.len die)
    /\ _make_throw context die w
       = input_loop "Your selection: " (throw_body die e key) (stdin w)
           (advanced w 20 (stdin w)
              ([((context ++ ": I selected a random value in the range 0.."
                  ++ Py.str (DieM.len die - 1) ++ " (HMAC=" ++ digest ++ ").")
                 ++ newline)%string;
                ("Add your number modulo the die size." ++ newline)%string]
               ++ listing)).
Proof.
  intros Hlen.
  assert (Hmax : 0 <= DieM.len die - 1) by lia.
  pose proof (generate_fair_number_ok (DieM.len die - 1) w Hmax) as Hgen.
  cbv zeta in Hgen.
  set (e := _ mod _) in Hgen. set (key := map _ (seq (cursor w) 16)) in Hgen.
  replace (cursor w + 16 + 4)%nat with (cursor w + 20)%nat in Hgen by lia.
  exists e, key. eexists.
  assert (He : 0 <= e < DieM.len die).
  { subst e.
    pose proof (Z.mod_pos_bound
                  (Py.from_bytes_big (map (tape w) (seq (cursor w + 16) 4)))
                  (DieM.len die - 1 + 1)) as Hb.
    lia. }
  unfold _make_throw. unfold bind at 1. rewrite Hgen.
  unfold bind at 1. unfold print at 1, write at 1.
  unfold bind at 1. unfold print at 1, write at 1.
  unfold bind at 1.
  match goal with |- context [for_each _ _ ?w2] =>
    destruct (print_faces_listing die (range (DieM.len die))
                (range_bounds (DieM.len die)) w2) as (listing & Hll & ->)
  end.
  exists listing.
  split; [unfold advanced; rewrite app_nil_r; reflexivity |].
  split; [exact He |].
  split; [rewrite Hll; unfold range; rewrite length_map, length_seq; reflexivity |].
  unfold while_true_input, wrote, advanced. cbn [tape cursor stdin stdout].
  rewrite <- !app_assoc. reflexivity.
Qed.



End ThrowTranscript.

(* ================================================================== *)
(** * How a throw ends *)
(* ================================================================== *)

Section ThrowEnds.

Import GameControllerM.



Lemma throw_body_raise (die : Die) (e : Z) (key : list byte)
    (line : string) (w w' : World) (ex : exn) :
  1 <= DieM.len die ->
  throw_body die e key line w = (Raise ex, w') ->
  Py.isdigit (Py.strip line) = true
  /\ Py.int (Py.strip line) = Raise ex
  /\ w' = w.
Proof.
  intros Hlen. unfold throw_body.
  destruct (Py.isdigit (Py.strip line)); cbn [negb].
  2: { unfold bind, print, write, ret. discriminate. }
  unfold bind at 1. unfold lift at 1.
  destruct (Py.int (Py.strip line)) as [n | ex0].
  2: { intros [= <- <-]. repeat split. }
  destruct (n >=? DieM.len die).
  { unfold bind, print, write, ret. discriminate. }
  unfold bind at 1. unfold lift at 1. unfold Py.pymod.
  destruct (Z.eqb_spec (DieM.len die) 0) as [Hz | _]; [lia |].
  assert (Hidx : 0 <= (n + e) mod DieM.len die
                 < Z.of_nat (List.length (values die))).
  { unfold DieM.len in *. apply Z.mod_pos_bound. lia. }
  destruct (getitem_in_range (values die) _ Hidx) as (face & Hget & _).
  unfold bind, print, write, lift, ret, DieM.getitem. rewrite Hget.
  discriminate.
Qed.

Lemma make_throw_inv (context : string) (die : Die) (w w' : World)
    (r : result Z) :
  1 <= DieM.len die ->
  _make_throw context die w = (r, w') ->
  exists e key w1,
    input_loop "Your selection: " (throw_body die e key) (stdin w) w1 = (r, w').
Proof.
  intros Hlen Hrun.
  destruct (make_throw_prefix context die w Hlen)
    as (e & key & digest & listing & _ & _ & _ & Heq).
  rewrite Heq in Hrun. exists e, key. eexists. exact Hrun.
Qed.

(** X7. Whatever is typed and whatever the entropy, a throw that returns
    returns a face of the die it was given; and a throw with a die that
    has faces can fail in two ways only: with [EOFError], when the input
    ends, or with the [ValueError] of [int], for a line that passed
    [isdigit]. *)
Theorem make_throw_outcomes (context : string) (die : Die) (w w' : World) :
  (forall face, _make_throw context die w = (Ok face, w') ->
                In face (values die))
  /\ (forall ex,
        1 <= DieM.len die ->
        _make_throw context die w = (Raise ex, w') ->
        ex = EOFError
        \/ exists line,
             In line (stdin w)
             /\ Py.isdigit (Py.strip line) = true
             /\ Py.int (Py.strip line) = Raise ex).
Proof.
  split.
  - intros face Hrun. unfold _make_throw in Hrun.
    apply bind_ok_inv in Hrun. destruct Hrun as ([[e key] digest] & w1 & _ & Hrun).
    apply bind_ok_inv in Hrun. destruct Hrun as (u1 & w2 & _ & Hrun).
    apply bind_ok_inv in Hrun. destruct Hrun as (u2 & w3 & _ & Hrun).
    apply bind_ok_inv in Hrun. destruct Hrun as (u3 & w4 & _ & Hrun).
    unfold while_true_input in Hrun.
    apply input_loop_ok_inv in Hrun. destruct Hrun as (line & w5 & _ & Hbody).
    apply (throw_body_face _ _ _ _ _ _ _ Hbody).
  - intros ex Hlen Hrun.
    destruct (make_throw_inv context die w w' _ Hlen Hrun) as (e & key & w1 & Hloop).
    apply input_loop_raise_inv in Hloop.
    destruct Hloop as [-> | (line & w2 & Hin & Hbody)]; [left; reflexivity |].
    right. exists line.
    destruct (throw_body_raise _ _ _ _ _ _ _ Hlen Hbody) as (Hd & Hi & _).
    repeat split; assumption.
Qed.

Lemma make_throw_outcomes_witness :
  In 2 (values die_a)
  /\ fst (_make_throw "Your throw" die_a
            (mkWorld sample_tape 0 ["x"; "6"; " 3 "; "0"] []))
     = Ok 2.
Proof.
  split; [| vm_compute; reflexivity].
  apply (proj1 (make_throw_outcomes "Your throw" die_a
                  (mkWorld sample_tape 0 ["x"; "6"; " 3 "; "0"] [])
                  (snd (_make_throw "Your throw" die_a
                          (mkWorld sample_tape 0 ["x"; "6"; " 3 "; "0"] []))))
           2).
  vm_compute. reflexivity.
Defined.



End ThrowEnds.

(* ================================================================== *)
(** * Who selects first *)
(* ================================================================== *)

Section FirstChooser.

Import GameControllerM.

Lemma determine_first_player_prefix (w : World) :
  exists number key digest,
    FairNumberGenerator.generate_fair_number 1 w
    = (Ok (number, key, digest), advanced w 20 (stdin w) [])
    /\ 0 <= number <= 1
    /\ _determine_first_player w
       = input_loop "Your guess: " (guess_body number key) (stdin w)
           (advanced w 20 (stdin w)
              [(("I selected a random number (HMAC=" ++ digest ++ ").")
                ++ newline)%string;
               ("Guess the number: 0 or 1" ++ newline)%string]).
Proof.
  pose proof (generate_fair_number_ok 1 w ltac:(lia)) as Hgen.
  cbv zeta in Hgen.
  set (number := _ mod _) in Hgen. set (key := map _ (seq (cursor w) 16)) in Hgen.
  replace (cursor w + 16 + 4)%nat with (cursor w + 20)%nat in Hgen by lia.
  exists number, key. eexists.
  split; [unfold advanced; rewrite app_nil_r; exact Hgen |].
  split.
  { subst number.
    pose proof (Z.mod_pos_bound
                  (Py.from_bytes_big (map (tape w) (seq (cursor w + 16) 4)))
                  (1 + 1) ltac:(lia)).
    lia. }
  unfold _determine_first_player. unfold bind at 1. rewrite Hgen.
  unfold bind at 1. unfold print at 1, write at 1.
  unfold bind at 1. unfold print at 1, write at 1.
  unfold while_true_input, advanced. cbn [tape cursor stdin stdout].
  rewrite <- !app_assoc. reflexivity.
Qed.

Lemma guess_body_rejects (number : Z) (key : list byte) (line : string)
    (w : World) :
  not_a_guess line ->
  guess_body number key line w = (Ok None, wrote w [guess_again]).
Proof.
  intros [H0 H1]. unfold guess_body.
  apply String.eqb_neq in H0. apply String.eqb_neq in H1.
  rewrite H0, H1. reflexivity.
Qed.

Lemma guess_body_accepts (number : Z) (key : list byte) (line : string)
    (w : World) :
  Py.strip line = "0" \/ Py.strip line = "1" ->
  exists g,
    Py.int (Py.strip line) = Ok g
    /\ guess_body number key line w
       = (Ok (Some (g =? number)), wrote w [(reveal number key ++ newline)%string]).
Proof.
  intros Hguess. unfold guess_body.
  destruct Hguess as [-> | ->]; [exists 0 | exists 1];
    (split; [reflexivity |]);
    [change (Py.int "0") with (@Ok Z 0) | change (Py.int "1") with (@Ok Z 1)];
    reflexivity.
Qed.

Lemma not_a_guess_dec (line : string) :
  not_a_guess line \/ (Py.strip line = "0" \/ Py.strip line = "1").
Proof.
  unfold not_a_guess.
  destruct (string_dec (Py.strip line) "0"); [right; left; assumption |].
  destruct (string_dec (Py.strip line) "1"); [right; right; assumption |].
  left. split; assumption.
Qed.

Lemma first_guess (lines : list string) :
  Forall not_a_guess lines
  \/ exists bad guess rest,
       lines = (bad ++ guess :: rest)%list
       /\ Forall not_a_guess bad
       /\ (Py.strip guess = "0" \/ Py.strip guess = "1").
Proof.
  induction lines as [| l lines [IH | (bad & guess & rest & -> & Hbad & Hg)]].
  - left. constructor.
  - destruct (not_a_guess_dec l) as [Hl | Hl].
    + left. constructor; assumption.
    + right. exists [], l, lines. repeat split; [constructor | exact Hl].
  - right. destruct (not_a_guess_dec l) as [Hl | Hl].
    + exists (l :: bad), guess, rest. repeat split; [constructor; assumption | exact Hg].
    + exists [], l, (bad ++ guess :: rest)%list.
      repeat split; [constructor | exact Hl].
Qed.

Lemma first_player_run (w : World) (bad : list string) (guess : string)
    (rest : list string) :
  stdin w = (bad ++ guess :: rest)%list ->
  Forall not_a_guess bad ->
  Py.strip guess = "0" \/ Py.strip guess = "1" ->
  exists number key digest g,
    FairNumberGenerator.generate_fair_number 1 w
    = (Ok (number, key, digest), advanced w 20 (stdin w) [])
    /\ 0 <= number <= 1
    /\ Py.int (Py.strip guess) = Ok g
    /\ _determine_first_player w
       = (Ok (g =? number),
          advanced w 20 rest
            ([(("I selected a random number (HMAC=" ++ digest ++ ").")
               ++ newline)%string;
              ("Guess the number: 0 or 1" ++ newline)%string]
             ++ reprompts "Your guess: " guess_again bad
             ++ ["Your guess: "; (reveal number key ++ newline)%string])).
Proof.
  intros Hin Hbad Hguess.
  destruct (determine_first_player_prefix w)
    as (number & key & digest & Hgen & Hnum & ->).
  rewrite Hin.
  rewrite (input_loop_skip "Your guess: " guess_again).
  - rewrite input_loop_step.
    match goal with |- context [guess_body number key guess ?w1] =>
      destruct (guess_body_accepts number key guess w1 Hguess) as (g & Hg & ->)
    end.
    exists number, key, digest, g.
    split; [rewrite <- Hin; exact Hgen |].
    split; [exact Hnum |]. split; [exact Hg |].
    unfold wrote, advanced. cbn [tape cursor stdin stdout].
    rewrite <- !app_assoc. reflexivity.
  - intros l Hl w0. apply guess_body_rejects.
    rewrite Forall_forall in Hbad. apply Hbad. exact Hl.
  - reflexivity.
Qed.

(** X9. Deciding who selects first: the digest of a number drawn from 0
    and 1 is printed before the first prompt; every line other than 0 or 1
    is answered with a request to guess again; the first line that is 0 or
    1 is the guess, and only then are the number and the key printed. The
    player selects first exactly when the guess equals the number. The
    protocol reads 20 bytes of entropy and the lines up to the guess. *)
Theorem first_player_transcript (w : World) (bad : list string)
    (guess : string) (rest : list string) :
  stdin w = (bad ++ guess :: rest)%list ->
  Forall not_a_guess bad ->
  Py.strip guess = "0" \/ Py.strip guess = "1" ->
  exists number key digest g,
    FairNumberGenerator.generate_fair_number 1 w
    = (Ok (number, key, digest), advanced w 20 (stdin w) [])
    /\ 0 <= number <= 1
    /\ Py.int (Py.strip guess) = Ok g
    /\ _determine_first_player w
       = (Ok (g =? number),
          advanced w 20 rest
            ([(("I selected a random number (HMAC=" ++ digest ++ ").")
               ++ newline)%string;
              ("Guess the number: 0 or 1" ++ newline)%string]
             ++ reprompts "Your guess: " guess_again bad
             ++ ["Your guess: "; (reveal number key ++ newline)%string])).
Proof. apply first_player_run. Qed.

Lemma first_player_transcript_witness :
  exists number key digest g,
    FairNumberGenerator.generate_fair_number 1 sample_world
    = (Ok (number, key, digest),
       advanced sample_world 20 (stdin sample_world) [])
    /\ 0 <= number <= 1
    /\ Py.int (Py.strip " 1 ") = Ok g
    /\ _determine_first_player sample_world
       = (Ok (g =? number),
          advanced sample_world 20 ["7"; "0"; "3"; "5"]
            ([(("I selected a random number (HMAC=" ++ digest ++ ").")
               ++ newline)%string;
              ("Guess the number: 0 or 1" ++ newline)%string]
             ++ reprompts "Your guess: " guess_again ["x"]
             ++ ["Your guess: "; (reveal number key ++ newline)%string])).
Proof.
  apply (first_player_transcript sample_world ["x"] " 1 " ["7"; "0"; "3"; "5"]).
  - reflexivity.
  - apply Forall_cons; [split; discriminate | apply Forall_nil].
  - right. reflexivity.
Defined.


End FirstChooser.

(* ================================================================== *)
(** * The player's selection *)
(* ================================================================== *)

Section PlayerSelection.

Import GameControllerM.

Lemma int_digits_nonneg (s : string) :
  forall acc, 0 <= acc -> 0 <= Py.int_digits s acc.
Proof.
  induction s as [| c s IH]; intros acc Hacc; cbn [Py.int_digits].
  - exact Hacc.
  - apply IH. lia.
Qed.

Lemma int_nonneg (s : string) (k : Z) : Py.int s = Ok k -> 0 <= k.
Proof.
  unfold Py.int. destruct s as [| c s]; [discriminate |].
  destruct (Py.all_chars _ _); [| discriminate].
  intros [= <-]. apply int_digits_nonneg. lia.
Qed.

Lemma for_each_print {A} (f : A -> string) (xs : list A) :
  forall w,
    for_each xs (fun x => print (f x)) w
    = (Ok tt, wrote w (map (fun x => (f x ++ newline)%string) xs)).
Proof.
  induction xs as [| x xs IH]; intros w; cbn [for_each map].
  - unfold ret, wrote. rewrite app_nil_r. destruct w; reflexivity.
  - unfold bind at 1. unfold print at 1, write at 1. rewrite IH.
    unfold wrote. cbn [tape cursor stdin stdout]. rewrite <- app_assoc.
    reflexivity.
Qed.

Lemma player_select_prefix (self : GameController) (w : World) :
  _player_select_die self w
  = input_loop "Your selection: " (select_body self) (stdin w)
      (wrote w (("Choose your dice:" ++ newline)%string
                :: offer (available_dice (state self)))).
Proof.
  unfold _player_select_die. unfold bind at 1. unfold print at 1, write at 1.
  unfold bind at 1. rewrite for_each_print.
  unfold while_true_input, wrote, offer. cbn [tape cursor stdin stdout].
  rewrite <- app_assoc. reflexivity.
Qed.

Lemma select_body_rejects (self : GameController) (line : string) (w : World) :
  rejected (Z.of_nat (List.length (available_dice (state self)))) line ->
  select_body self line w = (Ok None, wrote w [try_again]).
Proof.
  intros Hrej. unfold select_body.
  destruct (Py.isdigit (Py.strip line)) eqn:Hd; cbn [negb].
  - destruct Hrej as [Hno | (k & Hint & Hk)]; [congruence |].
    unfold bind at 1. unfold lift at 1. rewrite Hint.
    destruct (Z.geb_spec k (Z.of_nat (List.length (available_dice (state self)))));
      [reflexivity | lia].
  - reflexivity.
Qed.

(** Taking a die of the pool out of the pool. *)
Lemma select_die_present (st : GameState) (d : Die) :
  In d (available_dice st) ->
  exists before after,
    available_dice st = (before ++ d :: after)%list
    /\ ~ In d before
    /\ GameStateM.select_die st d = Ok (with_pool st (before ++ after)).
Proof.
  intros Hin.
  destruct (select_die_cases st d)
    as [[Hnot _] | (before & after & Hsplit & Hnot & Hsel)]; [contradiction |].
  exists before, after. repeat split; assumption.
Qed.

Lemma select_body_accepts (self : GameController) (line : string) (k : Z)
    (w : World) :
  contributes line k ->
  k < Z.of_nat (List.length (available_dice (state self))) ->
  exists d before after,
    nth_error (available_dice (state self)) (Z.to_nat k) = Some d
    /\ available_dice (state self) = (before ++ d :: after)%list
    /\ ~ In d before
    /\ select_body self line w
       = (Ok (Some (d, mkGameController (with_pool (state self) (before ++ after)))),
          w).
Proof.
  intros [Hd Hint] Hk.
  pose proof (int_nonneg _ _ Hint) as Hk0.
  destruct (getitem_in_range (available_dice (state self)) k ltac:(lia))
    as (d & Hget & Hnth).
  destruct (select_die_present (state self) d (nth_error_In _ _ Hnth))
    as (before & after & Hsplit & Hnot & Hsel).
  exists d, before, after. repeat split; try assumption.
  unfold select_body. rewrite Hd. cbn [negb].
  unfold bind at 1. unfold lift at 1. rewrite Hint.
  destruct (Z.geb_spec k (Z.of_nat (List.length (available_dice (state self)))));
    [lia |].
  unfold bind, lift, ret. rewrite Hget, Hsel. reflexivity.
Qed.



End PlayerSelection.

(* ================================================================== *)
(** * Selections in a row, and reset *)
(* ================================================================== *)

Section Selections.

Import GameStateM.

Lemma subsequence_refl {A} (xs : list A) : subsequence xs xs.
Proof. induction xs; constructor; assumption. Qed.

Lemma subsequence_trans {A} (xs ys zs : list A) :
  subsequence xs ys -> subsequence ys zs -> subsequence xs zs.
Proof.
  intros Hxy Hyz. revert xs Hxy.
  induction Hyz as [| z ys zs _ IH | y ys zs _ IH]; intros xs Hxy.
  - exact Hxy.
  - apply subsequence_skip. apply IH. exact Hxy.
  - inversion Hxy as [| y' xs' ys' Hsub | y' xs' ys' Hsub]; subst.
    + apply subsequence_skip. apply IH. exact Hsub.
    + apply subsequence_keep. apply IH. exact Hsub.
Qed.

Lemma subsequence_remove {A} (before after : list A) (x : A) :
  subsequence (before ++ after) (before ++ x :: after).
Proof.
  induction before as [| b before IH]; cbn [app].
  - apply subsequence_skip. apply subsequence_refl.
  - apply subsequence_keep. exact IH.
Qed.

Lemma subsequence_length {A} (xs ys : list A) :
  subsequence xs ys -> (List.length xs <= List.length ys)%nat.
Proof. induction 1; cbn [List.length]; lia. Qed.

(** X12. Selecting any dice one after the other never fails and never
    touches the original dice or the two selections; the pool that remains
    is the pool it started from with some dice taken out, at most one per
    selection, the others in their order; and [reset] afterwards gives the
    state that [reset] gives before. *)
Theorem selections_and_reset (ds : list Die) :
  forall st, exists st',
    select_all st ds = Ok st'
    /\ original_dice st' = original_dice st
    /\ player_die st' = player_die st
    /\ computer_die st' = computer_die st
    /\ subsequence (available_dice st') (available_dice st)
    /\ (List.length (available_dice st)
        <= List.length (available_dice st') + List.length ds)%nat
    /\ reset st' = reset st.
Proof.
  induction ds as [| d ds IH]; intros st; cbn [select_all].
  - exists st. repeat split; [apply subsequence_refl | cbn; lia].
  - destruct (select_die_cases st d)
      as [[_ Hsel] | (before & after & Hsplit & _ & Hsel)]; rewrite Hsel.
    + destruct (IH st) as (st' & Hall & Ho & Hp & Hc & Hsub & Hlen & Hreset).
      exists st'. repeat split; try assumption. cbn [List.length]. lia.
    + match goal with |- context [select_all ?st1 ds] =>
        destruct (IH st1) as (st' & Hall & Ho & Hp & Hc & Hsub & Hlen & Hreset)
      end.
      cbn [original_dice player_die computer_die available_dice] in *.
      exists st'. repeat split; try assumption.
      * rewrite Hsplit. eapply subsequence_trans; [exact Hsub |].
        apply subsequence_remove.
      * rewrite Hsplit. rewrite List.length_app in *. cbn [List.length]. lia.
Qed.

Lemma reset_init (dice : list Die) : reset (init dice) = init dice.
Proof. reflexivity. Qed.

End Selections.

(* ================================================================== *)
(** * More on the table *)
(* ================================================================== *)

Section TableMore.

Import TableGenerator.

Lemma pairs_where_nonneg (p : Z -> Z -> bool) (xs ys : list Z) :
  0 <= pairs_where p xs ys.
Proof.
  induction xs as [| x xs IHx]; [rewrite pairs_where_nil_l; lia |].
  rewrite pairs_where_cons_l.
  assert (0 <= pairs_where p [x] ys); [| lia].
  clear IHx.
  induction ys as [| y ys IHy]; [rewrite pairs_where_nil_r; lia |].
  rewrite pairs_where_single. unfold indicator. destruct (p x y); lia.
Qed.

Lemma pairs_where_all (p : Z -> Z -> bool) (xs ys : list Z) :
  (forall x y, In x xs -> In y ys -> p x y = true) ->
  pairs_where p xs ys = Z.of_nat (List.length xs) * Z.of_nat (List.length ys).
Proof.
  intros Hall. induction xs as [| x xs IHx]; [reflexivity |].
  rewrite pairs_where_cons_l, IHx.
  - assert (Hrow : pairs_where p [x] ys = Z.of_nat (List.length ys)).
    { assert (Hx : forall y, In y ys -> p x y = true).
      { intros y Hy. apply Hall; [left; reflexivity | exact Hy]. }
      clear IHx Hall. induction ys as [| y ys IHy]; [reflexivity |].
      rewrite pairs_where_single, IHy.
      - rewrite (Hx y (or_introl eq_refl)). cbn [indicator List.length]. lia.
      - intros y' Hy'. apply Hx. right. exact Hy'. }
    rewrite Hrow. cbn [List.length]. lia.
  - intros x' y Hx' Hy. apply Hall; [right; exact Hx' | exact Hy].
Qed.

Lemma pairs_where_none (p : Z -> Z -> bool) (xs ys : list Z) :
  (forall x y, In x xs -> In y ys -> p x y = false) ->
  pairs_where p xs ys = 0.
Proof.
  intros Hnone. induction xs as [| x xs IHx]; [reflexivity |].
  rewrite pairs_where_cons_l, IHx.
  - assert (Hrow : pairs_where p [x] ys = 0); [| lia].
    assert (Hx : forall y, In y ys -> p x y = false).
    { intros y Hy. apply Hnone; [left; reflexivity | exact Hy]. }
    clear IHx Hnone. induction ys as [| y ys IHy]; [reflexivity |].
    rewrite pairs_where_single, IHy.
    + rewrite (Hx y (or_introl eq_refl)). reflexivity.
    + intros y' Hy'. apply Hx. right. exact Hy'.
  - intros x' y Hx' Hy. apply Hnone; [right; exact Hx' | exact Hy].
Qed.

(** A face of the first die found on the second ties at least once. *)
Lemma ties_at_least (xs ys : list Z) :
  (forall x, In x xs -> In x ys) ->
  Z.of_nat (List.length xs) <= pairs_where Z.eqb xs ys.
Proof.
  intros Hsub. induction xs as [| x xs IHx]; [rewrite pairs_where_nil_l; cbn; lia |].
  rewrite pairs_where_cons_l.
  assert (Hrow : 1 <= pairs_where Z.eqb [x] ys).
  { specialize (Hsub x (or_introl eq_refl)). clear IHx.
    induction ys as [| y ys IHy]; [destruct Hsub |].
    rewrite pairs_where_single.
    pose proof (pairs_where_nonneg Z.eqb [x] ys) as Hnn.
    destruct Hsub as [-> | Hin].
    - rewrite Z.eqb_refl. cbn [indicator]. lia.
    - specialize (IHy Hin). unfold indicator. destruct (x =? y); lia. }
  assert (Hrest : Z.of_nat (List.length xs) <= pairs_where Z.eqb xs ys).
  { apply IHx. intros x' Hx'. apply Hsub. right. exact Hx'. }
  cbn [List.length]. lia.
Qed.

(** X13. By the counting formula a die never reaches one half against
    itself: of the [n * n] pairs of its faces at least [n] are ties and
    the others are won and lost in equal numbers, so the pairs won are at
    most [(n * n - n) / 2]. *)
Theorem self_comparison_by_formula (d : Die) :
  2 * wins d d + ties d d = DieM.len d * DieM.len d
  /\ DieM.len d <= ties d d
  /\ 2 * wins d d <= DieM.len d * DieM.len d - DieM.len d.
Proof.
  pose proof (pairs_conservation d d) as Hsum.
  unfold total in Hsum.
  assert (Hties : DieM.len d <= ties d d).
  { rewrite ties_pairs. unfold DieM.len. apply ties_at_least.
    intros x Hx. exact Hx. }
  split; [lia |]. split; [exact Hties | lia].
Qed.

(** X14. A die whose faces all beat every face of the other is shown with
    1.00; a die none of whose faces beats a face of the other, with 0.00. *)
Theorem dominant_and_dominated (die1 die2 : Die) :
  values die1 <> [] -> values die2 <> [] ->
  ((forall x y, In x (values die1) -> In y (values die2) -> y < x) ->
     _calculate_probability die1 die2 = Ok "1.00")
  /\ ((forall x y, In x (values die1) -> In y (values die2) -> x <= y) ->
        _calculate_probability die1 die2 = Ok "0.00").
Proof.
  intros H1 H2. pose proof (total_pos die1 die2 H1 H2) as Hpos.
  unfold _calculate_probability. split; intros Hall.
  - assert (Hw : wins die1 die2 = total die1 die2).
    { rewrite wins_pairs. unfold total, DieM.len. apply pairs_where_all.
      intros x y Hx Hy. specialize (Hall x y Hx Hy).
      destruct (Z.gtb_spec x y); [reflexivity | lia]. }
    rewrite Hw. set (t := total die1 die2) in *. unfold Float.true_div.
    destruct (Z.eqb_spec t 0) as [Hz | _]; [lia |]. cbn [negb].
    rewrite Z.sub_diag. cbn [Z.leb Z.compare]. rewrite Z.pow_0_r, Z.mul_1_r.
    rewrite Z.leb_refl. cbn [Z.sub Z.opp Z.add Z.pos_sub Z.leb Z.compare].
    unfold Float.round_half_even.
    rewrite (Z.mul_comm t), Z.div_mul, Z.mod_mul by lia.
    cbn [Z.mul Z.ltb Z.compare]. destruct (0 <? t) eqn:Ht.
    + vm_compute. reflexivity.
    + apply Z.ltb_ge in Ht. lia.
  - assert (Hw : wins die1 die2 = 0).
    { rewrite wins_pairs. apply pairs_where_none.
      intros x y Hx Hy. specialize (Hall x y Hx Hy).
      destruct (Z.gtb_spec x y); [lia | reflexivity]. }
    rewrite Hw. unfold Float.true_div.
    destruct (Z.eqb_spec (total die1 die2) 0) as [Hz | _]; [lia |].
    vm_compute. reflexivity.
Qed.

Lemma dominant_and_dominated_witness :
  _calculate_probability (mkDie [7; 8]) (mkDie [1; 2; 3]) = Ok "1.00"
  /\ _calculate_probability (mkDie [1; 2; 3]) (mkDie [3; 8]) = Ok "0.00".
Proof.
  split.
  - apply (proj1 (dominant_and_dominated (mkDie [7; 8]) (mkDie [1; 2; 3])
                    ltac:(discriminate) ltac:(discriminate))).
    cbn [values In]. intros x y Hx Hy. lia.
  - apply (proj2 (dominant_and_dominated (mkDie [1; 2; 3]) (mkDie [3; 8])
                    ltac:(discriminate) ltac:(discriminate))).
    cbn [values In]. intros x y Hx Hy. lia.
Defined.

Lemma round_half_even_error (n d : Z) :
  0 < d ->
  - d <= 2 * (d * Float.round_half_even n d - n) <= d.
Proof.
  intros Hd. unfold Float.round_half_even.
  pose proof (Z.div_mod n d ltac:(lia)) as Hdm.
  pose proof (Z.mod_pos_bound n d Hd) as Hr.
  set (q := n / d) in *. set (r := n mod d) in *.
  destruct (Z.ltb_spec (2 * r) d); [nia |].
  destruct (Z.ltb_spec d (2 * r)); [nia |].
  destruct (Z.even q); nia.
Qed.

Lemma wins_range (die1 die2 : Die) :
  0 <= wins die1 die2 <= total die1 die2.
Proof.
  pose proof (pairs_conservation die1 die2) as Hsum.
  rewrite !wins_pairs, ties_pairs in Hsum. rewrite wins_pairs.
  pose proof (pairs_where_nonneg Z.gtb (values die1) (values die2)).
  pose proof (pairs_where_nonneg Z.gtb (values die2) (values die1)).
  pose proof (pairs_where_nonneg Z.eqb (values die1) (values die2)).
  lia.
Qed.

(** The number of hundredths printed for [p / q] is within one of
    [100 * p / q]. *)
Lemma hundredths_accuracy (p q : Z) :
  0 <= p <= q -> 0 < q ->
  exists x,
    Float.true_div p q = Ok x
    /\ Z.abs (Float.hundredths x * q - 100 * p) < q.
Proof.
  intros Hp Hq. unfold Float.true_div.
  destruct (Z.eqb_spec q 0) as [Hz | _]; [lia |].
  destruct (Z.eqb_spec p 0) as [-> | Hp0].
  { eexists. split; [reflexivity |]. cbn. lia. }
  set (e0 := Z.log2 p - Z.log2 q).
  assert (He0 : e0 <= 0).
  { subst e0. pose proof (Z.log2_le_mono p q ltac:(lia)). lia. }
  set (e := if (if 0 <=? e0 then q * 2 ^ e0 <=? p else q <=? p * 2 ^ (- e0))
            then e0 else e0 - 1).
  assert (He : e <= 0) by (subst e; destruct (if 0 <=? e0 then _ else _); lia).
  set (s := 52 - e). assert (Hs : 52 <= s) by (subst s; lia).
  destruct (Z.leb_spec 0 s) as [_ | Hneg]; [| lia].
  eexists. split; [reflexivity |].
  unfold Float.hundredths. cbn [Float.expo Float.mant].
  destruct (Z.leb_spec 0 (- s)) as [Hbad | _]; [lia |].
  rewrite Z.opp_involutive.
  set (P := 2 ^ s).
  assert (HP : 2 ^ 52 <= P) by (subst P; apply Z.pow_le_mono_r; lia).
  change (2 ^ 52) with 4503599627370496 in HP.
  set (m := Float.round_half_even (p * P) q).
  set (k := Float.round_half_even (100 * m) P).
  pose proof (round_half_even_error (p * P) q Hq) as Hm. fold m in Hm.
  pose proof (round_half_even_error (100 * m) P ltac:(lia)) as Hk. fold k in Hk.
  assert (Hmain : - (q * P) < P * (k * q - 100 * p) < q * P) by nia.
  apply Z.abs_lt. nia.
Qed.

(** X15. An entry of the table off the diagonal is the probability that
    the die of the row beats the die of the column, in hundredths: a text
    of four characters for a number of hundredths from 0 to 100 that is
    within one hundredth of the exact quotient of the pairs won by all
    pairs. *)
Theorem table_cell_accuracy (die1 die2 : Die) :
  values die1 <> [] -> values die2 <> [] ->
  exists s x,
    _calculate_probability die1 die2 = Ok s
    /\ Float.true_div (wins die1 die2) (total die1 die2) = Ok x
    /\ s = Float.format_2f x
    /\ 0 <= Float.hundredths x <= 100
    /\ Z.abs (Float.hundredths x * total die1 die2 - 100 * wins die1 die2)
       < total die1 die2
    /\ String.length s = 4%nat.
Proof.
  intros H1 H2. pose proof (total_pos die1 die2 H1 H2) as Hpos.
  pose proof (wins_range die1 die2) as Hw.
  destruct (hundredths_accuracy _ _ Hw Hpos) as (x & Hx & Hacc).
  unfold _calculate_probability. rewrite Hx.
  exists (Float.format_2f x), x.
  split; [reflexivity |]. split; [reflexivity |]. split; [reflexivity |].
  set (k := Float.hundredths x) in *.
  apply Z.abs_lt in Hacc.
  assert (Hk : 0 <= k <= 100) by nia.
  split; [exact Hk |]. split; [apply Z.abs_lt; exact Hacc |].
  unfold Float.format_2f. fold k.
  rewrite string_length_app. cbn [String.length String.append].
  assert (Hlead : k / 100 = 0 \/ k / 100 = 1).
  { destruct (Z.eq_dec k 100) as [-> | Hne]; [right; reflexivity |].
    left. apply Z.div_small. lia. }
  destruct Hlead as [-> | ->]; reflexivity.
Qed.

Lemma table_cell_accuracy_witness :
  exists s x,
    _calculate_probability die_a die_b = Ok s
    /\ Float.true_div (wins die_a die_b) (total die_a die_b) = Ok x
    /\ s = Float.format_2f x
    /\ 0 <= Float.hundredths x <= 100
    /\ Z.abs (Float.hundredths x * total die_a die_b - 100 * wins die_a die_b)
       < total die_a die_b
    /\ String.length s = 4%nat.
Proof.
  apply (table_cell_accuracy die_a die_b); discriminate.
Defined.

End TableMore.

(* ================================================================== *)
(** * A whole game *)
(* ================================================================== *)

Section WholeGame.

Import GameControllerM.

Lemma consumed_refl (w : World) : consumed 0 w w.
Proof. split; [reflexivity | lia]. Qed.

Lemma consumed_trans (a b : nat) (w w1 w2 : World) :
  consumed a w w1 -> consumed b w1 w2 -> consumed (a + b) w w2.
Proof. intros [Ht1 Hc1] [Ht2 Hc2]. split; [congruence | lia]. Qed.

Lemma print_inv (s : string) (w w' : World) (r : result unit) :
  print s w = (r, w') ->
  r = Ok tt /\ consumed 0 w w' /\ stdout w' = (stdout w ++ [(s ++ newline)%string])%list.
Proof.
  unfold print, write, consumed. intros [= <- <-]. cbn [tape cursor stdout].
  repeat split. lia.
Qed.

Ltac outcome_cases :=
  unfold bind, lift, print, write, ret;
  repeat match goal with
         | |- context [if ?b then _ else _] => destruct b
         | |- context [match ?r with Ok _ => _ | Raise _ => _ end] => destruct r
         end;
  intros ? ? ? H; inversion H; subst; cbn [tape cursor];
  try (split; [reflexivity | lia]).

Lemma guess_body_consumed (number : Z) (key : list byte) (line : string) :
  forall w r w', guess_body number key line w = (r, w') -> consumed 0 w w'.
Proof. unfold guess_body, consumed. outcome_cases. Qed.

Lemma throw_body_consumed (die : Die) (e : Z) (key : list byte) (line : string) :
  forall w r w', throw_body die e key line w = (r, w') -> consumed 0 w w'.
Proof. unfold throw_body, consumed, Py.pymod. outcome_cases. Qed.

Lemma select_body_consumed (self : GameController) (line : string) :
  forall w r w', select_body self line w = (r, w') -> consumed 0 w w'.
Proof. unfold select_body, consumed. outcome_cases. Qed.

Lemma input_loop_consumed {A} (prompt : string) (body : string -> M (option A))
    (lines : list string) :
  (forall l w r w', body l w = (r, w') -> consumed 0 w w') ->
  forall w r w', input_loop prompt body lines w = (r, w') -> consumed 0 w w'.
Proof.
  intros Hbody. induction lines as [| line rest IH]; intros w r w' Hloop.
  - cbn [input_loop] in Hloop. unfold bind, write, raise in Hloop.
    injection Hloop as _ <-. split; [reflexivity | cbn; lia].
  - rewrite input_loop_step in Hloop.
    destruct (body line _) as [[[v |] | e] w1] eqn:Hb;
      apply Hbody in Hb; destruct Hb as [Ht Hc]; cbn [tape cursor] in Ht, Hc.
    + injection Hloop as _ <-. split; [exact Ht | exact Hc].
    + apply IH in Hloop. destruct Hloop as [Ht' Hc'].
      split; [congruence | lia].
    + injection Hloop as _ <-. split; [exact Ht | exact Hc].
Qed.

Lemma for_each_consumed {A} (body : A -> M unit) (xs : list A) :
  (forall x w r w', body x w = (r, w') -> consumed 0 w w') ->
  forall w r w', for_each xs body w = (r, w') -> consumed 0 w w'.
Proof.
  intros Hbody. induction xs as [| x xs IH]; intros w r w' Hrun;
    cbn [for_each] in Hrun.
  - unfold ret in Hrun. injection Hrun as _ <-. apply consumed_refl.
  - unfold bind in Hrun. destruct (body x w) as [[u | e] w1] eqn:Hb;
      apply Hbody in Hb.
    + apply IH in Hrun. apply (consumed_trans 0 0 _ _ _ Hb Hrun).
    + injection Hrun as _ <-. exact Hb.
Qed.

Lemma generate_table_consumed (dice : list Die) :
  forall w r w', TableGenerator.generate_table dice w = (r, w') -> consumed 0 w w'.
Proof.
  intros w r w' Hrun. unfold TableGenerator.generate_table in Hrun.
  unfold bind at 1 in Hrun. unfold print at 1, write at 1 in Hrun.
  unfold bind at 1 in Hrun. unfold print at 1, write at 1 in Hrun.
  apply for_each_consumed in Hrun.
  - destruct Hrun as [Ht Hc]. cbn [tape cursor] in Ht, Hc.
    split; assumption.
  - intros [i d]. unfold consumed. cbn [fst snd].
    destruct (TableGenerator.row dice i d); outcome_cases.
Qed.

Lemma generate_fair_number_inv (max_value : Z) (w w' : World)
    (t : Z * list byte * string) :
  FairNumberGenerator.generate_fair_number max_value w = (Ok t, w') ->
  0 <= max_value /\ consumed 20 w w'.
Proof.
  intros Hrun. destruct (Z.lt_ge_cases max_value 0) as [Hneg | Hge].
  - unfold FairNumberGenerator.generate_fair_number in Hrun.
    unfold bind at 1 in Hrun. cbn [urandom] in Hrun. unfold bind in Hrun.
    rewrite generate_uniform_random_negative in Hrun by exact Hneg.
    discriminate.
  - split; [exact Hge |].
    rewrite generate_fair_number_ok in Hrun by exact Hge.
    cbv zeta in Hrun. injection Hrun as _ <-.
    split; [reflexivity | cbn; lia].
Qed.

Lemma determine_first_player_inv (w w' : World) (r : result bool) :
  _determine_first_player w = (r, w') -> consumed 20 w w'.
Proof.
  destruct (determine_first_player_prefix w)
    as (number & key & digest & _ & _ & ->).
  intros Hloop.
  apply (input_loop_consumed _ _ _ (guess_body_consumed number key)) in Hloop.
  destruct Hloop as [Ht Hc]. cbn [advanced tape cursor] in Ht, Hc.
  split; [exact Ht | lia].
Qed.

Lemma make_throw_ok_inv (context : string) (die : Die) (w w' : World)
    (face : Z) :
  _make_throw context die w = (Ok face, w') ->
  In face (values die) /\ consumed 20 w w'.
Proof.
  intros Hrun. unfold _make_throw in Hrun.
  apply bind_ok_inv in Hrun. destruct Hrun as ([[e key] digest] & w1 & Hgen & Hrun).
  apply generate_fair_number_inv in Hgen. destruct Hgen as [_ Hc1].
  apply bind_ok_inv in Hrun. destruct Hrun as (u1 & w2 & Hp1 & Hrun).
  apply print_inv in Hp1. destruct Hp1 as (_ & Hc2 & _).
  apply bind_ok_inv in Hrun. destruct Hrun as (u2 & w3 & Hp2 & Hrun).
  apply print_inv in Hp2. destruct Hp2 as (_ & Hc3 & _).
  apply bind_ok_inv in Hrun. destruct Hrun as (u3 & w4 & Hfor & Hrun).
  apply for_each_consumed in Hfor.
  2: { intros i. unfold consumed.
       destruct (DieM.getitem die i); outcome_cases. }
  unfold while_true_input in Hrun.
  pose proof (input_loop_consumed _ _ _ (throw_body_consumed die e key) _ _ _ Hrun)
    as Hc5.
  apply input_loop_ok_inv in Hrun. destruct Hrun as (line & w5 & _ & Hbody).
  split; [apply (throw_body_face _ _ _ _ _ _ _ Hbody) |].
  pose proof (consumed_trans _ _ _ _ _ Hc1 Hc2) as H12.
  pose proof (consumed_trans _ _ _ _ _ H12 Hc3) as H13.
  pose proof (consumed_trans _ _ _ _ _ H13 Hfor) as H14.
  pose proof (consumed_trans _ _ _ _ _ H14 Hc5) as H15.
  exact H15.
Qed.

Lemma select_body_ok_inv (self : GameController) (line : string)
    (w w' : World) (d : Die) (self' : GameController) :
  select_body self line w = (Ok (Some (d, self')), w') ->
  exists before after,
    available_dice (state self) = (before ++ d :: after)%list
    /\ state self' = with_pool (state self) (before ++ after).
Proof.
  unfold select_body.
  destruct (negb _).
  { unfold bind, print, write, ret. discriminate. }
  intros H. apply bind_ok_inv in H. destruct H as (n & w1 & _ & H).
  destruct (n >=? _).
  { unfold bind, print, write, ret in H. discriminate. }
  apply bind_ok_inv in H. destruct H as (d0 & w2 & Hget & H).
  apply bind_ok_inv in H. destruct H as (st & w3 & Hsel & H).
  unfold ret in H. injection H as <- <- _.
  unfold lift in Hget, Hsel. injection Hget as Hget _. injection Hsel as Hsel _.
  apply getitem_ok_in in Hget.
  destruct (select_die_present (state self) d0 Hget)
    as (before & after & Hsplit & _ & Hsel').
  rewrite Hsel' in Hsel. injection Hsel as <-.
  exists before, after. split; [exact Hsplit | reflexivity].
Qed.

Lemma player_select_ok_inv (self self' : GameController) (w w' : World)
    (d : Die) :
  _player_select_die self w = (Ok (d, self'), w') ->
  consumed 0 w w'
  /\ exists before after,
       available_dice (state self) = (before ++ d :: after)%list
       /\ state self' = with_pool (state self) (before ++ after).
Proof.
  rewrite player_select_prefix. intros Hloop. split.
  - apply (input_loop_consumed _ _ _ (select_body_consumed self)) in Hloop.
    destruct Hloop as [Ht Hc]. cbn [wrote tape cursor] in Ht, Hc.
    split; assumption.
  - apply input_loop_ok_inv in Hloop. destruct Hloop as (line & w1 & _ & Hbody).
    apply (select_body_ok_inv _ _ _ _ _ _ Hbody).
Qed.

Lemma computer_select_ok_inv (self self' : GameController) (w w' : World)
    (d : Die) :
  _computer_select_die self w = (Ok (d, self'), w') ->
  consumed 4 w w'
  /\ exists before after,
       available_dice (state self) = (before ++ d :: after)%list
       /\ state self' = with_pool (state self) (before ++ after).
Proof.
  unfold _computer_select_die.
  destruct (available_dice (state self)) as [| d0 rest] eqn:Hav.
  { unfold raise. discriminate. }
  rewrite <- Hav. intros H.
  apply bind_ok_inv in H. destruct H as (choice & w1 & Hdraw & H).
  assert (Hmax : 0 <= Z.of_nat (List.length (available_dice (state self))) - 1).
  { rewrite Hav. cbn [List.length]. lia. }
  rewrite generate_uniform_random_ok in Hdraw by exact Hmax.
  injection Hdraw as _ <-.
  apply bind_ok_inv in H. destruct H as (d1 & w2 & Hget & H).
  apply bind_ok_inv in H. destruct H as (st & w3 & Hsel & H).
  unfold ret in H. injection H as <- <- <-.
  unfold lift in Hget, Hsel. injection Hget as Hget <-. injection Hsel as Hsel <-.
  split; [split; [reflexivity | cbn; lia] |].
  apply getitem_ok_in in Hget.
  destruct (select_die_present (state self) d1 Hget)
    as (before & after & Hsplit & _ & Hsel').
  rewrite Hsel' in Hsel. injection Hsel as <-.
  exists before, after. split; [exact Hsplit | reflexivity].
Qed.

Ltac step H x w1 Hs :=
  apply bind_ok_inv in H; destruct H as (x & w1 & Hs & H).

Ltac printed H w1 Hc Hout :=
  let u := fresh "u" in
  let Hp := fresh "Hp" in
  step H u w1 Hp; apply print_inv in Hp; destruct Hp as (_ & Hc & Hout).

(** The two selections, in either order: each die comes out of the pool
    the other left. *)
Lemma selections_inv (player_first : bool) (self self' : GameController)
    (w w' : World) (pd cd : Die) :
  (if player_first then
     print "You will select your die first." ;;;
     '(pd, self) <- _player_select_die self ;;
     let self := set_player_die self pd in
     '(cd, self) <- _computer_select_die self ;;
     ret (pd, cd, set_computer_die self cd)
   else
     print "Computer will select its die first." ;;;
     '(cd, self) <- _computer_select_die self ;;
     let self := set_computer_die self cd in
     '(pd, self) <- _player_select_die self ;;
     ret (pd, cd, set_player_die self pd)) w
  = (Ok (pd, cd, self'), w') ->
  consumed 4 w w'
  /\ player_die (state self') = Some pd
  /\ computer_die (state self') = Some cd
  /\ original_dice (state self') = original_dice (state self)
  /\ Permutation (available_dice (state self))
       (pd :: cd :: available_dice (state self')).
Proof.
  destruct player_first; intros H.
  - printed H w1 Hc1 Ho1.
    step H r1 w2 Hsel1. destruct r1 as [pd0 selfA].
    apply player_select_ok_inv in Hsel1.
    destruct Hsel1 as (Hc2 & b1 & a1 & Hsplit1 & HstA).
    cbv zeta in H.
    step H r2 w3 Hsel2. destruct r2 as [cd0 selfB].
    apply computer_select_ok_inv in Hsel2.
    destruct Hsel2 as (Hc3 & b2 & a2 & Hsplit2 & HstB).
    unfold ret in H. injection H as <- <- <- <-.
    cbn [set_player_die set_computer_die state available_dice original_dice
         player_die computer_die] in *.
    rewrite HstA in Hsplit2, HstB. rewrite HstB.
    cbn [with_pool available_dice original_dice player_die computer_die] in *.
    split.
    { pose proof (consumed_trans _ _ _ _ _ Hc1 Hc2) as H12.
      exact (consumed_trans _ _ _ _ _ H12 Hc3). }
    repeat split.
    rewrite Hsplit1.
    apply Permutation_trans with (pd0 :: (b1 ++ a1)%list).
    + apply Permutation_sym, Permutation_middle.
    + apply perm_skip. rewrite Hsplit2.
      apply Permutation_sym, Permutation_middle.
  - printed H w1 Hc1 Ho1.
    step H r1 w2 Hsel1. destruct r1 as [cd0 selfA].
    apply computer_select_ok_inv in Hsel1.
    destruct Hsel1 as (Hc2 & b1 & a1 & Hsplit1 & HstA).
    cbv zeta in H.
    step H r2 w3 Hsel2. destruct r2 as [pd0 selfB].
    apply player_select_ok_inv in Hsel2.
    destruct Hsel2 as (Hc3 & b2 & a2 & Hsplit2 & HstB).
    unfold ret in H. injection H as <- <- <- <-.
    cbn [set_player_die set_computer_die state available_dice original_dice
         player_die computer_die] in *.
    rewrite HstA in Hsplit2, HstB. rewrite HstB.
    cbn [with_pool available_dice original_dice player_die computer_die] in *.
    split.
    { pose proof (consumed_trans _ _ _ _ _ Hc1 Hc2) as H12.
      exact (consumed_trans _ _ _ _ _ H12 Hc3). }
    repeat split.
    rewrite Hsplit1.
    apply Permutation_trans with (cd0 :: (b1 ++ a1)%list).
    + apply Permutation_sym, Permutation_middle.
    + rewrite Hsplit2.
      apply Permutation_trans with (cd0 :: pd0 :: (b2 ++ a2)%list).
      * apply perm_skip. apply Permutation_sym, Permutation_middle.
      * apply perm_swap.
Qed.

(** X16. A game that runs to its end: the player and the computer each
    hold a die, and these two dice together with the pool that is left are
    the dice of the pool at the start, each once; the original dice are
    untouched. Each score is a face of the die of its party, and the last
    three lines printed are the two scores and the verdict that compares
    them. The game has read 64 bytes of entropy: 20 for each of its three
    commitments and 4 for the computer's selection. *)
Theorem start_game_outcome (self self' : GameController) (w w' : World) :
  start_game self w = (Ok self', w') ->
  exists pd cd ps cs out,
    player_die (state self') = Some pd
    /\ computer_die (state self') = Some cd
    /\ original_dice (state self') = original_dice (state self)
    /\ Permutation (available_dice (state self))
         (pd :: cd :: available_dice (state self'))
    /\ In ps (values pd)
    /\ In cs (values cd)
    /\ consumed 64 w w'
    /\ stdout w'
       = (out
          ++ [((newline ++ "Your score: " ++ Py.str ps) ++ newline)%string;
              (("Computer's score: " ++ Py.str cs) ++ newline)%string;
              (verdict ps cs ++ newline)%string])%list.
Proof.
  intros H. unfold start_game in H.
  printed H w1 Hc1 Ho1.
  step H u2 w2 Htab. apply generate_table_consumed in Htab.
  printed H w3 Hc3 Ho3.
  step H player_first w4 Hfirst. apply determine_first_player_inv in Hfirst.
  step H picks w5 Hpicks. destruct picks as [[pd cd] self1].
  apply selections_inv in Hpicks.
  destruct Hpicks as (Hc5 & Hpd & Hcd & Horig & Hperm).
  printed H w6 Hc6 Ho6.
  printed H w7 Hc7 Ho7.
  printed H w8 Hc8 Ho8.
  step H ps w9 Hthrow1. apply make_throw_ok_inv in Hthrow1.
  destruct Hthrow1 as [Hps Hc9].
  step H cs w10 Hthrow2. apply make_throw_ok_inv in Hthrow2.
  destruct Hthrow2 as [Hcs Hc10].
  printed H w11 Hc11 Ho11.
  printed H w12 Hc12 Ho12.
  assert (Hverdict : exists w13,
             print (verdict ps cs) w12 = (Ok tt, w13) /\ ret self1 w13 = (Ok self', w')).
  { step H u13 w13 Hp13. exists w13. split; [| exact H].
    unfold verdict. destruct (ps >? cs); [destruct u13; exact Hp13 |].
    destruct (ps <? cs); destruct u13; exact Hp13. }
  clear H. destruct Hverdict as (w13 & Hp13 & H).
  apply print_inv in Hp13. destruct Hp13 as (_ & Hc13 & Ho13).
  unfold ret in H. injection H as <- <-.
  exists pd, cd, ps, cs, (stdout w10).
  repeat split; try assumption.
  - destruct Hc1, Htab, Hc3, Hfirst, Hc5, Hc6, Hc7, Hc8, Hc9, Hc10, Hc11, Hc12, Hc13.
    congruence.
  - destruct Hc1, Htab, Hc3, Hfirst, Hc5, Hc6, Hc7, Hc8, Hc9, Hc10, Hc11, Hc12, Hc13.
    lia.
  - rewrite Ho13, Ho12, Ho11. rewrite <- !app_assoc. reflexivity.
Qed.

Lemma start_game_outcome_witness :
  exists self' w' pd cd ps cs out,
    start_game (mkGameController (GameStateM.init [die_a; die_b; die_c]))
      sample_world = (Ok self', w')
    /\ player_die (state self') = Some pd
    /\ computer_die (state self') = Some cd
    /\ Permutation [die_a; die_b; die_c]
         (pd :: cd :: available_dice (state self'))
    /\ In ps (values pd)
    /\ In cs (values cd)
    /\ consumed 64 sample_world w'
    /\ stdout w'
       = (out
          ++ [((newline ++ "Your score: " ++ Py.str ps) ++ newline)%string;
              (("Computer's score: " ++ Py.str cs) ++ newline)%string;
              (verdict ps cs ++ newline)%string])%list.
Proof.
  destruct (start_game (mkGameController (GameStateM.init [die_a; die_b; die_c]))
              sample_world) as [[self' | e] w'] eqn:Hrun;
    [| vm_compute in Hrun; discriminate Hrun].
  destruct (start_game_outcome _ _ _ _ Hrun)
    as (pd & cd & ps & cs & out & Hpd & Hcd & _ & Hperm & Hps & Hcs & Hc & Hout).
  exists self', w', pd, cd, ps, cs, out.
  split; [reflexivity |]. split; [exact Hpd |]. split; [exact Hcd |].
  split; [exact Hperm |]. split; [exact Hps |]. split; [exact Hcs |].
  split; [exact Hc | exact Hout].
Defined.

End WholeGame.

(* ================================================================== *)
(** * Reading dice from the command line *)
(* ================================================================== *)

Section CommandLine.

Lemma str_nonneg_digits (c : Z) :
  0 <= c ->
  Py.all_chars Py.is_ascii_digit (Py.str_nonneg c) = true
  /\ Py.str_nonneg c <> EmptyString
  /\ Py.int_digits (Py.str_nonneg c) 0 = c.
Proof.
  intros Hc. unfold Py.str_nonneg.
  set (fuel := Z.to_nat (Z.log2 c)).
  split; [apply digits_aux_all_digits; [exact Hc | reflexivity] |].
  split; [apply digits_aux_not_empty |].
  rewrite int_digits_digits_aux; [reflexivity |].
  split; [exact Hc |]. subst fuel.
  rewrite Nat2Z.inj_succ, Z2Nat.id by apply Z.log2_nonneg.
  destruct (Z.eq_dec c 0) as [-> | Hnz]; [reflexivity |].
  apply Z.log2_spec. lia.
Qed.

Lemma digit_code (c : ascii) :
  Py.is_ascii_digit c = true ->
  (48 <= nat_of_ascii c <= 57)%nat.
Proof.
  unfold Py.is_ascii_digit. intros H. apply andb_true_iff in H.
  destruct H as [H1 H2]. apply Nat.leb_le in H1. apply Nat.leb_le in H2. lia.
Qed.

Lemma to_ascii_digits (s : string) :
  Py.all_chars Py.is_ascii_digit s = true -> Text.to_ascii s = Some s.
Proof.
  induction s as [| c s IH]; [reflexivity |]. cbn [Py.all_chars Text.to_ascii].
  intros H. apply andb_true_iff in H. destruct H as [Hc Hs].
  pose proof (digit_code c Hc) as Hcode.
  destruct (Nat.leb_spec (nat_of_ascii c) 127); [| lia].
  rewrite (IH Hs). reflexivity.
Qed.

Lemma scan_digits (s : string) :
  Py.all_chars Py.is_ascii_digit s = true ->
  forall b acc count,
    s <> EmptyString \/ b = false ->
    Text.scan s b acc count
    = Some (Py.int_digits s acc, (count + String.length s)%nat, EmptyString).
Proof.
  induction s as [| c s IH]; intros Hall b acc count Hb.
  - destruct Hb as [Hb | ->]; [congruence |]. cbn. rewrite Nat.add_0_r.
    reflexivity.
  - cbn [Py.all_chars] in Hall. apply andb_true_iff in Hall.
    destruct Hall as [Hc Hs].
    cbn [Text.scan Py.int_digits String.length]. rewrite Hc.
    rewrite (IH Hs) by (right; reflexivity).
    do 3 f_equal. lia.
Qed.

Lemma digit_first (c : ascii) (s : string) :
  Py.is_ascii_digit c = true ->
  Text.skip_blanks (String c s) = String c s
  /\ Ascii.eqb c "+" = false /\ Ascii.eqb c "-" = false
  /\ Ascii.eqb c "_" = false /\ Ascii.eqb c "," = false.
Proof.
  intros Hc. pose proof (digit_code c Hc) as Hcode.
  assert (Hne : forall k : nat,
             (k < 48 \/ 57 < k)%nat -> (k < 256)%nat ->
             Ascii.eqb c (ascii_of_nat k) = false).
  { intros k Hk Hk'. apply Ascii.eqb_neq. intros ->.
    rewrite nat_ascii_embedding in Hcode by lia. lia. }
  split.
  - cbn [Text.skip_blanks]. unfold Text.is_blank.
    destruct (Nat.leb_spec 9 (nat_of_ascii c)); cbn [andb orb];
      [destruct (Nat.leb_spec (nat_of_ascii c) 13); [lia |] |];
      cbn [orb]; destruct (Nat.eqb_spec (nat_of_ascii c) 32); try lia;
      reflexivity.
  - repeat split.
    + apply (Hne 43%nat); lia.
    + apply (Hne 45%nat); lia.
    + apply (Hne 95%nat); lia.
    + apply (Hne 44%nat); lia.
Qed.

Lemma literal_digits (s : string) :
  Py.all_chars Py.is_ascii_digit s = true -> s <> EmptyString ->
  Text.literal s = Some (Py.int_digits s 0)
  /\ Text.literal (String "-" s) = Some (- Py.int_digits s 0).
Proof.
  intros Hall Hne. destruct s as [| c s]; [congruence |].
  assert (Hc : Py.is_ascii_digit c = true).
  { cbn [Py.all_chars] in Hall. apply andb_true_iff in Hall. apply Hall. }
  destruct (digit_first c s Hc) as (Hskip & Hplus & Hminus & Hunder & _).
  assert (Hshape : forall A (x y z : A),
             match String c s with
             | String "+"%char r => x
             | String "-"%char r => y
             | _ => z
             end = z).
  { intros A x y z. apply Ascii.eqb_neq in Hplus, Hminus.
    destruct c as [[] [] [] [] [] [] [] []]; try reflexivity; congruence. }
  assert (Hunder' : forall A (x y : A),
             match String c s with
             | String "_"%char _ => x
             | _ => y
             end = y).
  { intros A x y. apply Ascii.eqb_neq in Hunder.
    destruct c as [[] [] [] [] [] [] [] []]; try reflexivity; congruence. }
  split.
  - unfold Text.literal. rewrite (to_ascii_digits _ Hall), Hskip.
    rewrite Hshape, Hunder'.
    rewrite (scan_digits _ Hall) by (left; discriminate).
    cbn [String.length Nat.add Text.skip_blanks]. f_equal; lia.
  - assert (Hm : forall t, Text.to_ascii (String "-" t)
                           = option_map (String "-"%char) (Text.to_ascii t))
      by reflexivity.
    assert (Hb : forall t, Text.skip_blanks (String "-" t) = String "-" t)
      by reflexivity.
    unfold Text.literal. rewrite Hm, (to_ascii_digits _ Hall).
    cbn [option_map]. rewrite Hb. cbv beta iota zeta.
    rewrite Hunder'.
    rewrite (scan_digits _ Hall) by (left; discriminate).
    cbn [String.length Nat.add Text.skip_blanks]. f_equal; lia.
Qed.

(** [int] reads back what [str] writes. *)
Lemma int_str (z : Z) : Text.int (Py.str z) = Ok z.
Proof.
  unfold Text.int, Py.str. destruct (Z.ltb_spec z 0) as [Hneg | Hpos].
  - destruct (str_nonneg_digits (- z) ltac:(lia)) as (Hall & Hne & Hval).
    rewrite (proj2 (literal_digits _ Hall Hne)), Hval. f_equal. lia.
  - destruct (str_nonneg_digits z Hpos) as (Hall & Hne & Hval).
    rewrite (proj1 (literal_digits _ Hall Hne)), Hval. reflexivity.
Qed.

Lemma split_not_nil (sep : ascii) (s : string) : Text.split sep s <> [].
Proof.
  destruct s as [| c s]; cbn [Text.split]; [discriminate |].
  destruct (Ascii.eqb c sep); [discriminate |].
  destruct (Text.split sep s); discriminate.
Qed.

Lemma split_without (sep : ascii) (s : string) :
  Text.contains sep s = false -> Text.split sep s = [s].
Proof.
  induction s as [| c s IH]; [reflexivity |]. cbn [Text.contains Text.split].
  intros H. apply orb_false_iff in H. destruct H as [Hc Hs].
  rewrite Ascii.eqb_sym, Hc, (IH Hs). reflexivity.
Qed.

Lemma split_app (sep : ascii) (s t : string) :
  Text.contains sep s = false ->
  Text.split sep (s ++ String sep t) = s :: Text.split sep t.
Proof.
  induction s as [| c s IH]; cbn [Text.contains String.append Text.split].
  - intros _. rewrite Ascii.eqb_refl. reflexivity.
  - intros H. apply orb_false_iff in H. destruct H as [Hc Hs].
    rewrite Ascii.eqb_sym, Hc, (IH Hs). reflexivity.
Qed.

Lemma contains_digits (sep : ascii) (s : string) :
  Py.is_ascii_digit sep = false ->
  Py.all_chars Py.is_ascii_digit s = true ->
  Text.contains sep s = false.
Proof.
  intros Hsep. induction s as [| c s IH]; [reflexivity |].
  cbn [Py.all_chars Text.contains]. intros H. apply andb_true_iff in H.
  destruct H as [Hc Hs]. rewrite (IH Hs), orb_false_r.
  apply Ascii.eqb_neq. intros <-. congruence.
Qed.

Lemma str_no_comma (z : Z) : Text.contains "," (Py.str z) = false.
Proof.
  unfold Py.str. destruct (Z.ltb_spec z 0) as [Hneg | Hpos].
  - destruct (str_nonneg_digits (- z) ltac:(lia)) as (Hall & _ & _).
    cbn [Text.contains].
    rewrite (contains_digits ","%char _ eq_refl Hall). reflexivity.
  - destruct (str_nonneg_digits z Hpos) as (Hall & _ & _).
    apply (contains_digits ","%char _ eq_refl Hall).
Qed.

Lemma split_spell (vs : list Z) :
  vs <> [] -> Text.split "," (spell vs) = map Py.str vs.
Proof.
  unfold spell. induction vs as [| v vs IH]; [congruence |]. intros _.
  destruct vs as [| v' vs].
  - cbn [map Py.join]. apply split_without, str_no_comma.
  - change (Py.join "," (map Py.str (v :: v' :: vs)))
      with (Py.str v ++ String "," (Py.join "," (map Py.str (v' :: vs))))%string.
    rewrite split_app by apply str_no_comma.
    rewrite IH by discriminate. reflexivity.
Qed.

Lemma parse_values_spell (vs : list Z) :
  vs <> [] -> parse_values (spell vs) = Ok vs.
Proof.
  intros Hne. unfold parse_values. rewrite (split_spell vs Hne).
  clear Hne. induction vs as [| v vs IH]; [reflexivity |].
  cbn [map map_result]. rewrite int_str, IH. reflexivity.
Qed.

Lemma parse_dice_loop_spelled (dice : list (list Z)) :
  Forall (fun vs => vs <> []) dice ->
  forall acc w,
    parse_dice_loop (map spell dice) acc w = (Returned (acc ++ dice)%list, w).
Proof.
  induction 1 as [| vs dice Hvs _ IH]; intros acc w; cbn [map parse_dice_loop].
  - rewrite app_nil_r. reflexivity.
  - rewrite (parse_values_spell vs Hvs).
    destruct vs as [| v vs]; [congruence |].
    rewrite IH, <- app_assoc. reflexivity.
Qed.



Lemma map_result_length {A B} (f : A -> result B) (xs : list A) :
  forall ys, map_result f xs = Ok ys -> List.length ys = List.length xs.
Proof.
  induction xs as [| x xs IH]; intros ys; cbn [map_result].
  - intros [= <-]. reflexivity.
  - destruct (f x); [| discriminate].
    destruct (map_result f xs) as [ys' |]; [| discriminate].
    intros [= <-]. cbn [List.length]. rewrite (IH ys' eq_refl). reflexivity.
Qed.

Lemma map_result_raise {A B} (f : A -> result B) (xs : list A) (e : exn) :
  map_result f xs = Raise e -> exists x, In x xs /\ f x = Raise e.
Proof.
  induction xs as [| x xs IH]; cbn [map_result]; [discriminate |].
  destruct (f x) as [y | e0] eqn:Hx.
  - destruct (map_result f xs) as [ys | e1]; [discriminate |].
    intros [= <-]. destruct (IH eq_refl) as (x' & Hin & Hx').
    exists x'. split; [right; exact Hin | exact Hx'].
  - intros [= <-]. exists x. split; [left; reflexivity | exact Hx].
Qed.

Lemma text_int_raise (piece : string) (e : exn) :
  Text.int piece = Raise e -> e = ValueError (invalid_piece piece).
Proof.
  unfold Text.int. destruct (Text.literal piece); [discriminate |].
  intros [= <-]. reflexivity.
Qed.

(** An argument is read as a die with at least one face, or one of its
    pieces is no integer literal. *)
Lemma parse_values_cases (arg : string) :
  (exists v vs, parse_values arg = Ok (v :: vs))
  \/ (exists piece,
        In piece (Text.split "," arg)
        /\ Text.int piece = Raise (ValueError (invalid_piece piece))
        /\ parse_values arg = Raise (ValueError (invalid_piece piece))).
Proof.
  unfold parse_values.
  destruct (map_result Text.int (Text.split "," arg)) as [vs | e] eqn:Hm.
  - left. destruct vs as [| v vs]; [| exists v, vs; reflexivity].
    apply map_result_length in Hm. cbn [List.length] in Hm.
    destruct (Text.split "," arg) eqn:Hs; [| discriminate].
    exfalso. apply (split_not_nil _ _ Hs).
  - right. destruct (map_result_raise _ _ _ Hm) as (piece & Hin & Hp).
    pose proof (text_int_raise _ _ Hp) as ->.
    exists piece. repeat split; assumption.
Qed.

Lemma parse_dice_loop_cases (args : list string) :
  forall acc w,
    (exists dice,
       parse_dice_loop args acc w = (Returned (acc ++ dice)%list, w)
       /\ Forall2 (fun arg vs => parse_values arg = Ok vs) args dice
       /\ Forall (fun vs => vs <> []) dice)
    \/ (exists good arg rest piece,
          args = (good ++ arg :: rest)%list
          /\ Forall (fun a => exists vs, parse_values a = Ok vs) good
          /\ In piece (Text.split "," arg)
          /\ Text.int piece = Raise (ValueError (invalid_piece piece))
          /\ parse_dice_loop args acc w
             = (Exited 1, wrote w [parse_error arg (invalid_piece piece)])).
Proof.
  induction args as [| arg args IH]; intros acc w.
  - left. exists []. cbn [parse_dice_loop]. rewrite app_nil_r.
    repeat split; constructor.
  - cbn [parse_dice_loop].
    destruct (parse_values_cases arg)
      as [(v & vs & Hok) | (piece & Hin & Hpiece & Hbad)].
    + rewrite Hok.
      destruct (IH (acc ++ [v :: vs])%list w)
        as [(dice & Hrun & Hall & Hne)
           | (good & arg' & rest & piece & -> & Hgood & Hin & Hbad & Hrun)].
      * left. exists ((v :: vs) :: dice). rewrite Hrun, <- app_assoc.
        repeat split; constructor; try assumption. discriminate.
      * right. exists (arg :: good), arg', rest, piece.
        repeat split; try assumption.
        constructor; [exists (v :: vs); exact Hok | exact Hgood].
    + right. rewrite Hbad. exists [], arg, args, piece.
      repeat split; try assumption. constructor.
Qed.


End CommandLine.

(* ================================================================== *)
(** * How a game can fail *)
(* ================================================================== *)

Section GameFailures.

Import GameControllerM.

Lemma bind_raise_inv {A B} (m : M A) (k : A -> M B) (w w' : World) (e : exn) :
  bind m k w = (Raise e, w') ->
  m w = (Raise e, w')
  \/ exists a w1, m w = (Ok a, w1) /\ k a w1 = (Raise e, w').
Proof.
  unfold bind. destruct (m w) as [[a | e0] w1].
  - intros H. right. exists a, w1. split; [reflexivity | exact H].
  - intros [= <- <-]. left. reflexivity.
Qed.

Lemma print_not_raise (s : string) (w w' : World) (e : exn) :
  print s w = (Raise e, w') -> False.
Proof. unfold print, write. discriminate. Qed.

Lemma generate_table_ok (dice : list Die) (w : World) :
  Forall (fun d => values d <> []) dice ->
  exists w', TableGenerator.generate_table dice w = (Ok tt, w').
Proof.
  intros Hdice.
  assert (Hrows : forall id, In id (enumerate dice) ->
                    exists r, TableGenerator.row dice (fst id) (snd id) = Ok r).
  { intros [j d] Hin. cbn [fst snd].
    assert (Hj : exists k, j = Z.of_nat k).
    { unfold enumerate in Hin. apply in_combine_l in Hin.
      apply in_map_iff in Hin. destruct Hin as (k & <- & _). exists k.
      reflexivity. }
    destruct Hj as (k & ->).
    destruct (row_ok dice k d Hdice) as (cells & Hrow & _).
    - rewrite Forall_forall in Hdice. apply Hdice.
      apply (in_enumerate dice _ d Hin).
    - eexists. exact Hrow. }
  unfold TableGenerator.generate_table.
  unfold bind at 1. unfold print at 1, write at 1.
  unfold bind at 1. unfold print at 1, write at 1.
  match goal with |- context [for_each _ _ ?w1] =>
    destruct (print_rows_ok dice (enumerate dice) Hrows w1) as (rows & -> & _)
  end.
  eexists. reflexivity.
Qed.

Lemma guess_body_not_raise (number : Z) (key : list byte) (line : string)
    (w w' : World) (e : exn) :
  guess_body number key line w = (Raise e, w') -> False.
Proof.
  destruct (not_a_guess_dec line) as [Hno | Hyes].
  - rewrite (guess_body_rejects _ _ _ _ Hno). discriminate.
  - destruct (guess_body_accepts number key line w Hyes) as (g & _ & ->).
    discriminate.
Qed.

Lemma first_player_raise (w w' : World) (e : exn) :
  _determine_first_player w = (Raise e, w') -> e = EOFError.
Proof.
  destruct (determine_first_player_prefix w)
    as (number & key & digest & _ & _ & ->).
  intros Hloop. apply input_loop_raise_inv in Hloop.
  destruct Hloop as [-> | (line & w1 & _ & Hbody)]; [reflexivity |].
  exfalso. apply (guess_body_not_raise _ _ _ _ _ _ Hbody).
Qed.

Lemma select_body_raise (self : GameController) (line : string)
    (w w' : World) (e : exn) :
  select_body self line w = (Raise e, w') ->
  Py.isdigit (Py.strip line) = true /\ Py.int (Py.strip line) = Raise e.
Proof.
  unfold select_body.
  destruct (Py.isdigit (Py.strip line)); cbn [negb].
  2: { unfold bind, print, write, ret. discriminate. }
  unfold bind at 1. unfold lift at 1.
  destruct (Py.int (Py.strip line)) as [n | ex0] eqn:Hint.
  2: { intros [= <- <-]. split; reflexivity. }
  pose proof (int_nonneg _ _ Hint) as Hn.
  destruct (Z.geb_spec n (Z.of_nat (List.length (available_dice (state self))))).
  { unfold bind, print, write, ret. discriminate. }
  destruct (getitem_in_range (available_dice (state self)) n ltac:(lia))
    as (d & Hget & Hnth).
  destruct (select_die_present (state self) d (nth_error_In _ _ Hnth))
    as (before & after & _ & _ & Hsel).
  unfold bind, lift, ret. rewrite Hget, Hsel. discriminate.
Qed.

Lemma player_select_raise (self : GameController) (w w' : World) (e : exn) :
  _player_select_die self w = (Raise e, w') -> input_failure e.
Proof.
  rewrite player_select_prefix. intros Hloop.
  apply input_loop_raise_inv in Hloop.
  destruct Hloop as [-> | (line & w1 & _ & Hbody)]; [left; reflexivity |].
  right. exists (Py.strip line). apply (select_body_raise _ _ _ _ _ Hbody).
Qed.

Lemma computer_select_total (self : GameController) (w : World) :
  available_dice (state self) <> [] ->
  exists d self' w', _computer_select_die self w = (Ok (d, self'), w').
Proof.
  intros Hne. unfold _computer_select_die.
  destruct (available_dice (state self)) as [| d0 rest] eqn:Hav; [congruence |].
  rewrite <- Hav.
  assert (Hlen : 0 <= Z.of_nat (List.length (available_dice (state self))) - 1)
    by (rewrite Hav; cbn [List.length]; lia).
  unfold bind at 1. rewrite generate_uniform_random_ok by exact Hlen.
  set (choice := _ mod _).
  assert (Hchoice : 0 <= choice
                    < Z.of_nat (List.length (available_dice (state self)))).
  { subst choice.
    pose proof (Z.mod_pos_bound
                  (Py.from_bytes_big (map (tape w) (seq (cursor w) 4)))
                  (Z.of_nat (List.length (available_dice (state self))) - 1 + 1))
      as Hb.
    lia. }
  destruct (getitem_in_range _ choice Hchoice) as (d & Hget & Hnth).
  destruct (select_die_present (state self) d (nth_error_In _ _ Hnth))
    as (before & after & _ & _ & Hsel).
  unfold bind, lift, ret. rewrite Hget, Hsel.
  do 3 eexists. reflexivity.
Qed.

Lemma make_throw_raise (context : string) (die : Die) (w w' : World) (e : exn) :
  1 <= DieM.len die ->
  _make_throw context die w = (Raise e, w') -> input_failure e.
Proof.
  intros Hlen Hrun.
  destruct (make_throw_inv context die w w' _ Hlen Hrun) as (e0 & key & w1 & Hloop).
  apply input_loop_raise_inv in Hloop.
  destruct Hloop as [-> | (line & w2 & _ & Hbody)]; [left; reflexivity |].
  right. exists (Py.strip line).
  destruct (throw_body_raise _ _ _ _ _ _ _ Hlen Hbody) as (Hd & Hi & _).
  split; assumption.
Qed.

Lemma selections_raise (player_first : bool) (self : GameController)
    (w w' : World) (e : exn) :
  (2 <= List.length (available_dice (state self)))%nat ->
  (if player_first then
     print "You will select your die first." ;;;
     '(pd, self) <- _player_select_die self ;;
     let self := set_player_die self pd in
     '(cd, self) <- _computer_select_die self ;;
     ret (pd, cd, set_computer_die self cd)
   else
     print "Computer will select its die first." ;;;
     '(cd, self) <- _computer_select_die self ;;
     let self := set_computer_die self cd in
     '(pd, self) <- _player_select_die self ;;
     ret (pd, cd, set_player_die self pd)) w
  = (Raise e, w') ->
  input_failure e.
Proof.
  intros Hpool. destruct player_first; intros H.
  - apply bind_raise_inv in H.
    destruct H as [H | (u & w1 & _ & H)]; [destruct (print_not_raise _ _ _ _ H) |].
    apply bind_raise_inv in H.
    destruct H as [H | ([pd selfA] & w2 & Hsel & H)];
      [apply (player_select_raise _ _ _ _ H) |].
    apply player_select_ok_inv in Hsel.
    destruct Hsel as (_ & b1 & a1 & Hsplit & HstA).
    cbv zeta in H. exfalso.
    destruct (computer_select_total (set_player_die selfA pd) w2)
      as (cd & selfB & w3 & Hrun).
    { cbn [set_player_die state available_dice]. rewrite HstA.
      cbn [with_pool available_dice]. rewrite Hsplit in Hpool.
      rewrite List.length_app in Hpool. cbn [List.length] in Hpool.
      intros Hnil. apply (f_equal (@List.length Die)) in Hnil.
      rewrite List.length_app in Hnil. cbn [List.length] in Hnil. lia. }
    unfold bind in H. rewrite Hrun in H. unfold ret in H. discriminate.
  - apply bind_raise_inv in H.
    destruct H as [H | (u & w1 & _ & H)]; [destruct (print_not_raise _ _ _ _ H) |].
    destruct (computer_select_total self w1) as (cd & selfA & w2 & Hrun).
    { intros Hnil. rewrite Hnil in Hpool. cbn [List.length] in Hpool. lia. }
    unfold bind at 1 in H. rewrite Hrun in H. cbv zeta in H.
    apply bind_raise_inv in H.
    destruct H as [H | ([pd selfB] & w3 & _ & H)];
      [apply (player_select_raise _ _ _ _ H) |].
    unfold ret in H. discriminate.
Qed.

Lemma start_game_raise (self : GameController) (w w' : World) (e : exn) :
  Forall (fun d => values d <> []) (original_dice (state self)) ->
  Forall (fun d => values d <> []) (available_dice (state self)) ->
  (2 <= List.length (available_dice (state self)))%nat ->
  start_game self w = (Raise e, w') ->
  input_failure e.
Proof.
  intros Horig Havail Hpool H. unfold start_game in H.
  apply bind_raise_inv in H.
  destruct H as [H | (u1 & w1 & _ & H)]; [destruct (print_not_raise _ _ _ _ H) |].
  apply bind_raise_inv in H.
  destruct H as [H | (u2 & w2 & _ & H)].
  { destruct (generate_table_ok _ w1 Horig) as (wt & Ht). congruence. }
  apply bind_raise_inv in H.
  destruct H as [H | (u3 & w3 & _ & H)]; [destruct (print_not_raise _ _ _ _ H) |].
  apply bind_raise_inv in H.
  destruct H as [H | (player_first & w4 & _ & H)].
  { left. apply (first_player_raise _ _ _ H). }
  apply bind_raise_inv in H.
  destruct H as [H | ([[pd cd] self1] & w5 & Hpicks & H)].
  { apply (selections_raise _ _ _ _ _ Hpool H). }
  apply selections_inv in Hpicks.
  destruct Hpicks as (_ & _ & _ & _ & Hperm).
  assert (Hfaces : forall d, In d [pd; cd] -> 1 <= DieM.len d).
  { intros d Hd. rewrite Forall_forall in Havail.
    assert (Hin : In d (available_dice (state self))).
    { apply (Permutation_in _ (Permutation_sym Hperm)).
      destruct Hd as [<- | [<- | []]]; [left | right; left]; reflexivity. }
    specialize (Havail d Hin). unfold DieM.len.
    destruct (values d); [congruence | cbn [List.length]; lia]. }
  apply bind_raise_inv in H.
  destruct H as [H | (u6 & w6 & _ & H)]; [destruct (print_not_raise _ _ _ _ H) |].
  apply bind_raise_inv in H.
  destruct H as [H | (u7 & w7 & _ & H)]; [destruct (print_not_raise _ _ _ _ H) |].
  apply bind_raise_inv in H.
  destruct H as [H | (u8 & w8 & _ & H)]; [destruct (print_not_raise _ _ _ _ H) |].
  apply bind_raise_inv in H.
  destruct H as [H | (ps & w9 & _ & H)].
  { apply (make_throw_raise _ _ _ _ _ (Hfaces pd (or_introl eq_refl)) H). }
  apply bind_raise_inv in H.
  destruct H as [H | (cs & w10 & _ & H)].
  { apply (make_throw_raise _ _ _ _ _
             (Hfaces cd (or_intror (or_introl eq_refl))) H). }
  apply bind_raise_inv in H.
  destruct H as [H | (u11 & w11 & _ & H)]; [destruct (print_not_raise _ _ _ _ H) |].
  apply bind_raise_inv in H.
  destruct H as [H | (u12 & w12 & _ & H)]; [destruct (print_not_raise _ _ _ _ H) |].
  apply bind_raise_inv in H.
  destruct H as [H | (u13 & w13 & _ & H)].
  { exfalso. destruct (ps >? cs); [apply (print_not_raise _ _ _ _ H) |].
    destruct (ps <? cs); apply (print_not_raise _ _ _ _ H). }
  unfold ret in H. discriminate.
Qed.

(** X19. A game over a pool of at least two dice, all dice having faces,
    fails in two ways only: with [EOFError], when the input ends at a
    prompt, or with the [ValueError] of [int], for a line that passed
    [isdigit]. It never fails for want of a die to select, or with an
    index out of range, or with a division by zero. *)
Theorem start_game_failures (self : GameController) (w w' : World) (e : exn) :
  Forall (fun d => values d <> []) (original_dice (state self)) ->
  Forall (fun d => values d <> []) (available_dice (state self)) ->
  (2 <= List.length (available_dice (state self)))%nat ->
  start_game self w = (Raise e, w') ->
  input_failure e.
Proof. apply start_game_raise. Qed.

Lemma start_game_failures_witness :
  input_failure EOFError
  /\ fst (start_game (mkGameController (GameStateM.init [die_a; die_b; die_c]))
            (mkWorld sample_tape 0 ["1"; "0"] []))
     = Raise EOFError.
Proof.
  split; [| vm_compute; reflexivity].
  apply (start_game_failures
           (mkGameController (GameStateM.init [die_a; die_b; die_c]))
           (mkWorld sample_tape 0 ["1"; "0"] [])
           (snd (start_game
                   (mkGameController (GameStateM.init [die_a; die_b; die_c]))
                   (mkWorld sample_tape 0 ["1"; "0"] [])))
           EOFError).
  - repeat constructor; discriminate.
  - repeat constructor; discriminate.
  - cbn. lia.
  - vm_compute. reflexivity.
Defined.

End GameFailures.

(* ================================================================== *)
(** * The program from its command line *)
(* ================================================================== *)

Section Main.

Lemma init_ok (dice_values : list (list Z)) :
  (3 <= List.length dice_values)%nat ->
  Forall (fun vs => vs <> []) dice_values ->
  GameControllerM.init dice_values
  = Ok (mkGameController (GameStateM.init (map mkDie dice_values))).
Proof.
  intros Hlen Hgood. unfold GameControllerM.init.
  destruct (Nat.ltb_spec (List.length dice_values) 3); [lia |].
  rewrite map_result_init by exact Hgood. reflexivity.
Qed.

Lemma int_raises_value_error (s : string) (e : exn) :
  Py.int s = Raise e -> exists msg, e = ValueError msg.
Proof.
  unfold Py.int, Py.invalid_literal. destruct s; [intros [= <-]; eexists; reflexivity |].
  destruct (Py.all_chars _ _); [discriminate |].
  intros [= <-]. eexists. reflexivity.
Qed.

Lemma main_short (argv : list string) (w : World) :
  (List.length argv < 4)%nat -> main argv w = (Exited 1, wrote w usage).
Proof.
  intros Hlen. unfold main.
  destruct (Nat.ltb_spec (List.length argv) 4); [| lia].
  unfold bind, print, write, wrote, usage. cbn [tape cursor stdin stdout].
  rewrite <- app_assoc. reflexivity.
Qed.


End Main.

(* ================================================================== *)
(** * Neither party decides a throw alone *)
(* ================================================================== *)

Section Fairness.

Import GameControllerM.

Lemma unique_summand (n a r : Z) :
  1 <= n -> 0 <= r < n ->
  0 <= (r - a) mod n < n
  /\ ((r - a) mod n + a) mod n = r
  /\ forall x, 0 <= x < n -> (x + a) mod n = r -> x = (r - a) mod n.
Proof.
  intros Hn Hr.
  split; [apply Z.mod_pos_bound; lia |]. split.
  - rewrite Zplus_mod_idemp_l. replace (r - a + a) with r by lia.
    apply Z.mod_small. exact Hr.
  - intros x Hx Hsum. rewrite <- Hsum.
    rewrite Zminus_mod_idemp_l. replace (x + a - a) with x by lia.
    symmetry. apply Z.mod_small. exact Hx.
Qed.

(** X21. In a throw neither number decides the face alone. For any number
    the computer committed to, each position of the die is reached by
    exactly one number below the number of faces that the player can type,
    and typing it scores the face at that position; and for any number the
    player contributes, each position is reached for exactly one committed
    number. *)
Theorem throw_depends_on_both (die : Die) (r : Z) :
  1 <= DieM.len die ->
  0 <= r < DieM.len die ->
  (forall e key,
     exists c,
       0 <= c < DieM.len die
       /\ (c + e) mod DieM.len die = r
       /\ (forall c', 0 <= c' < DieM.len die ->
                      (c' + e) mod DieM.len die = r -> c' = c)
       /\ forall rest w,
            stdin w = Py.str c :: rest ->
            exists face,
              nth_error (values die) (Z.to_nat r) = Some face
              /\ fst (while_true_input "Your selection: "
                        (throw_body die e key) w) = Ok face)
  /\ (forall c,
        exists e,
          0 <= e < DieM.len die
          /\ (c + e) mod DieM.len die = r
          /\ forall e', 0 <= e' < DieM.len die ->
                        (c + e') mod DieM.len die = r -> e' = e).
Proof.
  intros Hlen Hr. split.
  - intros e key.
    destruct (unique_summand (DieM.len die) e r Hlen Hr) as (Hc & Hsum & Huniq).
    exists ((r - e) mod DieM.len die).
    split; [exact Hc |]. split; [exact Hsum |]. split; [exact Huniq |].
    intros rest w Hin.
    destruct (throw_loop_resolves die e key _ _ rest w Hlen Hin
                (str_contributes _ (proj1 Hc)) (proj2 Hc))
      as (face & out & Hnth & Hrun).
    rewrite Hsum in Hnth. exists face. rewrite Hrun. split; [exact Hnth | reflexivity].
  - intros c.
    destruct (unique_summand (DieM.len die) c r Hlen Hr) as (He & Hsum & Huniq).
    exists ((r - c) mod DieM.len die).
    split; [exact He |]. split; [rewrite Z.add_comm; exact Hsum |].
    intros e' He' Hsum'. apply Huniq; [exact He' |].
    rewrite Z.add_comm. exact Hsum'.
Qed.

Lemma throw_depends_on_both_witness :
  exists c,
    0 <= c < DieM.len die_a
    /\ (c + 4) mod DieM.len die_a = 1
    /\ (forall c', 0 <= c' < DieM.len die_a ->
                   (c' + 4) mod DieM.len die_a = 1 -> c' = c)
    /\ forall rest w,
         stdin w = Py.str c :: rest ->
         exists face,
           nth_error (values die_a) (Z.to_nat 1) = Some face
           /\ fst (while_true_input "Your selection: "
                     (throw_body die_a 4 []) w) = Ok face.
Proof.
  apply (proj1 (throw_depends_on_both die_a 1 ltac:(cbn; lia) ltac:(cbn; lia))
           4 []).
Defined.

End Fairness.
